(** * IPO prospectus analyzer: the deterministic analysis engine

  A shallow embedding of the table extractor ([table_extractor.py]), the
  risk analyzer ([risk_analyzer.py]) and the recommendation engine
  ([scorer.py]), with the properties their specification states.

  Conventions of the embedding:
  - Python [str] values are Rocq strings over the ASCII range; the character
    classes ([isdigit], white space, the [\w] of [re]) are the ASCII ones.
  - Python numbers ([int] and finite [float]) are exact rationals [Q]; the
    rounding of float arithmetic is outside the model, comparisons with the
    integer and dyadic constants of the code are exact.
  - a [dict] read by key is a [gmap]; a [dict] whose iteration order matters
    is an association list in insertion order, with distinct keys.
  - a pandas frame is its label column and its value columns, read by
    position; this stands for the frame where the column names are distinct
    (pandas reads and assigns a column by its name) and the label column
    holds text. The metric values handed to the recommendation engine are
    numbers. *)

From Stdlib Require Import ZArith QArith Qminmax Qround Lqa Ascii Sorted.
From Stdlib Require String.
From stdpp Require Import base option list gmap strings fin_maps.

Local Open Scope Z_scope.

(** ** Text: the [str] operations the code uses *)

Module Text.

Definition chars (s : string) : list ascii := String.list_ascii_of_string s.
Definition text (l : list ascii) : string := String.string_of_list_ascii l.

Definition code (c : ascii) : N := N_of_ascii c.

Definition in_range (lo hi : N) (c : ascii) : bool :=
  ((lo <=? code c) && (code c <=? hi))%N.

(** [c.isdigit()] *)
Definition is_digit (c : ascii) : bool := in_range 48 57 c.
Definition is_upper (c : ascii) : bool := in_range 65 90 c.
Definition is_lower (c : ascii) : bool := in_range 97 122 c.

(** White space of [str.strip()] and of [\s]: TAB, LF, VT, FF, CR, the
    separators 0x1C-0x1F and the blank. *)
Definition is_space (c : ascii) : bool :=
  in_range 9 13 c || in_range 28 31 c || (code c =? 32)%N.

(** [\w]: letters, digits and the underscore. *)
Definition is_word (c : ascii) : bool :=
  is_digit c || is_upper c || is_lower c || (code c =? 95)%N.

Definition lower_char (c : ascii) : ascii :=
  if is_upper c then ascii_of_N (code c + 32) else c.
Definition upper_char (c : ascii) : ascii :=
  if is_lower c then ascii_of_N (code c - 32) else c.

(** [s.lower()], [s.upper()] *)
Definition lower (s : string) : string := text (lower_char <$> chars s).
Definition upper (s : string) : string := text (upper_char <$> chars s).

Fixpoint is_prefix (p l : list ascii) : bool :=
  match p, l with
  | [], _ => true
  | _ :: _, [] => false
  | a :: p', b :: l' => Ascii.eqb a b && is_prefix p' l'
  end.

Fixpoint occurs (p l : list ascii) : bool :=
  is_prefix p l || match l with [] => false | _ :: l' => occurs p l' end.

(** [pat in s] *)
Definition str_in (pat s : string) : bool := occurs (chars pat) (chars s).

(** [s.startswith(p)] *)
Definition startswith (s p : string) : bool := is_prefix (chars p) (chars s).

(** [sep.join(parts)] *)
Definition join (sep : string) (parts : list string) : string :=
  String.concat sep parts.

(** [s.split(sep)] for a one-character separator: every occurrence cuts. *)
Fixpoint split_chars (sep : ascii) (l : list ascii) : list (list ascii) :=
  match l with
  | [] => [[]]
  | c :: l' =>
      if Ascii.eqb c sep then [] :: split_chars sep l'
      else match split_chars sep l' with
           | [] => [[c]]
           | w :: ws => (c :: w) :: ws
           end
  end.
Definition split (sep : ascii) (s : string) : list string :=
  text <$> split_chars sep (chars s).

(** [s.split(sep, 1)]: cut at the first occurrence only; one part when the
    separator does not occur. *)
Fixpoint cut_chars (sep : ascii) (l : list ascii) : option (list ascii * list ascii) :=
  match l with
  | [] => None
  | c :: l' =>
      if Ascii.eqb c sep then Some ([], l')
      else match cut_chars sep l' with
           | Some (a, b) => Some (c :: a, b)
           | None => None
           end
  end.
Definition split1 (sep : ascii) (s : string) : list string :=
  match cut_chars sep (chars s) with
  | Some (a, b) => [text a; text b]
  | None => [s]
  end.

Fixpoint lstrip_by (p : ascii → bool) (l : list ascii) : list ascii :=
  match l with
  | [] => []
  | c :: l' => if p c then lstrip_by p l' else l
  end.
Definition rstrip_by (p : ascii → bool) (l : list ascii) : list ascii :=
  rev (lstrip_by p (rev l)).
Definition strip_by (p : ascii → bool) (l : list ascii) : list ascii :=
  rstrip_by p (lstrip_by p l).

Definition mem_char (set : list ascii) (c : ascii) : bool :=
  existsb (Ascii.eqb c) set.

(** [s.strip()] and [s.strip(set)]: both ends are trimmed. *)
Definition strip (s : string) : string := text (strip_by is_space (chars s)).
Definition strip_set (set s : string) : string :=
  text (strip_by (mem_char (chars set)) (chars s)).
(** Trimming on the left only, as [s.lstrip(set)] does. *)
Definition lstrip_set (set s : string) : string :=
  text (lstrip_by (mem_char (chars set)) (chars s)).

Definition digit_val (c : ascii) : Z := Z.of_N (code c) - 48.

(** [int(s)] on a string of decimal digits. *)
Definition int_of_digits (l : list ascii) : Z :=
  fold_left (fun acc c => 10 * acc + digit_val c) l 0.

End Text.

(** ** table_extractor.py *)

Module TableExtractor.
Import Text.

(** *** [year_pattern]: the regular expression [\b(20\d{2}|FY\s*\d{2})\b] *)

Definition opt_word (c : option ascii) : bool := from_option is_word false c.

(** [\b] holds between two neighbours exactly one of which is a word
    character; outside the string there is none. *)
Definition word_boundary (prev next : option ascii) : bool :=
  xorb (opt_word prev) (opt_word next).

Fixpoint take_by (p : ascii → bool) (l : list ascii) : list ascii :=
  match l with
  | [] => []
  | c :: l' => if p c then c :: take_by p l' else []
  end.

(** [20\d{2}] at the head of [l]: the matched text and the rest. *)
Definition match_year4 (l : list ascii) : option (list ascii * list ascii) :=
  match l with
  | c1 :: c2 :: d1 :: d2 :: rest =>
      if Ascii.eqb c1 "2" && Ascii.eqb c2 "0" && is_digit d1 && is_digit d2
      then Some ([c1; c2; d1; d2], rest) else None
  | _ => None
  end.

(** [FY\s*\d{2}] at the head of [l]; [\s*] is greedy, and giving back a blank
    never helps since a blank is no digit. *)
Definition match_fy (l : list ascii) : option (list ascii * list ascii) :=
  match l with
  | c1 :: c2 :: t =>
      if Ascii.eqb c1 "F" && Ascii.eqb c2 "Y" then
        match lstrip_by is_space t with
        | d1 :: d2 :: rest =>
            if is_digit d1 && is_digit d2
            then Some (c1 :: c2 :: take_by is_space t ++ [d1; d2], rest)
            else None
        | _ => None
        end
      else None
  | _ => None
  end.

(** An alternative of the group followed by the closing [\b]. *)
Definition then_boundary (m : option (list ascii * list ascii)) : option (list ascii) :=
  match m with
  | Some (tok, rest) =>
      if word_boundary (last tok) (head rest) then Some tok else None
  | None => None
  end.

(** The whole pattern tried at one position, [prev] being the character
    before it. *)
Definition match_here (prev : option ascii) (l : list ascii) : option (list ascii) :=
  if word_boundary prev (head l) then
    match then_boundary (match_year4 l) with
    | Some tok => Some tok
    | None => then_boundary (match_fy l)
    end
  else None.

(** [year_pattern.search]: the leftmost position where the pattern matches. *)
Fixpoint search_from (prev : option ascii) (l : list ascii) : option (list ascii) :=
  match match_here prev l with
  | Some tok => Some tok
  | None =>
      match l with
      | [] => None
      | c :: l' => search_from (Some c) l'
      end
  end.

(** [year_pattern.search(s)], giving [match.group(1)]. *)
Definition year_pattern_search (s : string) : option string :=
  text <$> search_from None (chars s).

(** [re.search(r'\d{2}', s).group()] *)
Fixpoint search_2digits (l : list ascii) : option (list ascii) :=
  match l with
  | d1 :: ((d2 :: _) as l') =>
      if is_digit d1 && is_digit d2 then Some [d1; d2] else search_2digits l'
  | _ => None
  end.

Definition _extract_year (column_name : string) : option Z :=
  match year_pattern_search column_name with
  | Some year_str =>
      if str_in "FY" (upper year_str) then
        match search_2digits (chars year_str) with
        | Some year_digits => Some (2000 + int_of_digits year_digits)
        | None => None
        end
      else Some (int_of_digits (chars year_str))
  | None => None
  end.

(** *** Data frames *)

(** A cell of the label column: text, or one of the missing values, read by
    the code through [str(...)]. *)
Inductive label := LStr (s : string) | LNaN | LNone.

Definition str_label (v : label) : string :=
  match v with LStr s => s | LNaN => "nan" | LNone => "None" end.

(** A frame has one label column and value columns; a row is its label cell
    and its value cells, read against the headers by position. *)
Record DataFrame (A : Type) := mkDataFrame {
  label_header : string;
  headers : list string;
  rows : list (label * list A)
}.
Arguments mkDataFrame {A} _ _ _.
Arguments label_header {A} _.
Arguments headers {A} _.
Arguments rows {A} _.

(** [df.columns] and [df.iloc[:, 0]] *)
Definition columns {A} (df : DataFrame A) : list string :=
  label_header df :: headers df.
Definition first_col {A} (df : DataFrame A) : list label := fst <$> rows df.

(** [df.empty]: no rows (a label column is always there). *)
Definition df_empty {A} (df : DataFrame A) : bool :=
  match rows df with [] => true | _ => false end.

(** [any(word in text for word in words)] *)
Definition any_in (words : list string) (text : string) : bool :=
  existsb (fun word => str_in word text) words.

Definition _identify_statement_type {A} (df : DataFrame A) : option string :=
  let header_text := join " " (lower <$> columns df) in
  let first_col_text := join " " ((fun val => lower (str_label val)) <$> first_col df) in
  let combined_text := header_text +:+ " " +:+ first_col_text in
  if any_in ["revenue"; "income statement"; "profit"; "expenditure"] combined_text
  then Some "profit_loss"
  else if any_in ["balance sheet"; "assets"; "liabilities"; "equity"] combined_text
  then Some "balance_sheet"
  else if any_in ["cash flow"; "operating activities"; "investing activities"] combined_text
  then Some "cash_flow"
  else None.

(** *** [_process_financial_table] *)

Definition is_year_col (col : string) : bool :=
  bool_decide (is_Some (year_pattern_search col)).

(** The cells of a row under the columns that [keep] retains. *)
Definition select_cells {A} (keep : string → bool) (hs : list string) (cells : list A) : list A :=
  snd <$> filter (fun hc => keep hc.1 = true) (zip hs cells).

Definition strip_label (v : label) : label :=
  match v with LStr s => LStr (strip s) | _ => v end.

Section Process.
Context {A : Type}.
(** [pd.to_numeric(..., errors='coerce')] on one cell: a number, or
    missing. *)
Variable to_numeric : A → option Q.

Definition _process_financial_table (df : DataFrame A) : DataFrame (option Q) :=
  let year_cols := filter (fun col => is_year_col col = true) (headers df) in
  let keep : string → bool :=
    match year_cols with [] => fun _ => true | _ => is_year_col end in
  let hs := filter (fun col => keep col = true) (headers df) in
  let numeric := (fun r : label * list A =>
                    (r.1, to_numeric <$> select_cells keep (headers df) r.2)) <$> rows df in
  let kept := filter (fun r : label * list (option Q) =>
                        existsb (fun v : option Q => bool_decide (is_Some v)) r.2 = true) numeric in
  mkDataFrame (label_header df) hs ((fun r => (strip_label r.1, r.2)) <$> kept).
End Process.

(** *** [extract_metric_timeseries] *)

Definition metric_patterns : gmap string (list string) :=
  list_to_map
    [ ("revenue", ["revenue"; "total revenue"; "net revenue"; "sales"; "total income"]);
      ("ebitda", ["ebitda"; "earnings before interest"]);
      ("ebit", ["ebit"; "operating profit"]);
      ("pat", ["pat"; "profit after tax"; "net profit"]);
      ("total_assets", ["total assets"]);
      ("total_liabilities", ["total liabilities"]);
      ("equity", ["equity"; "shareholders equity"; "total equity"]);
      ("total_debt", ["total debt"; "borrowings"]);
      ("cash", ["cash"; "cash and cash equivalents"]) ].

(** The inner loop over the columns: [timeseries[year] = float(row[col])]
    where the header gives a (truthy) year and the cell is not missing. *)
Definition add_cell (timeseries : gmap Z Q) (hc : string * option Q) : gmap Z Q :=
  match _extract_year hc.1, hc.2 with
  | Some year, Some v => if bool_decide (year ≠ 0) then <[year := v]> timeseries else timeseries
  | _, _ => timeseries
  end.

Definition row_timeseries (hs : list string) (cells : list (option Q)) : gmap Z Q :=
  fold_left add_cell (zip hs cells) ∅.

(** The loop over the patterns for one row: a pattern that occurs in the
    label returns the row's series when it is not empty, and otherwise the
    loop goes on. *)
Fixpoint scan_patterns (patterns : list string) (row_label_lower : string)
    (timeseries : gmap Z Q) : option (gmap Z Q) :=
  match patterns with
  | [] => None
  | pattern :: patterns' =>
      if str_in pattern row_label_lower && bool_decide (timeseries ≠ ∅)
      then Some timeseries
      else scan_patterns patterns' row_label_lower timeseries
  end.

Fixpoint scan_rows (patterns : list string) (hs : list string)
    (rs : list (label * list (option Q))) : gmap Z Q :=
  match rs with
  | [] => ∅
  | (row_label, cells) :: rs' =>
      match scan_patterns patterns (lower (str_label row_label)) (row_timeseries hs cells) with
      | Some timeseries => timeseries
      | None => scan_rows patterns hs rs'
      end
  end.

Definition extract_metric_timeseries (df : option (DataFrame (option Q)))
    (metric_name : string) : gmap Z Q :=
  match df with
  | None => ∅
  | Some df =>
      if df_empty df then ∅
      else
        let patterns := default [metric_name] (metric_patterns !! metric_name) in
        scan_rows patterns (headers df) (rows df)
  end.

(** *** [extract_financial_statements] and [build_financial_data_dict] *)

(** One entry of the parser's table list, a dictionary read under the keys
    [type] and [data]; [None] is a key that the dictionary lacks. *)
Record Table (A : Type) := mkTable {
  type : option string;
  data : option (DataFrame A)
}.
Arguments mkTable {A} _ _.
Arguments type {A} _.
Arguments data {A} _.

(** The dictionary [statements]: a statement type maps to a processed frame
    or to [None]. *)
Abbreviation Statements := (gmap string (option (DataFrame (option Q)))).

Definition no_statements : Statements :=
  <["cash_flow" := None]> (<["balance_sheet" := None]> (<["profit_loss" := None]> ∅)).

Section Statements.
Context {A : Type}.
Variable to_numeric : A → option Q.

(** The body of the loop for one table; the outer [None] is the [KeyError] of
    [table['type']], of [table['data']] or of [statements[statement_type]]. *)
Definition add_statement (statements : Statements) (table : Table A) : option Statements :=
  table_type ← type table;
  if bool_decide (table_type ≠ "financial") then Some statements
  else
    df ← data table;
    match _identify_statement_type df with
    | Some statement_type =>
        if bool_decide (statement_type = "") then Some statements
        else
          match statements !! statement_type with
          | None => None
          | Some None =>
              Some (<[statement_type := Some (_process_financial_table to_numeric df)]> statements)
          | Some (Some _) => Some statements
          end
    | None => Some statements
    end.

Fixpoint add_statements (tables : list (Table A)) (statements : Statements)
    : option Statements :=
  match tables with
  | [] => Some statements
  | table :: tables' =>
      match add_statement statements table with
      | Some statements' => add_statements tables' statements'
      | None => None
      end
  end.

Definition extract_financial_statements (tables : list (Table A)) : option Statements :=
  add_statements tables no_statements.

End Statements.

(** [for metric in metrics: financial_data[metric] = extract_metric_timeseries(df, metric)] *)
Definition add_metrics (df : DataFrame (option Q)) (metrics : list string)
    (financial_data : gmap string (gmap Z Q)) : gmap string (gmap Z Q) :=
  fold_left (fun fd metric => <[metric := extract_metric_timeseries (Some df) metric]> fd)
            metrics financial_data.

(** [None] is the [KeyError] of a statement type missing from [statements]. *)
Definition build_financial_data_dict (statements : Statements)
    : option (gmap string (gmap Z Q)) :=
  let financial_data : gmap string (gmap Z Q) := ∅ in
  profit_loss ← statements !! "profit_loss";
  let financial_data :=
    match profit_loss with
    | Some pl_df => add_metrics pl_df ["revenue"; "ebitda"; "ebit"; "pat"] financial_data
    | None => financial_data
    end in
  balance_sheet ← statements !! "balance_sheet";
  let financial_data :=
    match balance_sheet with
    | Some bs_df =>
        add_metrics bs_df ["total_assets"; "total_liabilities"; "equity"; "total_debt"; "cash"]
                    financial_data
    | None => financial_data
    end in
  cash_flow ← statements !! "cash_flow";
  let financial_data :=
    match cash_flow with
    | Some _ =>
        <["financing_cash_flow" := ∅]>
          (<["investing_cash_flow" := ∅]> (<["operating_cash_flow" := ∅]> financial_data))
    | None => financial_data
    end in
  Some (<["current_liabilities" := ∅]> (<["current_assets" := ∅]> financial_data)).

End TableExtractor.

(** ** risk_analyzer.py *)

Module RiskAnalyzer.
Import Text.

(** A risk record: the dictionary with the keys [title], [description],
    [category] and [severity]; [None] is Python's [None]. *)
Record Risk := mkRisk {
  title : string;
  description : string;
  category : option string;
  severity : option string
}.

(** [self.risk_categories], in declaration order. *)
Definition risk_categories : list (string * list string) :=
  [ ("business_risk", ["business model"; "operations"; "product"]);
    ("financial_risk", ["debt"; "cash flow"; "profitability"; "liquidity"]);
    ("operational_risk", ["supply chain"; "manufacturing"; "capacity"]);
    ("regulatory_risk", ["government"; "regulation"; "compliance"; "policy"]);
    ("legal_risk", ["litigation"; "legal proceedings"; "lawsuit"]);
    ("market_risk", ["competition"; "market share"; "pricing"]);
    ("promoter_risk", ["promoter"; "management"; "related party"]);
    ("customer_concentration_risk", ["customer concentration"; "major customers"]) ].

(** *** [_parse_risk_response] *)

(** [line[0].isdigit()] on a line that is not empty. *)
Definition first_isdigit (line : string) : bool :=
  match chars line with c :: _ => is_digit c | [] => false end.

(** The body of the loop for one line: the record appended, if any. *)
Definition parse_line (raw : string) : option Risk :=
  let line := strip raw in
  if bool_decide (line = "") then None
  else if first_isdigit line || startswith line "-" then
    match split1 ":" line with
    | [before; after] =>
        Some (mkRisk (strip_set "0123456789.-) " before) (strip after) None None)
    | _ =>
        Some (mkRisk (strip_set "0123456789.-) " line) "" None None)
    end
  else None.

Definition _parse_risk_response (response : string) : list Risk :=
  fold_left (fun risks raw =>
               match parse_line raw with
               | Some risk => risks ++ [risk]
               | None => risks
               end)
            (split "010" response) [].

(** *** [_classify_single_risk] *)

(** [(risk['title'] + ' ' + risk['description']).lower()] *)
Definition risk_text (risk : Risk) : string :=
  lower (title risk +:+ " " +:+ description risk).

(** [sum(1 for k in keywords if k in text)] *)
Definition count_in (keywords : list string) (text : string) : Z :=
  fold_left Z.add ((fun _ => 1) <$> filter (fun k => str_in k text = true) keywords) 0.

(** The dictionary [category_scores], in insertion order. *)
Fixpoint score_categories (cats : list (string * list string)) (text : string)
    : list (string * Z) :=
  match cats with
  | [] => []
  | (category, keywords) :: cats' =>
      let score := count_in keywords text in
      if 0 <? score then (category, score) :: score_categories cats' text
      else score_categories cats' text
  end.

(** [max(d, key=d.get)] keeps the first key and replaces it only by a key
    whose value is strictly greater. *)
Fixpoint max_from (best : string * Z) (l : list (string * Z)) : string :=
  match l with
  | [] => best.1
  | x :: l' => if best.2 <? x.2 then max_from x l' else max_from best l'
  end.

Definition classify_with (cats : list (string * list string)) (text : string) : string :=
  match score_categories cats text with
  | x :: l => max_from x l
  | [] => "other"
  end.

Definition _classify_single_risk (risk : Risk) : string :=
  classify_with risk_categories (risk_text risk).

(** *** [_assess_risk_severity] *)

Definition high_indicators : list string :=
  [ "significant"; "material"; "substantial"; "major";
    "critical"; "severe"; "adversely affect"; "inability";
    "failure"; "default"; "litigation"; "regulatory action" ].

Definition medium_indicators : list string :=
  [ "may affect"; "could impact"; "potential"; "possible";
    "risk of"; "uncertainty"; "dependent"; "reliant" ].

Definition _assess_risk_severity (risk : Risk) : string :=
  let text := risk_text risk in
  let high_count := count_in high_indicators text in
  let medium_count := count_in medium_indicators text in
  if 2 <=? high_count then "High"
  else if (1 <=? high_count) || (2 <=? medium_count) then "Medium"
  else "Low".

(** *** [get_risk_score] *)

(** One entry of [severity_analysis]. *)
Record CategoryAnalysis := mkCategoryAnalysis {
  risks : list Risk;
  count : Z;
  severity_breakdown : gmap string Z
}.

Definition weights : gmap string Z :=
  list_to_map [("High", 3); ("Medium", 2); ("Low", 1)].

(** [weights.get(severity, 1)] *)
Definition weight_of (severity : option string) : Z :=
  default 1 (severity ≫= (weights !!.)).

(** The two nested loops, on the pair [(total_risks, weighted_sum)]. *)
Definition tally (severity_analysis : list (string * CategoryAnalysis)) : Z * Z :=
  fold_left
    (fun acc entry =>
       fold_left (fun '(total_risks, weighted_sum) risk =>
                    (total_risks + 1, weighted_sum + weight_of (severity risk)))
                 (risks entry.2) acc)
    severity_analysis (0, 0).

Definition get_risk_score (severity_analysis : list (string * CategoryAnalysis)) : Q :=
  let '(total_risks, weighted_sum) := tally severity_analysis in
  if total_risks =? 0 then 0%Q
  else
    let avg_weight := (inject_Z weighted_sum / inject_Z total_risks)%Q in
    Qmin ((avg_weight / 3) * 100)%Q 100%Q.

(** *** [classify_risks] *)

(** [risk['category'] = category] and [risk['severity'] = severity] *)
Definition set_category (risk : Risk) (c : string) : Risk :=
  mkRisk (title risk) (description risk) (Some c) (severity risk).
Definition set_severity (risk : Risk) (s : string) : Risk :=
  mkRisk (title risk) (description risk) (category risk) (Some s).

(** [classified[category].append(risk)] on the dictionary in insertion order;
    [None] is the [KeyError] of a category that is no key. *)
Fixpoint dict_append (category : string) (risk : Risk)
    (classified : list (string * list Risk)) : option (list (string * list Risk)) :=
  match classified with
  | [] => None
  | (k, l) :: classified' =>
      if bool_decide (k = category) then Some ((k, l ++ [risk]) :: classified')
      else cons (k, l) <$> dict_append category risk classified'
  end.

(** [{category: [] for category in self.risk_categories.keys()}] followed by
    [classified['other'] = []]. *)
Definition no_risks_classified : list (string * list Risk) :=
  ((fun ck : string * list string => (ck.1, @nil Risk)) <$> risk_categories)
  ++ [("other", [])].

Fixpoint classify_loop (risks : list Risk) (classified : list (string * list Risk))
    : option (list (string * list Risk)) :=
  match risks with
  | [] => Some classified
  | risk :: risks' =>
      let category := _classify_single_risk risk in
      match dict_append category (set_category risk category) classified with
      | Some classified' => classify_loop risks' classified'
      | None => None
      end
  end.

Definition classify_risks (risks : list Risk) : option (list (string * list Risk)) :=
  classify_loop risks no_risks_classified.

(** *** [assess_severity] *)

(** [sum(1 for r in risks if r['severity'] == s)] *)
Definition count_severity (s : string) (risks : list Risk) : Z :=
  fold_left Z.add
    ((fun _ => 1) <$> filter (fun r => severity r = Some s) risks) 0.

(** The entry made for one category whose list is not empty. *)
Definition assess_category (risks : list Risk) : CategoryAnalysis :=
  let risks := (fun risk => set_severity risk (_assess_risk_severity risk)) <$> risks in
  let severity_counts : gmap string Z :=
    <["low" := count_severity "Low" risks]>
      (<["medium" := count_severity "Medium" risks]>
         (<["high" := count_severity "High" risks]> ∅)) in
  mkCategoryAnalysis risks (Z.of_nat (length risks)) severity_counts.

(** The keys of [classified_risks] are distinct, so that every assignment
    [severity_analysis[category] = ...] adds an entry at the end. *)
Fixpoint assess_severity (classified_risks : list (string * list Risk))
    : list (string * CategoryAnalysis) :=
  match classified_risks with
  | [] => []
  | (category, risks) :: rest =>
      match risks with
      | [] => assess_severity rest
      | _ => (category, assess_category risks) :: assess_severity rest
      end
  end.

(** *** [generate_risk_summary] *)





Section Summary.
(** [self.llm.generate(prompt, system_prompt, temperature, max_tokens)] *)
Variable generate : string → string → Q → Z → string.

End Summary.

End RiskAnalyzer.

(** ** scorer.py *)

Module Scorer.
Import Text.

(** [self.weights], in declaration order. *)
Definition weights : list (string * Q) :=
  [ ("business_score", 0.25%Q);
    ("financial_score", 0.30%Q);
    ("industry_score", 0.20%Q);
    ("risk_score", 0.15%Q);
    ("valuation_score", 0.10%Q) ].

Definition thresholds : gmap string Q :=
  list_to_map [("conservative", 75%Q); ("neutral", 60%Q); ("aggressive", 50%Q)].

(** [thresholds[key]]; every key the code reads is present. *)
Definition threshold (key : string) : Q := default 0%Q (thresholds !! key).

(** Comparisons of numbers. *)
Definition ge (x y : Q) : bool := Qle_bool y x.
Definition gt (x y : Q) : bool := negb (Qle_bool x y).
Definition lt (x y : Q) : bool := negb (Qle_bool y x).

(** [round(x, 1)]: to the nearest tenth, a tie going to the even digit. *)
Definition round1 (x : Q) : Q :=
  let t := (x * 10)%Q in
  let f := Qfloor t in
  let r := (t - inject_Z f)%Q in
  let n := if lt r (1 # 2) then f
           else if gt r (1 # 2) then f + 1
           else if Z.even f then f else f + 1 in
  (inject_Z n / 10)%Q.

(** A metric given per year, in the insertion order of the dictionary. *)
Abbreviation series := (list (Z * Q)).

(** The financial metrics read by the engine: a missing top-level key is
    [None], a missing metric is absent from its map, and the scalar growth
    metric may itself be [None]. *)
Record FinancialData := mkFinancialData {
  basic_metrics : option (gmap string series);
  growth_metrics : option (gmap string (option Q));
  ratios : option (gmap string series)
}.

(** [if x:] on a number or [None]. *)
Definition truthy (x : option Q) : bool :=
  match x with Some q => negb (Qeq_bool q 0) | None => false end.

(** [list(d.values())[-1] if d else 0] *)
Definition latest (d : series) : Q := default 0%Q (snd <$> last d).

Definition _score_financials (financial_data : FinancialData) : Q :=
  let score := 50%Q in
  let metrics := default ∅ (basic_metrics financial_data) in
  let growth := default ∅ (growth_metrics financial_data) in
  let ratios := default ∅ (ratios financial_data) in
  let revenue_cagr := mjoin (growth !! "revenue_cagr_3y") in
  let score :=
    if truthy revenue_cagr then
      let revenue_cagr := default 0%Q revenue_cagr in
      if gt revenue_cagr 20 then (score + 15)%Q
      else if gt revenue_cagr 10 then (score + 10)%Q
      else if gt revenue_cagr 5 then (score + 5)%Q
      else score
    else score in
  let ebitda_margin := default [] (metrics !! "ebitda_margin") in
  let score :=
    match ebitda_margin with
    | [] => score
    | _ =>
        let latest_margin := latest ebitda_margin in
        if gt latest_margin 20 then (score + 15)%Q
        else if gt latest_margin 10 then (score + 10)%Q
        else if gt latest_margin 5 then (score + 5)%Q
        else score
    end in
  let de_ratio := default [] (ratios !! "debt_to_equity") in
  let score :=
    match de_ratio with
    | [] => score
    | _ =>
        let latest_de := latest de_ratio in
        if lt latest_de 0.5 then (score + 10)%Q
        else if lt latest_de 1.0 then (score + 5)%Q
        else if gt latest_de 2.0 then (score - 10)%Q
        else score
    end in
  Qmin (Qmax score 0) 100.

Definition _score_business : Q := 70%Q.
Definition _score_industry : Q := 65%Q.
Definition _score_valuation : Q := 60%Q.

(** A value of the risk-analysis dictionary. *)
Inductive value := VNum (q : Q) | VStr (s : string) | VOther.

(** [None] stands for the [TypeError] of [100 - risk_score] on a value that
    is no number. *)
Definition _score_risk (risk_analysis : gmap string value) : option Q :=
  if bool_decide (risk_analysis = ∅) then Some 50%Q
  else
    match default (VNum 50) (risk_analysis !! "risk_score") with
    | VNum risk_score => Some (100 - risk_score)%Q
    | _ => None
    end.

(** The stage results read by [calculate_scores]; [None] is a missing key. *)
Record Analysis := mkAnalysis {
  financials : option FinancialData;
  risks : option (gmap string value)
}.

Definition calculate_scores (analysis : Analysis) : option (gmap string Q) :=
  let financial :=
    _score_financials (default (mkFinancialData None None None) (financials analysis)) in
  risk ← _score_risk (default ∅ (risks analysis));
  Some (<["valuation_score" := _score_valuation]>
        (<["risk_score" := risk]>
         (<["industry_score" := _score_industry]>
          (<["financial_score" := financial]>
           (<["business_score" := _score_business]> ∅))))).

Definition calculate_overall_score (scores : gmap string Q) : Q :=
  let overall :=
    fold_left Qplus
      ((fun cw : string * Q => (default 50%Q (scores !! cw.1) * cw.2)%Q) <$> weights) 0%Q in
  round1 overall.

Definition determine_stance (overall_score : Q) : string :=
  if ge overall_score (threshold "conservative") then "Conservative - Positive"
  else if ge overall_score (threshold "neutral") then "Neutral"
  else if ge overall_score (threshold "aggressive") then "Aggressive - Speculative"
  else "Avoid".

(** *** [determine_suitability], [extract_key_strengths], [extract_key_concerns] *)

(** [None] is the [KeyError] of [scores['risk_score']]; the argument [stance]
    is not read. *)
Definition determine_suitability (scores : gmap string Q) (stance : string) : option string :=
  let overall := calculate_overall_score scores in
  risk_score ← scores !! "risk_score";
  Some (if ge overall 75 && ge risk_score 70
        then "Conservative investors seeking quality with lower risk"
        else if ge overall 60
        then "Moderate investors comfortable with balanced risk-reward"
        else if ge overall 50
        then "Aggressive investors with high risk tolerance"
        else "Not suitable for most retail investors").

(** [strengths.append(x)] under a condition. *)
Definition append_if (b : bool) (x : string) (l : list string) : list string :=
  if b then l ++ [x] else l.

(** [None] is the [KeyError] of a score that is missing; [analysis] is not
    read. *)
Definition extract_key_strengths (analysis : Analysis) (scores : gmap string Q)
    : option (list string) :=
  let strengths : list string := [] in
  financial ← scores !! "financial_score";
  let strengths :=
    append_if (ge financial 75) "Strong financial performance and growth" strengths in
  business ← scores !! "business_score";
  let strengths :=
    append_if (ge business 75) "Robust business model and market position" strengths in
  risk ← scores !! "risk_score";
  let strengths := append_if (ge risk 75) "Manageable risk profile" strengths in
  let strengths :=
    match strengths with
    | [] => ["Moderate fundamentals across parameters"]
    | _ => strengths
    end in
  Some (take 4 strengths).

Section Concerns.
(** What a value of the risk analysis that is neither a number nor a string
    does under [if x] and under [len(x)] ([None]: a [TypeError]). *)
Variable other_truthy : bool.
Variable other_len : option Z.

(** [risk_summary and len(risk_summary) > 50]; [None] is a [TypeError]. *)
Definition long_summary (risk_summary : value) : option bool :=
  match risk_summary with
  | VStr s =>
      Some (negb (bool_decide (s = "")) && (50 <? Z.of_nat (String.length s)))
  | VNum q => if Qeq_bool q 0 then Some false else None
  | VOther =>
      if other_truthy then (fun n => 50 <? n) <$> other_len else Some false
  end.

Definition extract_key_concerns (analysis : Analysis) (scores : gmap string Q)
    : option (list string) :=
  let concerns : list string := [] in
  financial ← scores !! "financial_score";
  let concerns :=
    append_if (lt financial 50) "Weak financial performance or declining trends" concerns in
  risk ← scores !! "risk_score";
  let concerns := append_if (lt risk 50) "Elevated risk factors" concerns in
  valuation ← scores !! "valuation_score";
  let concerns :=
    append_if (lt valuation 40) "Potentially expensive valuation" concerns in
  long ← match risks analysis with
         | Some risk_analysis => long_summary (default (VStr "") (risk_analysis !! "summary"))
         | None => Some false
         end;
  let concerns := append_if long "Multiple material risks identified" concerns in
  let concerns :=
    match concerns with
    | [] => ["Standard IPO investment risks apply"]
    | _ => concerns
    end in
  Some (take 4 concerns).
End Concerns.

End Scorer.

(** ** business_analyzer.py *)

Module BusinessAnalyzer.

(** A retrieved chunk: [chunk.get('global_chunk_id')] is [None] for a chunk
    that has no identifier. *)
Record Chunk := mkChunk {
  global_chunk_id : option Z;
  text : string
}.

(** The loop of [_deduplicate_chunks] on the pair [(seen_ids, unique)]. *)
Definition dedup_step (acc : gset (option Z) * list Chunk) (chunk : Chunk)
    : gset (option Z) * list Chunk :=
  let chunk_id := global_chunk_id chunk in
  if bool_decide (chunk_id ∉ acc.1)
  then ({[chunk_id]} ∪ acc.1, acc.2 ++ [chunk])
  else acc.

Definition _deduplicate_chunks (chunks : list Chunk) : list Chunk :=
  (fold_left dedup_step chunks (∅, [])).2.

End BusinessAnalyzer.

(** ** The notions the specification speaks in *)

Module Spec.
Import Text.

(** How many of the given phrases occur in a text. *)
Definition present (phrases : list string) (text : string) : nat :=
  length (filter (fun p => str_in p text = true) phrases).

(** A bonus in three tiers: above 20, above 10, above 5. *)
Definition tier_bonus (x : Q) : Q :=
  if Scorer.gt x 20 then 15%Q
  else if Scorer.gt x 10 then 10%Q
  else if Scorer.gt x 5 then 5%Q
  else 0%Q.

(** The leverage tiers: below 0.5, below 1.0, above 2.0. *)
Definition leverage_bonus (x : Q) : Q :=
  if Scorer.lt x 0.5 then 10%Q
  else if Scorer.lt x 1.0 then 5%Q
  else if Scorer.gt x 2.0 then (-10)%Q
  else 0%Q.

Definition clamp (lo hi x : Q) : Q := Qmin (Qmax x lo) hi.

(** The three inputs of the financial score, [None] when missing: the 3-year
    revenue CAGR, and the last value of the EBITDA-margin and of the
    debt-to-equity series. *)
Definition cagr_input (fd : Scorer.FinancialData) : option Q :=
  g ← Scorer.growth_metrics fd; mjoin (g !! "revenue_cagr_3y").
Definition margin_input (fd : Scorer.FinancialData) : option Q :=
  m ← Scorer.basic_metrics fd; d ← m !! "ebitda_margin"; snd <$> last d.
Definition leverage_input (fd : Scorer.FinancialData) : option Q :=
  r ← Scorer.ratios fd; d ← r !! "debt_to_equity"; snd <$> last d.

(** The claim's reading of "latest": the value a series holds for its
    greatest year, wherever that entry stands in the mapping. *)
Definition later_entry (best : option (Z * Q)) (entry : Z * Q) : option (Z * Q) :=
  match best with
  | Some b => if bool_decide (b.1 < entry.1) then Some entry else Some b
  | None => Some entry
  end.
Definition latest_year (d : Scorer.series) : option Q :=
  snd <$> fold_left later_entry d None.
Definition margin_latest_year (fd : Scorer.FinancialData) : option Q :=
  m ← Scorer.basic_metrics fd; d ← m !! "ebitda_margin"; latest_year d.
Definition leverage_latest_year (fd : Scorer.FinancialData) : option Q :=
  r ← Scorer.ratios fd; d ← r !! "debt_to_equity"; latest_year d.

(** The financial score as the claim states it: base 50, the three bonuses
    on the CAGR and on the values of the latest year, clamped to [0, 100]. *)
Definition financial_score_by_year (fd : Scorer.FinancialData) : Q :=
  clamp 0 100
    (50 + from_option tier_bonus 0 (cagr_input fd)
        + from_option tier_bonus 0 (margin_latest_year fd)
        + from_option leverage_bonus 0 (leverage_latest_year fd))%Q.

(** A series whose entries stand in the order of their years. *)
Definition in_year_order (d : Scorer.series) : Prop :=
  StronglySorted (fun a b : Z * Q => a.1 < b.1) d.

(** The weighted components, and a score mapping completed with a default
    for the components it lacks. *)
Definition components : list string := fst <$> Scorer.weights.

Definition fill_defaults (cs : list string) (d : Q) (scores : gmap string Q)
    : gmap string Q :=
  foldr (fun c m => match m !! c with Some _ => m | None => <[c := d]> m end) scores cs.

(** All the risk records of a severity analysis, whatever their category. *)
Definition all_risks (sa : list (string * RiskAnalyzer.CategoryAnalysis))
    : list RiskAnalyzer.Risk :=
  concat ((fun entry => RiskAnalyzer.risks entry.2) <$> sa).

(** The weight of a record: 3 for High, 2 for Medium, 1 for Low. *)
Definition severity_weight (r : RiskAnalyzer.Risk) : Z :=
  match RiskAnalyzer.severity r with
  | Some "High" => 3
  | Some "Medium" => 2
  | _ => 1
  end.

Definition total_weight (l : list RiskAnalyzer.Risk) : Z :=
  foldr Z.add 0 (severity_weight <$> l).

(** The mean weight of a collection that is not empty. *)
Definition average_weight (l : list RiskAnalyzer.Risk) : Q :=
  (inject_Z (total_weight l) / inject_Z (Z.of_nat (length l)))%Q.

Definition aggregate_score (l : list RiskAnalyzer.Risk) : Q :=
  match l with
  | [] => 0%Q
  | _ => Qmin ((average_weight l / 3) * 100)%Q 100%Q
  end.

(** The cells a table is classified by: the column headers and the values of
    the label column, as text. *)
Definition table_cells {A} (df : TableExtractor.DataFrame A) : list string :=
  TableExtractor.columns df ++ (TableExtractor.str_label <$> TableExtractor.first_col df).

(** The one lowercase text built from them. *)
Definition table_text {A} (df : TableExtractor.DataFrame A) : string :=
  lower (join " " (TableExtractor.columns df) +:+ " "
         +:+ join " " (TableExtractor.str_label <$> TableExtractor.first_col df)).

Definition profit_loss_keywords : list string :=
  ["revenue"; "income statement"; "profit"; "expenditure"].
Definition balance_sheet_keywords : list string :=
  ["balance sheet"; "assets"; "liabilities"; "equity"].
Definition cash_flow_keywords : list string :=
  ["cash flow"; "operating activities"; "investing activities"].

(** Some keyword of a set is present in a text. *)
Definition any_present (keywords : list string) (text : string) : Prop :=
  ∃ kw, kw ∈ keywords ∧ str_in kw text = true.

(** A table contains a word: one of its cells does, whatever the case. *)
Definition mentions {A} (df : TableExtractor.DataFrame A) (word : string) : Prop :=
  ∃ cell, cell ∈ table_cells df ∧ str_in word (lower cell) = true.

(** A category whose keyword count in a text is below, or at most, a bound. *)
Definition score_lt (text : string) (s : Z) (ck : string * list string) : Prop :=
  RiskAnalyzer.count_in ck.2 text < s.
Definition score_le (text : string) (s : Z) (ck : string * list string) : Prop :=
  RiskAnalyzer.count_in ck.2 text ≤ s.

(** A line of the response qualifies as an item: it is not empty and starts
    with a digit or with the bullet "-". *)
Definition qualifies (line : string) : Prop :=
  ∃ c rest, chars line = c :: rest ∧ (is_digit c = true ∨ c = "-"%char).

(** The characters trimmed from a title. *)
Definition numbering : string := "0123456789.-) ".

(** The title as the specification words it: only the leading digits,
    punctuation and bullet markers are trimmed. *)
Definition title_leading_trimmed (s : string) : string := lstrip_set numbering s.

(** A character satisfying [p] neither starts nor ends the text. *)
Definition ends_clear (p : ascii → bool) (l : list ascii) : Prop :=
  (∀ c, head l = Some c → p c = false) ∧ (∀ c, last l = Some c → p c = false).

(** A 4-digit token beginning with "20", and the integer it denotes. *)
Definition year4_token (tok : list ascii) (y : Z) : Prop :=
  ∃ d1 d2, is_digit d1 = true ∧ is_digit d2 = true
           ∧ tok = ["2"; "0"; d1; d2]%char ∧ y = int_of_digits tok.

(** The marker "FY", white space if any, and a 2-digit token: 2000 plus its
    value. *)
Definition fy_token (tok : list ascii) (y : Z) : Prop :=
  ∃ ws d1 d2, Forall (fun c => is_space c = true) ws
              ∧ is_digit d1 = true ∧ is_digit d2 = true
              ∧ tok = ("F" :: "Y" :: ws ++ [d1; d2])%char
              ∧ y = 2000 + int_of_digits [d1; d2].

(** A year token occurs in a label after the prefix [pre]: it is one of the
    two forms and is delimited by word boundaries on both sides. *)
Definition year_match (label : string) (pre : list ascii) (y : Z) : Prop :=
  ∃ tok post,
    chars label = pre ++ tok ++ post
    ∧ TableExtractor.word_boundary (last pre) (head tok) = true
    ∧ TableExtractor.word_boundary (last tok) (head post) = true
    ∧ (year4_token tok y ∨ fy_token tok y).

(** The shape of a year token, the year left aside. *)
Definition is_year4 (tok : list ascii) : Prop := ∃ y, year4_token tok y.
Definition is_fy (tok : list ascii) : Prop := ∃ y, fy_token tok y.

(** The character before a position: the last one of the prefix read so far,
    or the one before the text searched. *)
Definition char_before (prev : option ascii) (pre : list ascii) : option ascii :=
  match last pre with Some c => Some c | None => prev end.

(** The aliases of a metric: its label substrings, or the name itself for a
    metric that has none. *)
Definition aliases (metric_name : string) : list string :=
  default [metric_name] (TableExtractor.metric_patterns !! metric_name).

(** A row matches when its lowercased label contains any of the aliases. *)
Definition row_matches (patterns : list string)
    (r : TableExtractor.label * list (option Q)) : bool :=
  existsb (fun pattern => str_in pattern (lower (TableExtractor.str_label r.1))) patterns.

(** What [_process_financial_table] leaves: every row has a number under some
    header, and either every value header is a year column or none is. *)
Definition processed (df : TableExtractor.DataFrame (option Q)) : Prop :=
  (∀ r, r ∈ TableExtractor.rows df →
        ∃ h v, (h, Some v) ∈ zip (TableExtractor.headers df) r.2)
  ∧ ((∀ h, h ∈ TableExtractor.headers df → is_Some (TableExtractor._extract_year h))
     ∨ (∀ h, h ∈ TableExtractor.headers df → TableExtractor._extract_year h = None)).

(** The column [i] of a row gives the year [y] the number [v], and no column
    to its right gives that year a number. *)
Definition last_cell_of_year (hs : list string) (cells : list (option Q))
    (y : Z) (v : Q) : Prop :=
  ∃ i h, zip hs cells !! i = Some (h, Some v)
         ∧ TableExtractor._extract_year h = Some y
         ∧ ∀ j h' v', (i < j)%nat → zip hs cells !! j = Some (h', Some v') →
                      TableExtractor._extract_year h' ≠ Some y.

(** The risk analysis gives the scorer a usable risk score: none at all, or
    a number between 0 and 100. *)
Definition risk_score_usable (risk_analysis : gmap string Scorer.value) : Prop :=
  match risk_analysis !! "risk_score" with
  | Some (Scorer.VNum r) => (0 <= r)%Q ∧ (r <= 100)%Q
  | Some _ => False
  | None => True
  end.

(** Every score of a mapping lies between 0 and 100. *)
Definition scores_in_range (scores : gmap string Q) : Prop :=
  ∀ c v, scores !! c = Some v → (0 <= v)%Q ∧ (v <= 100)%Q.

(** The keys of the classification: the eight categories and "other". *)
Definition category_keys : list string :=
  (fst <$> RiskAnalyzer.risk_categories) ++ ["other"].

(** A risk once classified, and once assessed. *)
Definition classified (r : RiskAnalyzer.Risk) : RiskAnalyzer.Risk :=
  RiskAnalyzer.set_category r (RiskAnalyzer._classify_single_risk r).
Definition assessed (r : RiskAnalyzer.Risk) : RiskAnalyzer.Risk :=
  RiskAnalyzer.set_severity r (RiskAnalyzer._assess_risk_severity r).

(** The risks of a list that fall into a category, classified, in order. *)
Definition classified_as (c : string) (risks : list RiskAnalyzer.Risk)
    : list RiskAnalyzer.Risk :=
  classified <$> filter (fun r => RiskAnalyzer._classify_single_risk r = c) risks.

(** The chunks kept by the deduplication when the identifiers in [seen] have
    been met already: the first chunk of every new identifier. *)
Fixpoint first_chunks (seen : gset (option Z)) (chunks : list BusinessAnalyzer.Chunk)
    : list BusinessAnalyzer.Chunk :=
  match chunks with
  | [] => []
  | chunk :: chunks' =>
      if decide (BusinessAnalyzer.global_chunk_id chunk ∈ seen)
      then first_chunks seen chunks'
      else chunk :: first_chunks ({[BusinessAnalyzer.global_chunk_id chunk]} ∪ seen) chunks'
  end.

(** The frame of a table, when the table is of type "financial" and its
    frame is identified as the statement type [t]. *)
Definition frame_of_type {A} (t : string) (table : TableExtractor.Table A)
    : option (TableExtractor.DataFrame A) :=
  match TableExtractor.type table, TableExtractor.data table with
  | Some table_type, Some df =>
      if bool_decide (table_type = "financial"
                      ∧ TableExtractor._identify_statement_type df = Some t)
      then Some df else None
  | _, _ => None
  end.

(** The frame of the first financial table of a statement type. *)
Definition first_of_type {A} (t : string) (tables : list (TableExtractor.Table A))
    : option (TableExtractor.DataFrame A) :=
  head (omap (frame_of_type t) tables).

(** A table that lacks a key the loop reads: [type], or [data] when the
    type is "financial". *)
Definition lacks_key {A} (table : TableExtractor.Table A) : Prop :=
  TableExtractor.type table = None
  ∨ (TableExtractor.type table = Some "financial" ∧ TableExtractor.data table = None).

(** The frames on which the frame model stands for the pandas frame: the
    column names are distinct (pandas selects and assigns columns by name)
    and the label column holds some text (its [.str] accessor needs a column
    of text). *)
Definition well_formed {A} (df : TableExtractor.DataFrame A) : Prop :=
  NoDup (TableExtractor.columns df)
  ∧ ∃ s, TableExtractor.LStr s ∈ TableExtractor.first_col df.

Definition frames_well_formed {A} (tables : list (TableExtractor.Table A)) : Prop :=
  ∀ table df, table ∈ tables → TableExtractor.data table = Some df → well_formed df.

Definition statement_types : list string := ["profit_loss"; "balance_sheet"; "cash_flow"].

End Spec.

(** * Properties *)

(** ** Sanity checks of the embedding on concrete inputs *)

Example lower_ex : Text.lower "Total Revenue (FY 22)" = "total revenue (fy 22)".
Proof. reflexivity. Qed.

Example str_in_ex : Text.str_in "cash flow" "net cash flow from" = true
                  ∧ Text.str_in "" "x" = true ∧ Text.str_in "pat" "nan" = false.
Proof. repeat split. Qed.

Example split_ex : Text.split "010" "a
b

c" = ["a"; "b"; ""; "c"].
Proof. reflexivity. Qed.

Example split1_ex : Text.split1 ":" "a: b: c" = ["a"; " b: c"] ∧ Text.split1 ":" "abc" = ["abc"].
Proof. split; reflexivity. Qed.

Example strip_ex : Text.strip "  1. x  " = "1. x"
                 ∧ Text.strip_set "0123456789.-) " "1. Growth in 2023" = "Growth in".
Proof. split; reflexivity. Qed.

Example extract_year_ex :
TableExtractor._extract_year "FY 22" = Some 2022
∧ TableExtractor._extract_year "2023" = Some 2023
∧ TableExtractor._extract_year "Q1" = None
∧ TableExtractor._extract_year "FY 2021" = Some 2021
∧ TableExtractor._extract_year "FY2021" = None
∧ TableExtractor._extract_year "FY 21 (2022)" = Some 2021.
Proof. repeat split; vm_compute; reflexivity. Qed.

Example parse_ex :
RiskAnalyzer._parse_risk_response "1. Customer Concentration: Heavy dependence on top customers"
= [RiskAnalyzer.mkRisk "Customer Concentration" "Heavy dependence on top customers" None None].
Proof. vm_compute. reflexivity. Qed.

Example score_ex : Scorer.calculate_overall_score ∅ = (500 # 10)%Q.
Proof. vm_compute. reflexivity. Qed.

(** ** Stance of an overall score ([determine_stance]) *)

Section Stance.
Import Scorer.

Lemma ge_spec (x y : Q) : ge x y = true ↔ (y <= x)%Q.
Proof. apply Qle_bool_iff. Qed.

Lemma ge_false (x y : Q) : ge x y = false ↔ (x < y)%Q.
Proof.
  unfold ge. rewrite <- not_true_iff_false, Qle_bool_iff.
  split; [apply Qnot_le_lt | apply Qlt_not_le].
Qed.

Lemma gt_spec (x y : Q) : gt x y = true ↔ (y < x)%Q.
Proof.
  unfold gt. rewrite negb_true_iff. apply (ge_false y x).
Qed.

Lemma lt_spec (x y : Q) : lt x y = true ↔ (x < y)%Q.
Proof.
  unfold lt. rewrite negb_true_iff. apply (ge_false x y).
Qed.

Lemma determine_stance_cases (s : Q) :
  determine_stance s =
    if ge s 75 then "Conservative - Positive"
    else if ge s 60 then "Neutral"
    else if ge s 50 then "Aggressive - Speculative"
    else "Avoid".
Proof. reflexivity. Qed.

End Stance.

(** C4, as stated, fails on the labels: the score 80 is at least 75 and the
    score 55 lies in [50, 60), yet the stances returned are not the strings
    "Conservative-Positive" and "Aggressive-Speculative": the code spells
    both with blanks around the hyphen. *)
Lemma determine_stance_labels_differ :
  (75 <= 80)%Q ∧ Scorer.determine_stance 80 ≠ "Conservative-Positive"
  ∧ (50 <= 55)%Q ∧ (55 < 60)%Q
  ∧ Scorer.determine_stance 55 ≠ "Aggressive-Speculative".
Proof.
  split; [discriminate|]. split; [vm_compute; discriminate|].
  split; [discriminate|]. split; [reflexivity|]. vm_compute; discriminate.
Qed.

(** C4, amended: for every overall score, [determine_stance] returns
    "Conservative - Positive" iff the score is at least 75, "Neutral" iff it
    is at least 60 and below 75, "Aggressive - Speculative" iff it is at least
    50 and below 60, and "Avoid" iff it is below 50; the boundaries 75, 60 and
    50 belong to the higher tier, and 80, 65, 55, 45 give the four stances. *)
Theorem determine_stance_tiers (s : Q) :
  (Scorer.determine_stance s = "Conservative - Positive" ↔ (75 <= s)%Q)
  ∧ (Scorer.determine_stance s = "Neutral" ↔ (60 <= s)%Q ∧ (s < 75)%Q)
  ∧ (Scorer.determine_stance s = "Aggressive - Speculative" ↔ (50 <= s)%Q ∧ (s < 60)%Q)
  ∧ (Scorer.determine_stance s = "Avoid" ↔ (s < 50)%Q)
  ∧ Scorer.determine_stance 75 = "Conservative - Positive"
  ∧ Scorer.determine_stance 60 = "Neutral"
  ∧ Scorer.determine_stance 50 = "Aggressive - Speculative"
  ∧ Scorer.determine_stance 80 = "Conservative - Positive"
  ∧ Scorer.determine_stance 65 = "Neutral"
  ∧ Scorer.determine_stance 55 = "Aggressive - Speculative"
  ∧ Scorer.determine_stance 45 = "Avoid".
Proof.
  rewrite determine_stance_cases.
  destruct (Scorer.ge s 75) eqn:H75;
    [apply ge_spec in H75 | apply ge_false in H75];
  (destruct (Scorer.ge s 60) eqn:H60;
    [apply ge_spec in H60 | apply ge_false in H60]);
  (destruct (Scorer.ge s 50) eqn:H50;
    [apply ge_spec in H50 | apply ge_false in H50]);
  repeat split; try reflexivity; try discriminate; try assumption;
    intros; try lra; try (exfalso; lra).
Qed.

(** ** Severity of a risk ([_assess_risk_severity]) *)

Lemma sum_ones {A} (l : list A) (a : Z) :
  fold_left Z.add ((fun _ => 1) <$> l) a = a + Z.of_nat (length l).
Proof.
  revert a. induction l as [|x l IH]; intros a; simpl.
  - lia.
  - rewrite IH. lia.
Qed.

Lemma count_in_present (keywords : list string) (text : string) :
  RiskAnalyzer.count_in keywords text = Z.of_nat (Spec.present keywords text).
Proof. unfold RiskAnalyzer.count_in, Spec.present. rewrite sum_ones. lia. Qed.

(** C3: for every risk record the severity is decided on the lowercased
    title and description joined by a blank: "High" iff at least two of the
    high-severity phrases occur in it; otherwise "Medium" iff at least one
    high-severity phrase or at least two medium-severity phrases occur;
    otherwise "Low". *)
Theorem assess_risk_severity_rule (risk : RiskAnalyzer.Risk) :
  let text := Text.lower (RiskAnalyzer.title risk +:+ " " +:+ RiskAnalyzer.description risk) in
  let high := Spec.present RiskAnalyzer.high_indicators text in
  let medium := Spec.present RiskAnalyzer.medium_indicators text in
  (RiskAnalyzer._assess_risk_severity risk = "High" ↔ (2 ≤ high)%nat)
  ∧ (RiskAnalyzer._assess_risk_severity risk = "Medium"
     ↔ ¬ (2 ≤ high)%nat ∧ ((1 ≤ high)%nat ∨ (2 ≤ medium)%nat))
  ∧ (RiskAnalyzer._assess_risk_severity risk = "Low"
     ↔ ¬ (2 ≤ high)%nat ∧ ¬ ((1 ≤ high)%nat ∨ (2 ≤ medium)%nat)).
Proof.
  intros text high medium.
  unfold RiskAnalyzer._assess_risk_severity.
  change (RiskAnalyzer.risk_text risk) with text.
  rewrite !count_in_present.
  fold high medium.
  destruct (Z.leb_spec 2 (Z.of_nat high));
    destruct (Z.leb_spec 1 (Z.of_nat high));
    destruct (Z.leb_spec 2 (Z.of_nat medium)); simpl;
    repeat split; intros; try discriminate; try lia.
Qed.

Example assess_risk_severity_ex :
  RiskAnalyzer._assess_risk_severity
    (RiskAnalyzer.mkRisk "Litigation" "A Material failure of supply" None None) = "High"
  ∧ RiskAnalyzer._assess_risk_severity
      (RiskAnalyzer.mkRisk "Demand" "Potential slowdown, possible delays" None None) = "Medium"
  ∧ RiskAnalyzer._assess_risk_severity
      (RiskAnalyzer.mkRisk "Weather" "Monsoon" None None) = "Low".
Proof. repeat split; vm_compute; reflexivity. Qed.

(** ** The financial score ([_score_financials]) *)

Lemma last_nonempty {A} (x : A) (l : list A) : is_Some (last (x :: l)).
Proof.
  revert x. induction l as [|y l IH]; intros x; [by eexists|].
  change (last (x :: y :: l)) with (last (y :: l)). apply IH.
Qed.

(** What [_score_financials] computes: the base 50 plus the tier bonus of the
    3-year revenue CAGR (above 20: 15, above 10: 10, above 5: 5), the tier
    bonus of the last entry of the EBITDA-margin mapping (same tiers) and the
    bonus of the last entry of the debt-to-equity mapping (below 0.5: 10,
    below 1.0: 5, above 2.0: -10), clamped to [0, 100]; an input that is
    missing contributes zero, and with all three missing the score is the
    base. *)
Lemma score_financials_formula (fd : Scorer.FinancialData) :
  Scorer._score_financials fd
  = Spec.clamp 0 100
      (50 + from_option Spec.tier_bonus 0 (Spec.cagr_input fd)
          + from_option Spec.tier_bonus 0 (Spec.margin_input fd)
          + from_option Spec.leverage_bonus 0 (Spec.leverage_input fd))%Q
  ∧ (Spec.cagr_input fd = None → Spec.margin_input fd = None →
     Spec.leverage_input fd = None → Scorer._score_financials fd = 50%Q).
Proof.
  assert (Hmain : Scorer._score_financials fd
    = Spec.clamp 0 100
        (50 + from_option Spec.tier_bonus 0 (Spec.cagr_input fd)
            + from_option Spec.tier_bonus 0 (Spec.margin_input fd)
            + from_option Spec.leverage_bonus 0 (Spec.leverage_input fd))%Q).
  { destruct fd as [bm gm rt].
    unfold Scorer._score_financials, Spec.cagr_input, Spec.margin_input,
      Spec.leverage_input, Spec.clamp; cbn [Scorer.basic_metrics
      Scorer.growth_metrics Scorer.ratios].
    set (c := mjoin (default ∅ gm !! "revenue_cagr_3y")).
    assert (Hci : (g ← gm; mjoin (g !! "revenue_cagr_3y")) = c).
    { subst c. destruct gm as [g|]; simpl; [reflexivity|].
      by rewrite lookup_empty. }
    rewrite Hci. clear Hci.
    set (md := default [] (default ∅ bm !! "ebitda_margin")).
    assert (Hmi : (m ← bm; d ← m !! "ebitda_margin"; snd <$> last d)
                  = snd <$> last md).
    { subst md. destruct bm as [m|]; simpl; [|by rewrite lookup_empty].
      destruct (m !! "ebitda_margin"); reflexivity. }
    rewrite Hmi. clear Hmi.
    set (dd := default [] (default ∅ rt !! "debt_to_equity")).
    assert (Hdi : (r ← rt; d ← r !! "debt_to_equity"; snd <$> last d)
                  = snd <$> last dd).
    { subst dd. destruct rt as [r|]; simpl; [|by rewrite lookup_empty].
      destruct (r !! "debt_to_equity"); reflexivity. }
    rewrite Hdi. clear Hdi.
    generalize c md dd. clear. intros c md dd.
    unfold Scorer.latest, Spec.tier_bonus, Spec.leverage_bonus.
    destruct md as [|m0 md]; destruct dd as [|d0 dd].
    all: try (destruct (last_nonempty m0 md) as [[ym m] ->]).
    all: try (destruct (last_nonempty d0 dd) as [[yd d] ->]).
    all: destruct c as [q|].
    all: cbn [fmap option_fmap option_map default from_option snd last
              Scorer.truthy]; cbv beta zeta delta [id].
    all: try (destruct (Qeq_bool q 0) eqn:Hq; cbn [negb];
              [apply Qeq_bool_iff in Hq;
               assert (Scorer.gt q 20 = false) as ->
                 by (apply not_true_iff_false; rewrite gt_spec; lra);
               assert (Scorer.gt q 10 = false) as ->
                 by (apply not_true_iff_false; rewrite gt_spec; lra);
               assert (Scorer.gt q 5 = false) as ->
                 by (apply not_true_iff_false; rewrite gt_spec; lra)
              | clear Hq]).
    all: repeat match goal with
         | |- context [if Scorer.gt ?x ?y then _ else _] => destruct (Scorer.gt x y)
         | |- context [if Scorer.lt ?x ?y then _ else _] => destruct (Scorer.lt x y)
         end.
    all: vm_compute; reflexivity. }
  split; [exact Hmain|].
  intros H1 H2 H3. rewrite Hmain, H1, H2, H3. reflexivity.
Qed.

Lemma score_financials_base_witness :
  Spec.cagr_input (Scorer.mkFinancialData None (Some ∅) (Some {["current_ratio" := [(2023, 2%Q)]]})) = None
  ∧ Scorer._score_financials
      (Scorer.mkFinancialData None (Some ∅) (Some {["current_ratio" := [(2023, 2%Q)]]})) = 50%Q.
Proof.
  split; [reflexivity|].
  apply (score_financials_formula
           (Scorer.mkFinancialData None (Some ∅) (Some {["current_ratio" := [(2023, 2%Q)]]})));
    reflexivity.
Defined.

Lemma latest_year_in_order (b : Z * Q) (d : Scorer.series) :
  Spec.in_year_order (b :: d) →
  fold_left Spec.later_entry d (Some b) = last (b :: d).
Proof.
  revert b. induction d as [|e d IH]; intros b Hs; [done|].
  apply StronglySorted_inv in Hs as [Hd Hb].
  apply Forall_cons in Hb as [Hbe _].
  cbn [fold_left Spec.later_entry]. rewrite bool_decide_true by done.
  rewrite (IH e Hd). reflexivity.
Qed.

Lemma latest_year_last (d : Scorer.series) :
  Spec.in_year_order d → Spec.latest_year d = snd <$> last d.
Proof.
  unfold Spec.latest_year. destruct d as [|b d]; [done|]. intros Hs.
  cbn [fold_left Spec.later_entry]. by rewrite latest_year_in_order.
Qed.

(** Where both mappings stand in the order of their years, the last entry is
    the latest year and the score is the one the specification states. *)
Lemma score_financials_in_year_order (fd : Scorer.FinancialData) :
  (∀ m d, Scorer.basic_metrics fd = Some m → m !! "ebitda_margin" = Some d →
          Spec.in_year_order d) →
  (∀ r d, Scorer.ratios fd = Some r → r !! "debt_to_equity" = Some d →
          Spec.in_year_order d) →
  Scorer._score_financials fd = Spec.financial_score_by_year fd.
Proof.
  intros Hm Hr. rewrite (proj1 (score_financials_formula fd)).
  unfold Spec.financial_score_by_year.
  assert (Hmi : Spec.margin_input fd = Spec.margin_latest_year fd).
  { unfold Spec.margin_input, Spec.margin_latest_year.
    destruct (Scorer.basic_metrics fd) as [m|] eqn:Em; [|done]. simpl.
    destruct (m !! "ebitda_margin") as [d|] eqn:Ed; [|done]. simpl.
    symmetry. apply latest_year_last. by apply (Hm m). }
  assert (Hli : Spec.leverage_input fd = Spec.leverage_latest_year fd).
  { unfold Spec.leverage_input, Spec.leverage_latest_year.
    destruct (Scorer.ratios fd) as [r|] eqn:Er; [|done]. simpl.
    destruct (r !! "debt_to_equity") as [d|] eqn:Ed; [|done]. simpl.
    symmetry. apply latest_year_last. by apply (Hr r). }
  by rewrite Hmi, Hli.
Qed.

(** C5: [_score_financials] takes for "latest" the last entry of a mapping,
    not the entry of its latest year. On the margins 25 (2023), 12 (2022),
    3 (2021) and the debt-to-equity ratios 0.3, 1.5, 2.5, entered in this
    order, it scores the values of 2021 and returns 40, where the claim, read
    on the values of 2023, gives 75. *)
Theorem score_financials_reads_last_entry :
  Scorer._score_financials
    (Scorer.mkFinancialData
       (Some {["ebitda_margin" := [(2023, 25%Q); (2022, 12%Q); (2021, 3%Q)]]})
       None
       (Some {["debt_to_equity" := [(2023, 0.3%Q); (2022, 1.5%Q); (2021, 2.5%Q)]]}))
  = 40%Q
  ∧ Spec.financial_score_by_year
      (Scorer.mkFinancialData
         (Some {["ebitda_margin" := [(2023, 25%Q); (2022, 12%Q); (2021, 3%Q)]]})
         None
         (Some {["debt_to_equity" := [(2023, 0.3%Q); (2022, 1.5%Q); (2021, 2.5%Q)]]}))
    = 75%Q
  ∧ Scorer._score_financials
      (Scorer.mkFinancialData
         (Some {["ebitda_margin" := [(2021, 3%Q); (2022, 12%Q); (2023, 25%Q)]]})
         None
         (Some {["debt_to_equity" := [(2021, 2.5%Q); (2022, 1.5%Q); (2023, 0.3%Q)]]}))
    = 75%Q.
Proof. split_and!; vm_compute; reflexivity. Qed.

Example score_financials_ex :
  Scorer._score_financials
    (Scorer.mkFinancialData
       (Some {["ebitda_margin" := [(2021, 18%Q); (2022, 19%Q); (2023, 20%Q)]]})
       (Some {["revenue_cagr_3y" := Some 15%Q]})
       (Some {["debt_to_equity" := [(2021, 0.8%Q); (2022, 0.7%Q); (2023, 0.6%Q)]]}))
  = 75%Q
  ∧ Scorer._score_financials
      (Scorer.mkFinancialData
         (Some {["ebitda_margin" := [(2023, 20%Q)]]})
         (Some {["revenue_cagr_3y" := Some 20%Q]})
         (Some {["debt_to_equity" := [(2023, 0.5%Q)]]}))
    = 75%Q
  ∧ Scorer._score_financials
      (Scorer.mkFinancialData None None (Some {["debt_to_equity" := [(2023, 2.5%Q)]]}))
    = 40%Q.
Proof. repeat split; vm_compute; reflexivity. Qed.

(** ** Missing scoring inputs ([calculate_overall_score], [_score_risk]) *)

Lemma lookup_fill_defaults (cs : list string) (d : Q) (scores : gmap string Q) (k : string) :
  Spec.fill_defaults cs d scores !! k
  = if decide (k ∈ cs) then Some (default d (scores !! k)) else scores !! k.
Proof.
  revert k. induction cs as [|c cs IH]; intros k; simpl.
  - destruct (decide (k ∈ [])) as [H|_]; [by apply elem_of_nil in H|done].
  - destruct (decide (k = c)) as [->|Hne].
    + rewrite decide_True by (by left).
      destruct (Spec.fill_defaults cs d scores !! c) as [v|] eqn:Hc.
      * rewrite Hc. rewrite IH in Hc.
        destruct (decide (c ∈ cs)); [done|]. by rewrite Hc.
      * rewrite lookup_insert_eq. rewrite IH in Hc.
        destruct (decide (c ∈ cs)); [done|]. by rewrite Hc.
    + assert (Hk : (match Spec.fill_defaults cs d scores !! c with
                    | Some _ => Spec.fill_defaults cs d scores
                    | None => <[c:=d]> (Spec.fill_defaults cs d scores)
                    end) !! k = Spec.fill_defaults cs d scores !! k).
      { destruct (Spec.fill_defaults cs d scores !! c); [done|].
        by rewrite lookup_insert_ne. }
      rewrite Hk, IH.
      destruct (decide (k ∈ cs)) as [Hin|Hnin].
      * rewrite decide_True by (by right). done.
      * rewrite decide_False; [done|].
        intros [?|?]%elem_of_cons; done.
Qed.

Lemma fill_defaults_component (scores : gmap string Q) (c : string) :
  c ∈ Spec.components →
  Spec.fill_defaults Spec.components 50 scores !! c = Some (default 50%Q (scores !! c)).
Proof. intros Hc. rewrite lookup_fill_defaults. by rewrite decide_True. Qed.

(** C10: a missing scoring input is replaced by the neutral value 50:
    [calculate_overall_score] gives the same result as on the mapping in which
    every absent component of the five is set to 50, namely the rounded
    weighted sum with 50 in place of what is absent, and [_score_risk] is 50
    on the empty risk analysis and on one with no [risk_score] entry; so the
    empty score mapping and the analysis with no stage output still get an
    overall score (50 and 59) and a stance. *)
Theorem missing_inputs_default_to_50 :
  (∀ scores : gmap string Q,
     Scorer.calculate_overall_score scores
     = Scorer.calculate_overall_score (Spec.fill_defaults Spec.components 50 scores))
  ∧ (∀ (scores : gmap string Q) (c : string), c ∈ Spec.components →
       Spec.fill_defaults Spec.components 50 scores !! c
       = Some (default 50%Q (scores !! c)))
  ∧ (∀ scores : gmap string Q,
       Scorer.calculate_overall_score scores
       = Scorer.round1
           (0 + default 50 (scores !! "business_score") * 0.25
              + default 50 (scores !! "financial_score") * 0.30
              + default 50 (scores !! "industry_score") * 0.20
              + default 50 (scores !! "risk_score") * 0.15
              + default 50 (scores !! "valuation_score") * 0.10)%Q)
  ∧ Scorer._score_risk ∅ = Some 50%Q
  ∧ (∀ risk_analysis : gmap string Scorer.value,
       risk_analysis !! "risk_score" = None →
       Scorer._score_risk risk_analysis = Some 50%Q)
  ∧ (Scorer.calculate_overall_score ∅ == 50)%Q
  ∧ Scorer.determine_stance (Scorer.calculate_overall_score ∅) = "Aggressive - Speculative"
  ∧ (∃ scores : gmap string Q,
       Scorer.calculate_scores (Scorer.mkAnalysis None None) = Some scores
       ∧ (Scorer.calculate_overall_score scores == 59)%Q
       ∧ Scorer.determine_stance (Scorer.calculate_overall_score scores)
         = "Aggressive - Speculative").
Proof.
  split_and!.
  - intros scores. unfold Scorer.calculate_overall_score. f_equal. f_equal.
    unfold Scorer.weights. cbn [fmap list_fmap fst snd].
    rewrite !fill_defaults_component by (cbn; repeat constructor).
    reflexivity.
  - apply fill_defaults_component.
  - reflexivity.
  - reflexivity.
  - intros ra Hra. unfold Scorer._score_risk. rewrite Hra.
    destruct (bool_decide (ra = ∅)); reflexivity.
  - vm_compute. reflexivity.
  - vm_compute. reflexivity.
  - eexists. split; [reflexivity|]. split; vm_compute; reflexivity.
Qed.

Lemma missing_inputs_witness :
  Spec.fill_defaults Spec.components 50 {["risk_score" := 40%Q]} !! "financial_score"
  = Some (default 50%Q (({["risk_score" := 40%Q]} : gmap string Q) !! "financial_score"))
  ∧ Scorer._score_risk {["error" := Scorer.VStr "index build failed"]} = Some 50%Q.
Proof.
  destruct missing_inputs_default_to_50 as (_ & Hfill & _ & _ & Hrisk & _).
  split.
  - apply (Hfill {["risk_score" := 40%Q]} "financial_score"). cbn. repeat constructor.
  - apply (Hrisk {["error" := Scorer.VStr "index build failed"]}). reflexivity.
Defined.

(** ** The aggregate risk score ([get_risk_score]) *)

Lemma weight_of_severity (r : RiskAnalyzer.Risk) :
  RiskAnalyzer.weight_of (RiskAnalyzer.severity r) = Spec.severity_weight r.
Proof.
  unfold Spec.severity_weight, RiskAnalyzer.weight_of.
  destruct (RiskAnalyzer.severity r) as [s|]; [|reflexivity]. simpl.
  destruct (decide (s = "High")) as [->|HH]; [reflexivity|].
  destruct (decide (s = "Medium")) as [->|HM]; [reflexivity|].
  destruct (decide (s = "Low")) as [->|HL]; [reflexivity|].
  assert (RiskAnalyzer.weights !! s = None) as ->.
  { unfold RiskAnalyzer.weights. cbn [list_to_map foldr uncurry].
    by rewrite !lookup_insert_ne, lookup_empty. }
  simpl. repeat case_match; congruence.
Qed.

Lemma tally_inner (l : list RiskAnalyzer.Risk) (t w : Z) :
  fold_left (fun '(total_risks, weighted_sum) risk =>
               (total_risks + 1,
                weighted_sum + RiskAnalyzer.weight_of (RiskAnalyzer.severity risk)))
            l (t, w)
  = (t + Z.of_nat (length l), w + Spec.total_weight l).
Proof.
  revert t w. induction l as [|r l IH]; intros t w; cbn [fold_left].
  - f_equal; unfold Spec.total_weight; simpl; lia.
  - rewrite IH, weight_of_severity. unfold Spec.total_weight.
    cbn [fmap list_fmap foldr length]. rewrite Nat2Z.inj_succ.
    f_equal; lia.
Qed.

Lemma total_weight_app (l1 l2 : list RiskAnalyzer.Risk) :
  Spec.total_weight (l1 ++ l2) = Spec.total_weight l1 + Spec.total_weight l2.
Proof.
  unfold Spec.total_weight. rewrite fmap_app, foldr_app.
  generalize (foldr Z.add 0 (Spec.severity_weight <$> l2)). intros z.
  induction l1 as [|r l1 IH]; cbn [fmap list_fmap foldr]; lia.
Qed.

Lemma tally_all (sa : list (string * RiskAnalyzer.CategoryAnalysis)) :
  RiskAnalyzer.tally sa
  = (Z.of_nat (length (Spec.all_risks sa)), Spec.total_weight (Spec.all_risks sa)).
Proof.
  unfold RiskAnalyzer.tally.
  assert (H : ∀ t w,
    fold_left
      (fun acc (entry : string * RiskAnalyzer.CategoryAnalysis) =>
         fold_left (fun '(total_risks, weighted_sum) risk =>
                      (total_risks + 1,
                       weighted_sum + RiskAnalyzer.weight_of (RiskAnalyzer.severity risk)))
                   (RiskAnalyzer.risks entry.2) acc)
      sa (t, w)
    = (t + Z.of_nat (length (Spec.all_risks sa)),
       w + Spec.total_weight (Spec.all_risks sa))).
  { induction sa as [|e sa IH]; intros t w; cbn [fold_left].
    - f_equal; unfold Spec.total_weight; simpl; lia.
    - rewrite tally_inner, IH. unfold Spec.all_risks.
      cbn [fmap list_fmap concat].
      rewrite length_app, total_weight_app, Nat2Z.inj_add. f_equal; lia. }
  rewrite H. f_equal; lia.
Qed.

Lemma get_risk_score_aggregate (sa : list (string * RiskAnalyzer.CategoryAnalysis)) :
  RiskAnalyzer.get_risk_score sa = Spec.aggregate_score (Spec.all_risks sa).
Proof.
  unfold RiskAnalyzer.get_risk_score. rewrite tally_all.
  unfold Spec.aggregate_score, Spec.average_weight.
  destruct (Spec.all_risks sa) as [|r l]; [reflexivity|].
  destruct (Z.eqb_spec (Z.of_nat (length (r :: l))) 0) as [H|_]; [|reflexivity].
  simpl in H. lia.
Qed.

Lemma total_weight_high (l : list RiskAnalyzer.Risk) :
  Forall (fun r => RiskAnalyzer.severity r = Some "High") l →
  Spec.total_weight l = 3 * Z.of_nat (length l).
Proof.
  unfold Spec.total_weight.
  induction 1 as [|r l Hr _ IH]; cbn [fmap list_fmap foldr length]; [lia|].
  rewrite IH, Nat2Z.inj_succ. unfold Spec.severity_weight. rewrite Hr. lia.
Qed.

(** C2: for every severity analysis [get_risk_score] is
    min((averageWeight / 3) * 100, 100), the records weighing 3 for High, 2 for
    Medium and 1 for Low and the mean being taken over all the records of all
    the categories; it is 0 when there is no record, 100 when there are
    records and all are High, and 100/3 for a single Low record. *)
Theorem get_risk_score_formula :
  (∀ sa, RiskAnalyzer.get_risk_score sa
         = match Spec.all_risks sa with
           | [] => 0%Q
           | _ => Qmin ((Spec.average_weight (Spec.all_risks sa) / 3) * 100)%Q 100%Q
           end)
  ∧ (∀ t d, Spec.severity_weight (RiskAnalyzer.mkRisk t d None (Some "High")) = 3
            ∧ Spec.severity_weight (RiskAnalyzer.mkRisk t d None (Some "Medium")) = 2
            ∧ Spec.severity_weight (RiskAnalyzer.mkRisk t d None (Some "Low")) = 1)
  ∧ RiskAnalyzer.get_risk_score [] = 0%Q
  ∧ (∀ sa, Spec.all_risks sa = [] → RiskAnalyzer.get_risk_score sa = 0%Q)
  ∧ (∀ sa, Spec.all_risks sa ≠ [] →
       Forall (fun r => RiskAnalyzer.severity r = Some "High") (Spec.all_risks sa) →
       (RiskAnalyzer.get_risk_score sa == 100)%Q)
  ∧ (∀ sa r, Spec.all_risks sa = [r] → RiskAnalyzer.severity r = Some "Low" →
       (RiskAnalyzer.get_risk_score sa == 100 # 3)%Q).
Proof.
  split_and!.
  - intros sa. apply get_risk_score_aggregate.
  - intros t d. repeat split.
  - reflexivity.
  - intros sa H. by rewrite get_risk_score_aggregate, H.
  - intros sa Hne Hall. rewrite get_risk_score_aggregate.
    unfold Spec.aggregate_score, Spec.average_weight.
    rewrite (total_weight_high _ Hall).
    destruct (Spec.all_risks sa) as [|r l]; [done|].
    set (n := Z.of_nat (length (r :: l))).
    assert (Hn : ¬ (inject_Z n == 0)%Q).
    { unfold Qeq, inject_Z. simpl. subst n. simpl. lia. }
    assert (Hv : (inject_Z (3 * n) / inject_Z n / 3 * 100 == 100)%Q).
    { rewrite inject_Z_mult. field. exact Hn. }
    rewrite Hv. apply Q.min_l. apply Qle_refl.
  - intros sa r Hsa Hlow. rewrite get_risk_score_aggregate, Hsa.
    unfold Spec.aggregate_score, Spec.average_weight, Spec.total_weight,
      Spec.severity_weight. simpl. rewrite Hlow. reflexivity.
Qed.

Lemma get_risk_score_witness :
  (RiskAnalyzer.get_risk_score
     [ ("regulatory_risk",
        RiskAnalyzer.mkCategoryAnalysis
          [ RiskAnalyzer.mkRisk "Licence" "" (Some "regulatory_risk") (Some "High");
            RiskAnalyzer.mkRisk "Policy" "" (Some "regulatory_risk") (Some "High") ] 2 ∅);
       ("financial_risk",
        RiskAnalyzer.mkCategoryAnalysis
          [ RiskAnalyzer.mkRisk "Debt" "" (Some "financial_risk") (Some "High") ] 1 ∅) ]
   == 100)%Q.
Proof.
  destruct get_risk_score_formula as (_ & _ & _ & _ & Hhigh & _).
  apply Hhigh.
  - discriminate.
  - repeat constructor.
Defined.

Example get_risk_score_ex :
  RiskAnalyzer.get_risk_score
    [ ("regulatory_risk",
       RiskAnalyzer.mkCategoryAnalysis
         [ RiskAnalyzer.mkRisk "Licence" "" None (Some "High");
           RiskAnalyzer.mkRisk "Policy" "" None (Some "High") ] 2 ∅);
      ("financial_risk",
       RiskAnalyzer.mkCategoryAnalysis
         [ RiskAnalyzer.mkRisk "Debt" "" None (Some "Medium") ] 1 ∅) ]
  = (800 # 9)%Q.
Proof. vm_compute. reflexivity. Qed.

(** ** Facts about text *)

Section TextFacts.
Import Text.

Lemma chars_text (l : list ascii) : chars (text l) = l.
Proof. apply String.list_ascii_of_string_of_list_ascii. Qed.

Lemma text_chars (s : string) : text (chars s) = s.
Proof. apply String.string_of_list_ascii_of_string. Qed.

Lemma chars_inj (s1 s2 : string) : chars s1 = chars s2 → s1 = s2.
Proof. intros H. rewrite <- (text_chars s1), <- (text_chars s2). by rewrite H. Qed.

Lemma chars_app (s1 s2 : string) : chars (s1 +:+ s2) = chars s1 ++ chars s2.
Proof.
  induction s1 as [|c s1 IH]; [reflexivity|].
  change (chars (String c (s1 +:+ s2)) = c :: chars s1 ++ chars s2).
  unfold chars in *. simpl. by rewrite IH.
Qed.

Lemma is_prefix_spec (p l : list ascii) :
  is_prefix p l = true ↔ ∃ post, l = p ++ post.
Proof.
  revert l. induction p as [|a p IH]; intros l; simpl.
  - split; [eauto|done].
  - destruct l as [|b l].
    + split; [done|]. intros [post H]. discriminate.
    + rewrite andb_true_iff, IH, Ascii.eqb_eq. split.
      * intros [-> [post ->]]. eauto.
      * intros [post H]. injection H as -> ->. eauto.
Qed.

Lemma occurs_spec (p l : list ascii) :
  occurs p l = true ↔ ∃ pre post, l = pre ++ p ++ post.
Proof.
  induction l as [|b l IH].
  - simpl. rewrite orb_false_r, is_prefix_spec. split.
    + intros [post H]. by exists [], post.
    + intros (pre & post & H). destruct pre; [by exists post|discriminate].
  - cbn [occurs]. rewrite orb_true_iff, IH, is_prefix_spec. split.
    + intros [[post H]|(pre & post & H)].
      * by exists [], post.
      * exists (b :: pre), post. by rewrite H.
    + intros (pre & post & H). destruct pre as [|c pre].
      * left. by exists post.
      * right. injection H as -> H. eauto.
Qed.

Lemma str_in_spec (pat s : string) :
  str_in pat s = true ↔ ∃ pre post, s = pre +:+ pat +:+ post.
Proof.
  unfold str_in. rewrite occurs_spec. split.
  - intros (pre & post & H). exists (text pre), (text post).
    apply chars_inj. by rewrite !chars_app, !chars_text.
  - intros (pre & post & ->). exists (chars pre), (chars post).
    by rewrite !chars_app.
Qed.

Lemma str_in_app_l (pat s1 s2 : string) :
  str_in pat s1 = true → str_in pat (s1 +:+ s2) = true.
Proof.
  rewrite !str_in_spec. intros (pre & post & ->).
  exists pre, (post +:+ s2). apply chars_inj.
  rewrite !chars_app. by rewrite <- !app_assoc.
Qed.

Lemma str_in_app_r (pat s1 s2 : string) :
  str_in pat s2 = true → str_in pat (s1 +:+ s2) = true.
Proof.
  rewrite !str_in_spec. intros (pre & post & ->).
  exists (s1 +:+ pre), post. apply chars_inj.
  rewrite !chars_app. by rewrite <- !app_assoc.
Qed.

Lemma join_cons (sep x : string) (l : list string) :
  join sep (x :: l) = match l with [] => x | _ => x +:+ sep +:+ join sep l end.
Proof. destruct l; reflexivity. Qed.

Lemma str_in_join (pat sep : string) (parts : list string) (part : string) :
  part ∈ parts → str_in pat part = true → str_in pat (join sep parts) = true.
Proof.
  intros Hin Hp. induction parts as [|x l IH]; [by apply elem_of_nil in Hin|].
  rewrite join_cons. apply elem_of_cons in Hin as [->|Hin].
  - destruct l; [done|]. by apply str_in_app_l.
  - destruct l as [|y l]; [by apply elem_of_nil in Hin|].
    apply str_in_app_r, str_in_app_r. by apply IH.
Qed.

Lemma lower_app (s1 s2 : string) : lower (s1 +:+ s2) = lower s1 +:+ lower s2.
Proof.
  apply chars_inj. unfold lower.
  rewrite chars_text, (chars_app s1 s2), fmap_app.
  rewrite (chars_app (text _) (text _)), !chars_text. reflexivity.
Qed.

Lemma lower_join (sep : string) (l : list string) :
  lower (join sep l) = join (lower sep) (lower <$> l).
Proof.
  induction l as [|x l IH]; [reflexivity|].
  rewrite fmap_cons, !join_cons. destruct l as [|y l]; [reflexivity|].
  rewrite !lower_app. by rewrite IH.
Qed.

End TextFacts.

(** ** Statement types ([_identify_statement_type]) *)

Section StatementType.
Import Text TableExtractor.
Context {A : Type}.

Lemma any_in_present (keywords : list string) (text : string) :
  any_in keywords text = true ↔ Spec.any_present keywords text.
Proof.
  unfold any_in, Spec.any_present. rewrite existsb_exists.
  split; intros (kw & Hin & Hkw); exists kw; split; try done;
    by apply list_elem_of_In.
Qed.

Lemma any_in_absent (keywords : list string) (text : string) :
  any_in keywords text = false ↔ ¬ Spec.any_present keywords text.
Proof. rewrite <- any_in_present. symmetry. apply not_true_iff_false. Qed.

Lemma combined_text_table_text (df : DataFrame A) :
  join " " (lower <$> columns df) +:+ " "
    +:+ join " " ((fun val => lower (str_label val)) <$> first_col df)
  = Spec.table_text df.
Proof.
  unfold Spec.table_text. rewrite !lower_app, !lower_join.
  by rewrite <- list_fmap_compose.
Qed.

Lemma identify_statement_type_cases (df : DataFrame A) :
  _identify_statement_type df
  = if any_in Spec.profit_loss_keywords (Spec.table_text df) then Some "profit_loss"
    else if any_in Spec.balance_sheet_keywords (Spec.table_text df) then Some "balance_sheet"
    else if any_in Spec.cash_flow_keywords (Spec.table_text df) then Some "cash_flow"
    else None.
Proof.
  unfold _identify_statement_type. cbv zeta.
  by rewrite combined_text_table_text.
Qed.

Lemma mentions_table_text (df : DataFrame A) (word : string) :
  Spec.mentions df word → str_in word (Spec.table_text df) = true.
Proof.
  intros (cell & Hin & Hw). rewrite <- combined_text_table_text.
  apply elem_of_app in Hin as [Hin|Hin].
  - apply str_in_app_l, (str_in_join _ _ _ (lower cell)); [|done].
    by apply list_elem_of_fmap_2.
  - apply str_in_app_r, str_in_app_r, (str_in_join _ _ _ (lower cell)); [|done].
    apply list_elem_of_fmap in Hin as (v & -> & Hv).
    by apply (list_elem_of_fmap_2 (fun val => lower (str_label val))).
Qed.

End StatementType.

(** C7: every table is classified on the one lowercase text built from its
    column headers and label-column values, by first match: profit and loss
    if a profit-and-loss keyword is present, else balance sheet if a
    balance-sheet keyword is present, else cash flow if a cash-flow keyword
    is present, else nothing (Unknown); a table that contains both "revenue"
    and "equity" is profit and loss, and a table with no keyword of the three
    sets is Unknown. *)
Theorem identify_statement_type_priority {A} (df : TableExtractor.DataFrame A) :
  let present kws := Spec.any_present kws (Spec.table_text df) in
  (TableExtractor._identify_statement_type df = Some "profit_loss"
   ↔ present Spec.profit_loss_keywords)
  ∧ (TableExtractor._identify_statement_type df = Some "balance_sheet"
     ↔ ¬ present Spec.profit_loss_keywords ∧ present Spec.balance_sheet_keywords)
  ∧ (TableExtractor._identify_statement_type df = Some "cash_flow"
     ↔ ¬ present Spec.profit_loss_keywords ∧ ¬ present Spec.balance_sheet_keywords
       ∧ present Spec.cash_flow_keywords)
  ∧ (TableExtractor._identify_statement_type df = None
     ↔ ¬ present Spec.profit_loss_keywords ∧ ¬ present Spec.balance_sheet_keywords
       ∧ ¬ present Spec.cash_flow_keywords)
  ∧ (Spec.mentions df "revenue" → Spec.mentions df "equity" →
     TableExtractor._identify_statement_type df = Some "profit_loss")
  ∧ ((∀ kw, kw ∈ Spec.profit_loss_keywords ++ Spec.balance_sheet_keywords
                  ++ Spec.cash_flow_keywords →
            Text.str_in kw (Spec.table_text df) = false) →
     TableExtractor._identify_statement_type df = None).
Proof.
  intros present. subst present. cbv beta.
  rewrite identify_statement_type_cases.
  assert (Hrev : Spec.mentions df "revenue" →
                 TableExtractor.any_in Spec.profit_loss_keywords (Spec.table_text df) = true).
  { intros H. apply any_in_present. exists "revenue". split; [by left|].
    by apply mentions_table_text. }
  assert (Hnone : (∀ kw, kw ∈ Spec.profit_loss_keywords ++ Spec.balance_sheet_keywords
                           ++ Spec.cash_flow_keywords →
                     Text.str_in kw (Spec.table_text df) = false) →
    TableExtractor.any_in Spec.profit_loss_keywords (Spec.table_text df) = false
    ∧ TableExtractor.any_in Spec.balance_sheet_keywords (Spec.table_text df) = false
    ∧ TableExtractor.any_in Spec.cash_flow_keywords (Spec.table_text df) = false).
  { intros H. split_and!; apply any_in_absent; intros (kw & Hin & Hkw);
      rewrite (H kw) in Hkw; try discriminate; rewrite !elem_of_app; tauto. }
  destruct (TableExtractor.any_in Spec.profit_loss_keywords _) eqn:Hpl;
    [apply any_in_present in Hpl | apply any_in_absent in Hpl];
  (destruct (TableExtractor.any_in Spec.balance_sheet_keywords _) eqn:Hbs;
    [apply any_in_present in Hbs | apply any_in_absent in Hbs]);
  (destruct (TableExtractor.any_in Spec.cash_flow_keywords _) eqn:Hcf;
    [apply any_in_present in Hcf | apply any_in_absent in Hcf]).
  all: split_and!.
  all: try (split; intros; try done; try tauto; discriminate).
  all: try (intros Hr _; specialize (Hrev Hr); done).
  all: try (intros H; destruct (Hnone H) as (? & ? & ?); done).
Qed.

Lemma identify_statement_type_witness :
  TableExtractor._identify_statement_type
    (TableExtractor.mkDataFrame "Particulars" ["FY 2022"; "FY 2023"]
       [ (TableExtractor.LStr "Revenue from operations", [Some 900%Q; Some 1000%Q]);
         (TableExtractor.LStr "Total Equity", [Some 480%Q; Some 580%Q]) ])
  = Some "profit_loss".
Proof.
  apply identify_statement_type_priority.
  - exists "Revenue from operations". split; [|reflexivity].
    unfold Spec.table_cells. cbn. repeat constructor.
  - exists "Total Equity". split; [|reflexivity].
    unfold Spec.table_cells. cbn. repeat constructor.
Defined.

Example identify_statement_type_ex :
  TableExtractor._identify_statement_type
    (TableExtractor.mkDataFrame "Particulars" ["FY 2023"]
       [ (TableExtractor.LStr "Total Assets", [Some 1200%Q]);
         (TableExtractor.LNaN, [Some 1%Q]) ]) = Some "balance_sheet"
  ∧ TableExtractor._identify_statement_type
      (TableExtractor.mkDataFrame "Shareholder" ["Holding"]
         [ (TableExtractor.LStr "Promoters", [Some 60%Q]) ]) = None
  ∧ TableExtractor._identify_statement_type
      (TableExtractor.mkDataFrame "Income" ["Statement"]
         [ (TableExtractor.LStr "Fees", [Some 60%Q]) ]) = Some "profit_loss".
Proof. repeat split; vm_compute; reflexivity. Qed.

(** ** Categories of a risk ([_classify_single_risk]) *)

Section Classify.
Import Text RiskAnalyzer.
Variable text : string.

Lemma score_categories_app (cats1 cats2 : list (string * list string)) :
  score_categories (cats1 ++ cats2) text
  = score_categories cats1 text ++ score_categories cats2 text.
Proof.
  induction cats1 as [|[c kws] cats1 IH]; [reflexivity|].
  cbn [score_categories app]. cbv zeta.
  destruct (0 <? count_in kws text); by rewrite IH.
Qed.

Lemma score_categories_Forall (P : Z → Prop) (cats : list (string * list string)) :
  Forall (fun ck => P (count_in ck.2 text)) cats →
  Forall (fun x => P x.2) (score_categories cats text).
Proof.
  induction 1 as [|[c kws] cats Hc _ IH]; [constructor|].
  cbn [score_categories]. cbv zeta.
  destruct (0 <? count_in kws text); [by constructor|done].
Qed.

Lemma score_categories_nil (cats : list (string * list string)) :
  score_categories cats text = [] ↔ Forall (fun ck => count_in ck.2 text = 0) cats.
Proof.
  induction cats as [|[c kws] cats IH]; [by split; [constructor|]|].
  cbn [score_categories]. cbv zeta.
  pose proof (count_in_present kws text) as Hnn.
  destruct (Z.ltb_spec 0 (count_in kws text)) as [Hpos|Hzero].
  - split; [done|]. intros H. apply Forall_cons in H as [H _]. simpl in H. lia.
  - rewrite IH. split.
    + intros H. constructor; [simpl; lia|done].
    + intros H. by apply Forall_cons in H as [_ H].
Qed.

Lemma max_from_keep (best : string * Z) (l : list (string * Z)) :
  Forall (fun x => x.2 ≤ best.2) l → max_from best l = best.1.
Proof.
  induction 1 as [|x l Hx _ IH]; [reflexivity|].
  cbn [max_from]. destruct (Z.ltb_spec best.2 x.2); [lia|done].
Qed.

Lemma max_from_first_max (best : string * Z) (l1 l2 : list (string * Z)) (c : string) (s : Z) :
  best.2 < s →
  Forall (fun x => x.2 < s) l1 →
  Forall (fun x => x.2 ≤ s) l2 →
  max_from best (l1 ++ (c, s) :: l2) = c.
Proof.
  intros Hb H1 H2. revert best Hb.
  induction H1 as [|x l1 Hx _ IH]; intros best Hb.
  - cbn [app max_from snd]. destruct (Z.ltb_spec best.2 s); [|lia].
    by rewrite max_from_keep.
  - cbn [app max_from]. destruct (best.2 <? x.2); by apply IH.
Qed.

(** The earliest category among those with the greatest count, this count
    being positive, is the one returned. *)
Lemma classify_with_first_max (before after : list (string * list string))
    (c : string) (kws : list string) :
  0 < count_in kws text →
  Forall (Spec.score_lt text (count_in kws text)) before →
  Forall (Spec.score_le text (count_in kws text)) after →
  classify_with (before ++ (c, kws) :: after) text = c.
Proof.
  intros Hpos Hb Ha. unfold classify_with.
  rewrite score_categories_app. cbn [score_categories]. cbv zeta.
  destruct (Z.ltb_spec 0 (count_in kws text)); [|lia].
  apply (score_categories_Forall (fun z => z < count_in kws text)) in Hb.
  apply (score_categories_Forall (fun z => z ≤ count_in kws text)) in Ha.
  destruct (score_categories before text) as [|x l1].
  - cbn [app]. by rewrite max_from_keep.
  - cbn [app]. apply Forall_cons in Hb as [Hx Hb].
    by apply max_from_first_max.
Qed.

Lemma first_max_exists (cats : list (string * list string)) :
  cats ≠ [] →
  ∃ before c kws after,
    cats = before ++ (c, kws) :: after
    ∧ Forall (Spec.score_lt text (count_in kws text)) before
    ∧ Forall (Spec.score_le text (count_in kws text)) after.
Proof.
  induction cats as [|[c kws] cats IH]; [done|]. intros _.
  destruct cats as [|ck cats].
  - exists [], c, kws, []. by repeat split; constructor.
  - destruct IH as (before & c' & kws' & after & Heq & Hb & Ha); [done|].
    destruct (Z.lt_ge_cases (count_in kws text) (count_in kws' text)) as [Hlt|Hge].
    + exists ((c, kws) :: before), c', kws', after. rewrite Heq.
      split; [reflexivity|]. split; [by constructor|done].
    + exists [], c, kws, (ck :: cats). split; [reflexivity|].
      split; [constructor|]. rewrite Heq. apply Forall_app. split.
      * eapply Forall_impl; [exact Hb|]. unfold Spec.score_lt, Spec.score_le.
        intros ? ?. lia.
      * constructor; [unfold Spec.score_le; simpl; lia|].
        eapply Forall_impl; [exact Ha|]. unfold Spec.score_le. intros ? ?. lia.
Qed.

Lemma classify_with_other (cats : list (string * list string)) :
  Forall (fun ck => count_in ck.2 text = 0) cats → classify_with cats text = "other".
Proof.
  intros H. unfold classify_with. by apply score_categories_nil in H as ->.
Qed.

(** Unless every count is zero, the result is a category of the table with a
    positive count. *)
Lemma classify_with_elem (cats : list (string * list string)) :
  ¬ Forall (fun ck => count_in ck.2 text = 0) cats →
  ∃ kws, (classify_with cats text, kws) ∈ cats ∧ 0 < count_in kws text.
Proof.
  intros Hsome.
  destruct (first_max_exists cats) as (before & c & kws & after & Heq & Hb & Ha).
  { intros ->. apply Hsome. constructor. }
  assert (Hpos : 0 < count_in kws text).
  { destruct (Z.lt_ge_cases 0 (count_in kws text)) as [|Hle]; [done|].
    exfalso. apply Hsome. rewrite Heq. apply Forall_app. split.
    - eapply Forall_impl; [exact Hb|]. unfold Spec.score_lt. intros [c' k'] ?.
      pose proof (count_in_present k' text). simpl in *. lia.
    - constructor.
      + pose proof (count_in_present kws text). simpl. lia.
      + eapply Forall_impl; [exact Ha|]. unfold Spec.score_le. intros [c' k'] ?.
        pose proof (count_in_present k' text). simpl in *. lia. }
  exists kws. rewrite Heq at 1. rewrite classify_with_first_max by done.
  split; [|done]. rewrite Heq. apply elem_of_app. right. by left.
Qed.

End Classify.

(** C6: the category returned for a risk record is decided on the lowercased
    title and description joined by a blank, by the number of keyword triggers
    of each category that occur in it: "other" is returned iff no category has
    a match; otherwise the category returned is the one declared earliest
    among those with the greatest count: every category declared before it
    has a strictly smaller count and none after it has a greater one. *)
Theorem classify_single_risk_rule (risk : RiskAnalyzer.Risk) :
  let text := Text.lower (RiskAnalyzer.title risk +:+ " " +:+ RiskAnalyzer.description risk) in
  let score kws := Spec.present kws text in
  (RiskAnalyzer._classify_single_risk risk = "other"
   ↔ ∀ c kws, (c, kws) ∈ RiskAnalyzer.risk_categories → score kws = 0%nat)
  ∧ (∀ before c kws after,
       RiskAnalyzer.risk_categories = before ++ (c, kws) :: after →
       (0 < score kws)%nat →
       Forall (fun ck => (score ck.2 < score kws)%nat) before →
       Forall (fun ck => (score ck.2 ≤ score kws)%nat) after →
       RiskAnalyzer._classify_single_risk risk = c)
  ∧ ((∃ c kws, (c, kws) ∈ RiskAnalyzer.risk_categories ∧ (0 < score kws)%nat) →
     ∃ before c kws after,
       RiskAnalyzer.risk_categories = before ++ (c, kws) :: after
       ∧ (0 < score kws)%nat
       ∧ Forall (fun ck => (score ck.2 < score kws)%nat) before
       ∧ Forall (fun ck => (score ck.2 ≤ score kws)%nat) after
       ∧ RiskAnalyzer._classify_single_risk risk = c)
  ∧ fst <$> RiskAnalyzer.risk_categories
    = [ "business_risk"; "financial_risk"; "operational_risk"; "regulatory_risk";
        "legal_risk"; "market_risk"; "promoter_risk"; "customer_concentration_risk" ].
Proof.
  intros text score. unfold RiskAnalyzer._classify_single_risk.
  change (RiskAnalyzer.risk_text risk) with text.
  assert (Hzero : Forall (fun ck => RiskAnalyzer.count_in ck.2 text = 0)
                         RiskAnalyzer.risk_categories
                  ↔ ∀ c kws, (c, kws) ∈ RiskAnalyzer.risk_categories → score kws = 0%nat).
  { rewrite Forall_forall. split.
    - intros H c kws Hin. specialize (H _ Hin). simpl in H.
      rewrite count_in_present in H. subst score. simpl. lia.
    - intros H [c kws] Hin. simpl. rewrite count_in_present.
      specialize (H _ _ Hin). subst score. simpl in H. lia. }
  assert (Hfirst : ∀ before c kws after,
       RiskAnalyzer.risk_categories = before ++ (c, kws) :: after →
       (0 < score kws)%nat →
       Forall (fun ck => (score ck.2 < score kws)%nat) before →
       Forall (fun ck => (score ck.2 ≤ score kws)%nat) after →
       RiskAnalyzer.classify_with RiskAnalyzer.risk_categories text = c).
  { intros before c kws after -> Hpos Hb Ha.
    apply classify_with_first_max.
    - rewrite count_in_present. subst score. simpl in Hpos. lia.
    - eapply Forall_impl; [exact Hb|]. intros [c' k']. unfold Spec.score_lt.
      rewrite !count_in_present. subst score. simpl. lia.
    - eapply Forall_impl; [exact Ha|]. intros [c' k']. unfold Spec.score_le.
      rewrite !count_in_present. subst score. simpl. lia. }
  split_and!.
  - rewrite <- Hzero. split.
    + intros Hother.
      destruct (decide (Forall (fun ck => RiskAnalyzer.count_in ck.2 text = 0)
                               RiskAnalyzer.risk_categories)) as [|Hsome]; [done|].
      destruct (classify_with_elem text _ Hsome) as (kws & Hin & _).
      rewrite Hother in Hin. exfalso. clear -Hin.
      unfold RiskAnalyzer.risk_categories in Hin.
      repeat (apply elem_of_cons in Hin as [Hin|Hin]; [discriminate|]).
      by apply elem_of_nil in Hin.
    + apply classify_with_other.
  - exact Hfirst.
  - intros (c0 & kws0 & Hin0 & Hpos0).
    destruct (first_max_exists text RiskAnalyzer.risk_categories)
      as (before & c & kws & after & Heq & Hb & Ha); [done|].
    assert (Hb' : Forall (fun ck => (score ck.2 < score kws)%nat) before).
    { eapply Forall_impl; [exact Hb|]. intros [c' k']. unfold Spec.score_lt.
      rewrite !count_in_present. subst score. simpl. lia. }
    assert (Ha' : Forall (fun ck => (score ck.2 ≤ score kws)%nat) after).
    { eapply Forall_impl; [exact Ha|]. intros [c' k']. unfold Spec.score_le.
      rewrite !count_in_present. subst score. simpl. lia. }
    assert (Hpos : (0 < score kws)%nat).
    { rewrite Heq in Hin0. apply elem_of_app in Hin0 as [Hin0|Hin0].
      - rewrite Forall_forall in Hb'. specialize (Hb' _ Hin0). simpl in Hb'. lia.
      - apply elem_of_cons in Hin0 as [Hin0|Hin0].
        + by injection Hin0 as -> ->.
        + rewrite Forall_forall in Ha'. specialize (Ha' _ Hin0). simpl in Ha'. lia. }
    exists before, c, kws, after. split_and!; try done.
    by apply (Hfirst before c kws after).
  - reflexivity.
Qed.

Lemma classify_single_risk_witness :
  RiskAnalyzer._classify_single_risk
    (RiskAnalyzer.mkRisk "Debt and Litigation"
       "Rising debt and pending litigation may affect operations" None None)
  = "business_risk".
Proof.
  apply (classify_single_risk_rule
           (RiskAnalyzer.mkRisk "Debt and Litigation"
              "Rising debt and pending litigation may affect operations" None None))
    with (before := [])
         (kws := ["business model"; "operations"; "product"])
         (after := tail RiskAnalyzer.risk_categories).
  - reflexivity.
  - vm_compute. lia.
  - constructor.
  - repeat constructor.
Defined.

Example classify_single_risk_ex :
  RiskAnalyzer._classify_single_risk
    (RiskAnalyzer.mkRisk "Customer Concentration" "Heavy dependence on top customers" None None)
  = "customer_concentration_risk"
  ∧ RiskAnalyzer._classify_single_risk
      (RiskAnalyzer.mkRisk "Compliance" "Litigation over regulation and policy" None None)
    = "regulatory_risk"
  ∧ RiskAnalyzer._classify_single_risk
      (RiskAnalyzer.mkRisk "Pricing" "Litigation" None None) = "legal_risk"
  ∧ RiskAnalyzer._classify_single_risk
      (RiskAnalyzer.mkRisk "Weather" "Monsoon" None None) = "other".
Proof. repeat split; vm_compute; reflexivity. Qed.

(** ** Cutting and trimming text *)

Section Trim.
Import Text.

Lemma cut_chars_Some (sep : ascii) (l a b : list ascii) :
  cut_chars sep l = Some (a, b) ↔ l = a ++ sep :: b ∧ sep ∉ a.
Proof.
  revert a. induction l as [|c l IH]; intros a; simpl.
  - split; [done|]. intros [H _]. by destruct a.
  - destruct (Ascii.eqb_spec c sep) as [->|Hne].
    + split.
      * intros [= <- <-]. split; [done|]. apply not_elem_of_nil.
      * intros [H Hnot]. destruct a as [|x a].
        -- by injection H as ->.
        -- injection H as -> _. exfalso. apply Hnot. by left.
    + destruct (cut_chars sep l) as [[a' b']|] eqn:Hcut.
      * split.
        -- intros [= <- <-]. destruct (proj1 (IH a') eq_refl) as [-> Hnot].
           split; [done|]. intros [?|?]%elem_of_cons; [congruence|done].
        -- intros [H Hnot]. destruct a as [|x a]; [by injection H as ->|].
           injection H as -> H.
           assert (Some (a', b') = Some (a, b)) as [= -> ->]; [|done].
           apply IH. split; [done|]. intros ?. apply Hnot. by right.
      * split; [done|]. intros [H Hnot].
        destruct a as [|x a]; [by injection H as ->|].
        injection H as -> H.
        assert (None = Some (a, b)); [|done].
        apply IH. split; [done|]. intros ?. apply Hnot. by right.
Qed.

Lemma cut_chars_None (sep : ascii) (l : list ascii) :
  cut_chars sep l = None ↔ sep ∉ l.
Proof.
  induction l as [|c l IH]; simpl.
  - split; [intros _; apply not_elem_of_nil|done].
  - destruct (Ascii.eqb_spec c sep) as [->|Hne].
    + split; [done|]. intros H. exfalso. apply H. by left.
    + destruct (cut_chars sep l) as [[a b]|].
      * split; [done|]. intros H. exfalso.
        assert (Hl : sep ∉ l) by (intros ?; apply H; by right).
        apply IH in Hl. done.
      * split; [|done]. intros _ [?|?]%elem_of_cons; [congruence|].
        by apply (proj1 IH).
Qed.

Lemma lstrip_by_split (p : ascii → bool) (l : list ascii) :
  ∃ pre, l = pre ++ lstrip_by p l ∧ Forall (fun c => p c = true) pre.
Proof.
  induction l as [|c l (pre & IH & Hpre)]; simpl.
  - by exists [].
  - destruct (p c) eqn:Hc.
    + exists (c :: pre). split; [by rewrite IH at 1|by constructor].
    + by exists [].
Qed.

Lemma lstrip_by_head (p : ascii → bool) (l : list ascii) (c : ascii) :
  head (lstrip_by p l) = Some c → p c = false.
Proof.
  induction l as [|x l IH]; simpl; [done|].
  destruct (p x) eqn:Hx; [done|]. by intros [= <-].
Qed.

Lemma last_rev {B} (l : list B) : last (rev l) = head l.
Proof. destruct l as [|x l]; [done|]. simpl. by rewrite last_snoc. Qed.

(** [strip] removes the longest run of trimmed characters at each end. *)
Lemma strip_by_spec (p : ascii → bool) (l : list ascii) :
  ∃ pre post,
    l = pre ++ strip_by p l ++ post
    ∧ Forall (fun c => p c = true) pre ∧ Forall (fun c => p c = true) post
    ∧ Spec.ends_clear p (strip_by p l).
Proof.
  unfold strip_by, rstrip_by.
  destruct (lstrip_by_split p l) as (pre & Hl & Hpre).
  destruct (lstrip_by_split p (rev (lstrip_by p l))) as (tsop & Hr & Hpost).
  set (m := lstrip_by p l) in *.
  set (k := lstrip_by p (rev m)) in *.
  assert (Hm : m = rev k ++ rev tsop).
  { rewrite <- rev_app_distr, <- Hr. by rewrite rev_involutive. }
  exists pre, (rev tsop). split_and!.
  - by rewrite <- Hm.
  - done.
  - rewrite Forall_forall in *. intros c Hc. apply Hpost.
    apply list_elem_of_In, in_rev. by apply list_elem_of_In.
  - split; intros c Hc.
    + destruct (rev k) as [|x rk] eqn:Hrk; [done|]. injection Hc as ->.
      apply (lstrip_by_head p l). fold m. by rewrite Hm.
    + rewrite last_rev in Hc. by apply (lstrip_by_head p (rev m)).
Qed.

Lemma startswith_dash (line : string) :
  startswith line "-" = true ↔ ∃ rest, chars line = "-"%char :: rest.
Proof.
  unfold startswith. rewrite is_prefix_spec. by split; intros [rest H]; exists rest.
Qed.

End Trim.

(** ** Parsing the list of risks ([_parse_risk_response]) *)

Section Parse.
Import Text RiskAnalyzer.

Lemma parse_loop (lines : list string) (acc : list Risk) :
  fold_left (fun risks raw =>
               match parse_line raw with
               | Some risk => risks ++ [risk]
               | None => risks
               end) lines acc
  = acc ++ omap parse_line lines.
Proof.
  revert acc. induction lines as [|raw lines IH]; intros acc; simpl.
  - by rewrite app_nil_r.
  - rewrite IH. destruct (parse_line raw); [|done]. by rewrite <- app_assoc.
Qed.

Lemma qualifies_test (line : string) :
  first_isdigit line || startswith line "-" = true ↔ Spec.qualifies line.
Proof.
  unfold Spec.qualifies, first_isdigit.
  rewrite orb_true_iff, startswith_dash. split.
  - intros [H|[rest H]].
    + destruct (chars line) as [|c rest]; [done|]. exists c, rest. auto.
    + exists "-"%char, rest. auto.
  - intros (c & rest & -> & [H| ->]); [by left|]. right. by exists rest.
Qed.

Lemma parse_line_None (raw : string) :
  parse_line raw = None ↔ ¬ Spec.qualifies (strip raw).
Proof.
  unfold parse_line. cbv zeta. rewrite <- qualifies_test.
  destruct (bool_decide_reflect (strip raw = "")) as [Hempty|Hne].
  - rewrite Hempty. split; [|done]. intros _. by vm_compute.
  - destruct (first_isdigit (strip raw) || startswith (strip raw) "-").
    + split; [|done]. unfold split1.
      destruct (cut_chars ":" (chars (strip raw))) as [[a b]|]; done.
    + split; [|done]. done.
Qed.

Lemma parse_line_colon (raw : string) (a b : list ascii) :
  Spec.qualifies (strip raw) →
  chars (strip raw) = a ++ ":"%char :: b → ":"%char ∉ a →
  parse_line raw
  = Some (mkRisk (strip_set Spec.numbering (text a)) (strip (text b)) None None).
Proof.
  intros Hq Hcut Hnot. unfold parse_line. cbv zeta.
  apply qualifies_test in Hq as ->.
  destruct (bool_decide_reflect (strip raw = "")) as [Hempty|Hne].
  { rewrite Hempty in Hcut. by destruct a. }
  unfold split1.
  by rewrite (proj2 (cut_chars_Some ":" _ a b) (conj Hcut Hnot)).
Qed.

Lemma parse_line_no_colon (raw : string) :
  Spec.qualifies (strip raw) → ":"%char ∉ chars (strip raw) →
  parse_line raw = Some (mkRisk (strip_set Spec.numbering (strip raw)) "" None None).
Proof.
  intros Hq Hnot. unfold parse_line. cbv zeta.
  destruct (bool_decide_reflect (strip raw = "")) as [Hempty|Hne].
  { destruct Hq as (c & rest & Hc & _). by rewrite Hempty in Hc. }
  apply qualifies_test in Hq as ->.
  unfold split1. by rewrite (proj2 (cut_chars_None ":" _) Hnot).
Qed.

Lemma parse_line_unset (raw : string) (r : Risk) :
  parse_line raw = Some r → category r = None ∧ severity r = None.
Proof.
  unfold parse_line. cbv zeta. repeat case_match; try done; by intros [= <-].
Qed.

End Parse.

(** C9, as stated, fails on the title: only the leading numbering is said to
    be trimmed, but the digits, the closing bracket, the full stop and the
    blanks at the end of a title are trimmed as well; and a line is tested
    after its surrounding white space is removed, so that an indented item,
    whose first character is a blank, still gives a record. *)
Lemma parse_risk_title_trimmed_at_end :
  RiskAnalyzer._parse_risk_response "1. Revenue decline in FY 2023: Sales fell"
  = [RiskAnalyzer.mkRisk "Revenue decline in FY" "Sales fell" None None]
  ∧ Spec.title_leading_trimmed "1. Revenue decline in FY 2023" = "Revenue decline in FY 2023"
  ∧ "Revenue decline in FY" ≠ Spec.title_leading_trimmed "1. Revenue decline in FY 2023"
  ∧ RiskAnalyzer._parse_risk_response "3) Litigation pending (since 2019)"
    = [RiskAnalyzer.mkRisk "Litigation pending (since" "" None None]
  ∧ "Litigation pending (since" ≠ Spec.title_leading_trimmed "3) Litigation pending (since 2019)"
  ∧ RiskAnalyzer._parse_risk_response "  - Indented item"
    = [RiskAnalyzer.mkRisk "Indented item" "" None None]
  ∧ ¬ Spec.qualifies "  - Indented item".
Proof.
  split_and!; try (vm_compute; reflexivity); try (vm_compute; discriminate).
  intros (c & rest & Hc & Hd). injection Hc as <- _.
  destruct Hd as [Hd|Hd]; discriminate.
Qed.

(** C9, amended: for every input text [_parse_risk_response] gives, in order,
    one record for each line that, once its surrounding white space is
    removed, is not empty and starts with a digit or with "-"; every other
    line is dropped, and nothing raises. For such a line, stripped, the title
    is the part before its first colon and the description the part after
    it, stripped of white space; without a colon the whole line is the title
    and the description is empty. The title is trimmed at both ends of every
    digit, full stop, hyphen, closing bracket and blank. Category and
    severity are unset; the line
    "1. Customer Concentration: Heavy dependence on top customers" gives the
    one record with title "Customer Concentration" and description
    "Heavy dependence on top customers". *)
Theorem parse_risk_response_items (response : string) :
  RiskAnalyzer._parse_risk_response response
  = omap RiskAnalyzer.parse_line (Text.split "010" response)
  ∧ (∀ raw, RiskAnalyzer.parse_line raw = None ↔ ¬ Spec.qualifies (Text.strip raw))
  ∧ (∀ raw a b,
       Spec.qualifies (Text.strip raw) →
       Text.chars (Text.strip raw) = a ++ ":"%char :: b → ":"%char ∉ a →
       RiskAnalyzer.parse_line raw
       = Some (RiskAnalyzer.mkRisk (Text.strip_set Spec.numbering (Text.text a))
                                   (Text.strip (Text.text b)) None None))
  ∧ (∀ raw,
       Spec.qualifies (Text.strip raw) → ":"%char ∉ Text.chars (Text.strip raw) →
       RiskAnalyzer.parse_line raw
       = Some (RiskAnalyzer.mkRisk (Text.strip_set Spec.numbering (Text.strip raw))
                                   "" None None))
  ∧ (∀ s, ∃ pre post,
       Text.chars s = pre ++ Text.chars (Text.strip_set Spec.numbering s) ++ post
       ∧ Forall (fun c => c ∈ Text.chars Spec.numbering) pre
       ∧ Forall (fun c => c ∈ Text.chars Spec.numbering) post
       ∧ Spec.ends_clear (Text.mem_char (Text.chars Spec.numbering))
                         (Text.chars (Text.strip_set Spec.numbering s)))
  ∧ (∀ s, ∃ pre post,
       Text.chars s = pre ++ Text.chars (Text.strip s) ++ post
       ∧ Forall (fun c => Text.is_space c = true) pre
       ∧ Forall (fun c => Text.is_space c = true) post
       ∧ Spec.ends_clear Text.is_space (Text.chars (Text.strip s)))
  ∧ Forall (fun r => RiskAnalyzer.category r = None ∧ RiskAnalyzer.severity r = None)
           (RiskAnalyzer._parse_risk_response response)
  ∧ RiskAnalyzer._parse_risk_response
      "1. Customer Concentration: Heavy dependence on top customers"
    = [RiskAnalyzer.mkRisk "Customer Concentration" "Heavy dependence on top customers"
                           None None].
Proof.
  assert (Hloop : RiskAnalyzer._parse_risk_response response
                  = omap RiskAnalyzer.parse_line (Text.split "010" response)).
  { unfold RiskAnalyzer._parse_risk_response. by rewrite parse_loop. }
  split_and!.
  - exact Hloop.
  - apply parse_line_None.
  - apply parse_line_colon.
  - apply parse_line_no_colon.
  - intros s. unfold Text.strip_set. rewrite chars_text.
    destruct (strip_by_spec (Text.mem_char (Text.chars Spec.numbering)) (Text.chars s))
      as (pre & post & Heq & Hpre & Hpost & Hclear).
    exists pre, post. split_and!; try done.
    all: eapply Forall_impl; [eassumption|]; intros c Hc; unfold Text.mem_char in Hc.
    all: apply existsb_exists in Hc as (x & Hx & ->%Ascii.eqb_eq).
    all: by apply list_elem_of_In.
  - intros s. unfold Text.strip. rewrite chars_text.
    destruct (strip_by_spec Text.is_space (Text.chars s))
      as (pre & post & Heq & Hpre & Hpost & Hclear).
    by exists pre, post.
  - rewrite Hloop. apply Forall_forall. intros r Hr.
    apply list_elem_of_omap in Hr as (raw & _ & Hraw).
    by apply (parse_line_unset raw).
  - vm_compute. reflexivity.
Qed.

Lemma parse_risk_response_witness :
  RiskAnalyzer.parse_line "  2) Supplier dependence (China): Single source.  "
  = Some (RiskAnalyzer.mkRisk
            (Text.strip_set Spec.numbering (Text.text (Text.chars "2) Supplier dependence (China)")))
            (Text.strip (Text.text (Text.chars " Single source."))) None None).
Proof.
  apply (parse_risk_response_items "").
  - exists "2"%char, (Text.chars ") Supplier dependence (China): Single source.").
    split; [reflexivity|]. by left.
  - reflexivity.
  - intros Hin. apply list_elem_of_In in Hin. vm_compute in Hin.
    repeat (destruct Hin as [Hin|Hin]; [discriminate|]). exact Hin.
Defined.

Example parse_risk_response_ex :
  RiskAnalyzer._parse_risk_response
    "Here are the risks:
1. Customer Concentration: Heavy dependence: top customers
- Debt
  2) Supplier dependence (China): Single source.

Note: figures are unaudited"
  = [ RiskAnalyzer.mkRisk "Customer Concentration" "Heavy dependence: top customers" None None;
      RiskAnalyzer.mkRisk "Debt" "" None None;
      RiskAnalyzer.mkRisk "Supplier dependence (China" "Single source." None None ].
Proof. vm_compute. reflexivity. Qed.

(** ** Years of column labels ([_extract_year]) *)

Section Year.
Import Text TableExtractor.

Lemma take_lstrip (p : ascii → bool) (l : list ascii) :
  l = take_by p l ++ lstrip_by p l.
Proof.
  induction l as [|c l IH]; [done|]. simpl.
  destruct (p c); [|done]. simpl. by rewrite <- IH.
Qed.

Lemma take_by_Forall (p : ascii → bool) (l : list ascii) :
  Forall (fun c => p c = true) (take_by p l).
Proof.
  induction l as [|c l IH]; simpl; [constructor|].
  destruct (p c) eqn:Hc; by constructor.
Qed.

Lemma take_by_app (p : ascii → bool) (ws rest : list ascii) :
  Forall (fun c => p c = true) ws →
  (∀ c, head rest = Some c → p c = false) →
  take_by p (ws ++ rest) = ws ∧ lstrip_by p (ws ++ rest) = rest.
Proof.
  intros Hws Hrest. induction Hws as [|c ws Hc _ [IH1 IH2]]; simpl.
  - destruct rest as [|c rest]; [done|]. simpl. by rewrite (Hrest c).
  - rewrite Hc. by rewrite IH1, IH2.
Qed.

Lemma digit_not_space (c : ascii) : is_digit c = true → is_space c = false.
Proof.
  unfold is_digit, is_space, in_range.
  rewrite andb_true_iff, !N.leb_le. intros [H1 H2].
  repeat (apply orb_false_iff; split); try apply andb_false_iff;
    rewrite ?N.leb_gt, ?N.eqb_neq; lia.
Qed.

Lemma digit_not_lower (c : ascii) : is_digit c = true → is_lower c = false.
Proof.
  unfold is_digit, is_lower, in_range.
  rewrite andb_true_iff, !N.leb_le. intros [H1 H2].
  apply andb_false_iff. rewrite !N.leb_gt. lia.
Qed.

Lemma space_not_lower (c : ascii) : is_space c = true → is_lower c = false.
Proof.
  unfold is_space, is_lower, in_range.
  rewrite !orb_true_iff, !andb_true_iff, !N.leb_le, N.eqb_eq. intros H.
  apply andb_false_iff. rewrite !N.leb_gt. lia.
Qed.

Lemma space_not_digit (c : ascii) : is_space c = true → is_digit c = false.
Proof.
  intros H. destruct (is_digit c) eqn:Hd; [|done].
  apply digit_not_space in Hd. congruence.
Qed.

Lemma match_year4_spec (l tok post : list ascii) :
  match_year4 l = Some (tok, post) ↔ l = tok ++ post ∧ Spec.is_year4 tok.
Proof.
  unfold match_year4, Spec.is_year4, Spec.year4_token. split.
  - destruct l as [|c1 [|c2 [|d1 [|d2 rest]]]]; try done.
    destruct (Ascii.eqb_spec c1 "2") as [->|]; [|done].
    destruct (Ascii.eqb_spec c2 "0") as [->|]; [|done].
    destruct (is_digit d1) eqn:H1; [|done].
    destruct (is_digit d2) eqn:H2; [|done].
    intros [= <- <-]. split; [done|]. eexists _, d1, d2. eauto.
  - intros [-> (y & d1 & d2 & H1 & H2 & -> & _)]. simpl. by rewrite H1, H2.
Qed.

Lemma match_fy_spec (l tok post : list ascii) :
  match_fy l = Some (tok, post) ↔ l = tok ++ post ∧ Spec.is_fy tok.
Proof.
  unfold match_fy, Spec.is_fy, Spec.fy_token. split.
  - destruct l as [|c1 [|c2 t]]; try done.
    destruct (Ascii.eqb_spec c1 "F") as [->|]; [|done].
    destruct (Ascii.eqb_spec c2 "Y") as [->|]; [|done].
    simpl. destruct (lstrip_by is_space t) as [|d1 [|d2 rest]] eqn:Ht; try done.
    destruct (is_digit d1) eqn:H1; [|done].
    destruct (is_digit d2) eqn:H2; [|done].
    intros [= <- <-]. split.
    + simpl. do 2 f_equal. rewrite <- app_assoc. simpl. rewrite <- Ht.
      apply take_lstrip.
    + eexists _, (take_by is_space t), d1, d2.
      split_and!; try done. apply take_by_Forall.
  - intros [-> (y & ws & d1 & d2 & Hws & H1 & H2 & -> & _)]. simpl.
    rewrite <- app_assoc. simpl.
    destruct (take_by_app is_space ws (d1 :: d2 :: post) Hws) as [-> ->].
    { intros c [= <-]. by apply digit_not_space. }
    by rewrite H1, H2.
Qed.

Lemma year4_not_fy (l tok tok' post post' : list ascii) :
  l = tok ++ post → Spec.is_year4 tok → l = tok' ++ post' → Spec.is_fy tok' → False.
Proof.
  intros -> (y & d1 & d2 & _ & _ & -> & _) H (y' & ws & e1 & e2 & _ & _ & _ & -> & _).
  discriminate.
Qed.

(** The pattern matches at a position exactly when a token of one of the two
    forms starts there between two word boundaries. *)
Lemma match_here_spec (prev : option ascii) (l tok : list ascii) :
  match_here prev l = Some tok
  ↔ ∃ post, l = tok ++ post
            ∧ word_boundary prev (head tok) = true
            ∧ word_boundary (last tok) (head post) = true
            ∧ (Spec.is_year4 tok ∨ Spec.is_fy tok).
Proof.
  assert (Hhead : ∀ t post, Spec.is_year4 t ∨ Spec.is_fy t → head (t ++ post) = head t).
  { intros t post [(y & d1 & d2 & _ & _ & -> & _)
                  |(y & ws & d1 & d2 & _ & _ & _ & -> & _)]; done. }
  unfold match_here, then_boundary. split.
  - destruct (word_boundary prev (head l)) eqn:Hb; [|done].
    destruct (match_year4 l) as [[t4 r4]|] eqn:H4.
    + apply match_year4_spec in H4 as [-> H4].
      destruct (word_boundary (last t4) (head r4)) eqn:Hb4.
      * intros [= <-]. exists r4. rewrite Hhead in Hb by auto. auto.
      * destruct (match_fy (t4 ++ r4)) as [[tf rf]|] eqn:Hf; [|done].
        apply match_fy_spec in Hf as [Hf1 Hf2].
        by destruct (year4_not_fy _ _ _ _ _ eq_refl H4 Hf1 Hf2).
    + destruct (match_fy l) as [[tf rf]|] eqn:Hf; [|done].
      apply match_fy_spec in Hf as [-> Hf].
      destruct (word_boundary (last tf) (head rf)) eqn:Hbf; [|done].
      intros [= <-]. exists rf. rewrite Hhead in Hb by auto. auto.
  - intros (post & -> & Hb1 & Hb2 & Hshape).
    rewrite Hhead by done. rewrite Hb1.
    destruct Hshape as [H4|Hf].
    + rewrite (proj2 (match_year4_spec _ tok post) (conj eq_refl H4)).
      by rewrite Hb2.
    + destruct (match_year4 (tok ++ post)) as [[t4 r4]|] eqn:H4.
      { apply match_year4_spec in H4 as [H41 H42].
        by destruct (year4_not_fy _ _ _ _ _ H41 H42 eq_refl Hf). }
      rewrite (proj2 (match_fy_spec _ tok post) (conj eq_refl Hf)).
      by rewrite Hb2.
Qed.

End Year.

Section YearSearch.
Import Text TableExtractor.

Lemma char_before_cons (prev : option ascii) (c : ascii) (pre : list ascii) :
  Spec.char_before prev (c :: pre) = Spec.char_before (Some c) pre.
Proof.
  unfold Spec.char_before. destruct pre as [|x pre]; [done|].
  change (last (c :: x :: pre)) with (last (x :: pre)).
  by destruct (last_nonempty x pre) as [z ->].
Qed.

(** [search_from] returns the match at the leftmost position that has one. *)
Lemma search_from_Some (prev : option ascii) (l tok : list ascii) :
  search_from prev l = Some tok →
  ∃ pre rest,
    l = pre ++ rest
    ∧ match_here (Spec.char_before prev pre) rest = Some tok
    ∧ ∀ pre' rest', l = pre' ++ rest' → (length pre' < length pre)%nat →
                    match_here (Spec.char_before prev pre') rest' = None.
Proof.
  revert prev. induction l as [|c l IH]; intros prev; cbn [search_from].
  - destruct (match_here prev []) eqn:Hm; [|done]. intros [= ->].
    exists [], []. split_and!; [done|done|]. intros ? ? _ H. simpl in H. lia.
  - destruct (match_here prev (c :: l)) eqn:Hm.
    + intros [= ->]. exists [], (c :: l). split_and!; [done|done|].
      intros ? ? _ H. simpl in H. lia.
    + intros Hs. destruct (IH _ Hs) as (pre & rest & -> & Hrest & Hleft).
      exists (c :: pre), rest. split_and!; [done|by rewrite char_before_cons|].
      intros pre' rest' Heq Hlen. destruct pre' as [|x pre'].
      * simpl in Heq. by subst rest'.
      * injection Heq as <- Heq. rewrite char_before_cons.
        apply Hleft; [done|]. simpl in Hlen. lia.
Qed.

Lemma search_from_None (prev : option ascii) (l : list ascii) :
  search_from prev l = None →
  ∀ pre rest, l = pre ++ rest → match_here (Spec.char_before prev pre) rest = None.
Proof.
  revert prev. induction l as [|c l IH]; intros prev; cbn [search_from].
  - destruct (match_here prev []) eqn:Hm; [done|]. intros _ pre rest Heq.
    symmetry in Heq. apply app_eq_nil in Heq as [-> ->]. done.
  - destruct (match_here prev (c :: l)) eqn:Hm; [done|].
    intros Hs pre rest Heq. destruct pre as [|x pre].
    + simpl in Heq. by subst rest.
    + injection Heq as <- Heq. rewrite char_before_cons. by apply IH.
Qed.

Lemma upper_char_id (c : ascii) : is_lower c = false → upper_char c = c.
Proof. unfold upper_char. by intros ->. Qed.

Lemma upper_text_id (l : list ascii) :
  Forall (fun c => is_lower c = false) l → upper (text l) = text l.
Proof.
  intros H. unfold upper. rewrite chars_text. f_equal.
  induction H as [|c l Hc _ IH]; [done|].
  cbn [fmap list_fmap]. rewrite upper_char_id by done. f_equal. exact IH.
Qed.

Lemma search_2digits_skip (ws : list ascii) (d1 d2 : ascii) :
  Forall (fun c => is_digit c = false) ws →
  is_digit d1 = true → is_digit d2 = true →
  search_2digits (ws ++ [d1; d2]) = Some [d1; d2].
Proof.
  intros Hws H1 H2. induction Hws as [|c ws Hc _ IH].
  - simpl. by rewrite H1, H2.
  - cbn [app]. destruct ws as [|x ws].
    + cbn [app search_2digits] in *. rewrite Hc. simpl. by rewrite H1, H2.
    + cbn [app search_2digits] in *. rewrite Hc. simpl. exact IH.
Qed.

(** The year the code reads off a matched group. *)
Lemma year_of_year4 (tok : list ascii) (y : Z) :
  Spec.year4_token tok y →
  str_in "FY" (upper (text tok)) = false ∧ int_of_digits (chars (text tok)) = y.
Proof.
  intros (d1 & d2 & H1 & H2 & -> & ->). rewrite chars_text. split; [|done].
  rewrite upper_text_id.
  2:{ repeat constructor; by apply digit_not_lower. }
  unfold str_in. rewrite chars_text. apply not_true_iff_false.
  rewrite occurs_spec. intros (pre & post & Heq).
  assert (HF : "F"%char ∈ ["2"; "0"; d1; d2]%char).
  { rewrite Heq. apply elem_of_app. right. by left. }
  repeat (apply elem_of_cons in HF as [HF|HF]; [by subst|]).
  by apply elem_of_nil in HF.
Qed.

Lemma year_of_fy (tok : list ascii) (y : Z) :
  Spec.fy_token tok y →
  str_in "FY" (upper (text tok)) = true
  ∧ ∃ dd, search_2digits (chars (text tok)) = Some dd ∧ 2000 + int_of_digits dd = y.
Proof.
  intros (ws & d1 & d2 & Hws & H1 & H2 & -> & ->). rewrite chars_text. split.
  - rewrite upper_text_id.
    + unfold str_in. rewrite chars_text. reflexivity.
    + constructor; [done|]. constructor; [done|]. apply Forall_app. split.
      * eapply Forall_impl; [exact Hws|]. intros c. apply space_not_lower.
      * repeat constructor; by apply digit_not_lower.
  - exists [d1; d2]. split; [|done].
    apply (search_2digits_skip ("F" :: "Y" :: ws)%char); [|done..].
    constructor; [done|]. constructor; [done|].
    eapply Forall_impl; [exact Hws|]. intros c. apply space_not_digit.
Qed.

Lemma year_of_token (tok : list ascii) :
  Spec.is_year4 tok ∨ Spec.is_fy tok →
  ∃ y, (Spec.year4_token tok y ∨ Spec.fy_token tok y)
       ∧ (if str_in "FY" (upper (text tok)) then
            match search_2digits (chars (text tok)) with
            | Some year_digits => Some (2000 + int_of_digits year_digits)
            | None => None
            end
          else Some (int_of_digits (chars (text tok)))) = Some y.
Proof.
  intros [[y H]|[y H]]; exists y.
  - split; [by left|]. by destruct (year_of_year4 tok y H) as [-> ->].
  - split; [by right|].
    destruct (year_of_fy tok y H) as [-> (dd & -> & ->)]. done.
Qed.

Lemma token_year_unique (tok : list ascii) (y y' : Z) :
  Spec.year4_token tok y ∨ Spec.fy_token tok y →
  Spec.year4_token tok y' ∨ Spec.fy_token tok y' → y = y'.
Proof.
  intros H H'.
  assert (Hy : ∀ z, Spec.year4_token tok z ∨ Spec.fy_token tok z →
    (if str_in "FY" (upper (text tok)) then
       match search_2digits (chars (text tok)) with
       | Some year_digits => Some (2000 + int_of_digits year_digits)
       | None => None
       end
     else Some (int_of_digits (chars (text tok)))) = Some z).
  { intros z [Hz|Hz].
    - by destruct (year_of_year4 tok z Hz) as [-> ->].
    - by destruct (year_of_fy tok z Hz) as [-> (dd & -> & ->)]. }
  pose proof (Hy y H) as E. rewrite (Hy y' H') in E. by injection E.
Qed.

End YearSearch.

Section YearTheorem.
Import Text TableExtractor.

Lemma char_before_None (pre : list ascii) : Spec.char_before None pre = last pre.
Proof. unfold Spec.char_before. by destruct (last pre). Qed.

Lemma year_match_here (label : string) (pre : list ascii) (y : Z) :
  Spec.year_match label pre y
  ↔ ∃ tok rest, chars label = pre ++ rest
                ∧ match_here (last pre) rest = Some tok
                ∧ (Spec.year4_token tok y ∨ Spec.fy_token tok y).
Proof.
  unfold Spec.year_match. split.
  - intros (tok & post & Heq & Hb1 & Hb2 & Hy). exists tok, (tok ++ post).
    split_and!; [done| |done]. apply match_here_spec. exists post.
    split_and!; try done. destruct Hy as [Hy|Hy]; [left|right]; by exists y.
  - intros (tok & rest & Heq & Hm & Hy).
    apply match_here_spec in Hm as (post & -> & Hb1 & Hb2 & _).
    by exists tok, post.
Qed.

Lemma extract_year_of_search (label : string) :
  _extract_year label
  = match search_from None (chars label) with
    | Some tok =>
        if str_in "FY" (upper (text tok)) then
          match search_2digits (chars (text tok)) with
          | Some year_digits => Some (2000 + int_of_digits year_digits)
          | None => None
          end
        else Some (int_of_digits (chars (text tok)))
    | None => None
    end.
Proof.
  unfold _extract_year, year_pattern_search.
  by destruct (search_from None (chars label)).
Qed.

End YearTheorem.

(** C8: [_extract_year] gives the year of the leftmost year token of a column
    label, a token being delimited by word boundaries and either 4 digits
    beginning with "20", read as that integer, or the marker "FY", white space
    if any, and 2 digits, read as 2000 plus their value; a label with no such
    token gives nothing. So "FY 22" gives 2022, "2023" gives 2023 and "Q1"
    nothing. *)
Theorem extract_year_leftmost_token (label : string) :
  (∀ y, TableExtractor._extract_year label = Some y
        ↔ ∃ pre, Spec.year_match label pre y
                 ∧ ∀ pre' y', Spec.year_match label pre' y' →
                              (length pre ≤ length pre')%nat)
  ∧ (TableExtractor._extract_year label = None
     ↔ ∀ pre y, ¬ Spec.year_match label pre y)
  ∧ TableExtractor._extract_year "FY 22" = Some 2022
  ∧ TableExtractor._extract_year "2023" = Some 2023
  ∧ TableExtractor._extract_year "Q1" = None.
Proof.
  split_and!; [| |vm_compute; reflexivity..].
  all: rewrite extract_year_of_search.
  all: destruct (TableExtractor.search_from None (Text.chars label)) as [tok|] eqn:Hs.
  - apply search_from_Some in Hs as (pre & rest & Heq & Hm & Hleft).
    rewrite char_before_None in Hm.
    assert (Hshape : Spec.is_year4 tok ∨ Spec.is_fy tok).
    { apply match_here_spec in Hm as (post & _ & _ & _ & H). exact H. }
    destruct (year_of_token tok Hshape) as (y0 & Hy0 & ->).
    assert (Hmatch0 : Spec.year_match label pre y0).
    { apply year_match_here. by exists tok, rest. }
    assert (Hfirst : ∀ pre' y', Spec.year_match label pre' y' →
                                (length pre ≤ length pre')%nat).
    { intros pre' y' (tok' & rest' & Heq' & Hm' & _)%year_match_here.
      destruct (Nat.le_gt_cases (length pre) (length pre')) as [|Hlt]; [done|].
      specialize (Hleft pre' rest' Heq' Hlt).
      rewrite char_before_None in Hleft. congruence. }
    intros y. split.
    + intros [= <-]. by exists pre.
    + intros (pre1 & Hm1 & Hleft1). f_equal.
      pose proof (Hfirst _ _ Hm1) as Hle1.
      pose proof (Hleft1 _ _ Hmatch0) as Hle0.
      apply year_match_here in Hm1 as (tok1 & rest1 & Heq1 & Hm1 & Hy1).
      assert (Hpre : pre1 = pre ∧ rest1 = rest).
      { rewrite Heq in Heq1. apply app_inj_1 in Heq1 as [-> ->]; [done|lia]. }
      destruct Hpre as [-> ->]. rewrite Hm in Hm1. injection Hm1 as <-.
      by apply (token_year_unique tok).
  - intros y. split; [done|].
    intros (pre & (tok & rest & Heq & Hm & _)%year_match_here & _).
    pose proof (search_from_None _ _ Hs pre rest Heq) as Hn.
    rewrite char_before_None in Hn. congruence.
  - apply search_from_Some in Hs as (pre & rest & Heq & Hm & Hleft).
    rewrite char_before_None in Hm.
    assert (Hshape : Spec.is_year4 tok ∨ Spec.is_fy tok).
    { apply match_here_spec in Hm as (post & _ & _ & _ & H). exact H. }
    destruct (year_of_token tok Hshape) as (y0 & Hy0 & ->).
    split; [done|]. intros Hnone. exfalso. apply (Hnone pre y0).
    apply year_match_here. by exists tok, rest.
  - split; [|done]. intros _ pre y (tok & rest & Heq & Hm & _)%year_match_here.
    pose proof (search_from_None _ _ Hs pre rest Heq) as Hn.
    rewrite char_before_None in Hn. congruence.
Qed.

Lemma extract_year_witness :
  TableExtractor._extract_year "Restated FY 22 (2023)" = Some 2022.
Proof.
  destruct (extract_year_leftmost_token "Restated FY 22 (2023)") as [Hyear _].
  apply Hyear. clear Hyear.
  exists (Text.chars "Restated "). split.
  - exists (Text.chars "FY 22"), (Text.chars " (2023)").
    split_and!; [reflexivity..|].
    right. exists [" "%char], "2"%char, "2"%char.
    split_and!; try reflexivity. by repeat constructor.
  - intros pre' y' (tok & post & Heq & Hb1 & _ & Htok).
    destruct (Nat.le_gt_cases (length (Text.chars "Restated ")) (length pre'))
      as [|Hlt]; [done|]. exfalso.
    change (Text.chars "Restated FY 22 (2023)")
      with (Text.chars "Restated " ++ Text.chars "FY 22 (2023)") in Heq.
    assert (Hc : ∃ c rest, tok = c :: rest ∧ (c = "2" ∨ c = "F")%char).
    { destruct Htok as [(d1 & d2 & _ & _ & -> & _)|(ws & d1 & d2 & _ & _ & _ & -> & _)];
        eexists _, _; eauto. }
    destruct Hc as (c & rest & -> & Hc).
    vm_compute in Heq, Hlt.
    do 9 (destruct pre' as [|? pre'];
          [injection Heq; intros; subst; destruct Hc; discriminate|
           injection Heq as <- Heq]).
    vm_compute in Hlt. lia.
Defined.

(** ** Metric time series ([extract_metric_timeseries]) *)

Section Series.
Import Text TableExtractor.

Lemma extract_year_search (label : string) :
  match search_from None (chars label) with
  | Some tok => ∃ y, _extract_year label = Some y
                     ∧ (Spec.year4_token tok y ∨ Spec.fy_token tok y)
  | None => _extract_year label = None
  end.
Proof.
  rewrite extract_year_of_search.
  destruct (search_from None (chars label)) as [tok|] eqn:Hs; [|done].
  apply search_from_Some in Hs as (pre & rest & _ & Hm & _).
  apply match_here_spec in Hm as (post & _ & _ & _ & Hshape).
  destruct (year_of_token tok Hshape) as (y & Hy & ->). by exists y.
Qed.

Lemma is_year_col_extract (col : string) :
  is_year_col col = true ↔ is_Some (_extract_year col).
Proof.
  unfold is_year_col, year_pattern_search.
  rewrite bool_decide_eq_true. pose proof (extract_year_search col) as H.
  destruct (search_from None (chars col)) as [tok|]; simpl.
  - destruct H as (y & -> & _). split; eauto.
  - rewrite H. split; by intros [? ?].
Qed.

Lemma digit_val_nonneg (c : ascii) : is_digit c = true → 0 ≤ digit_val c.
Proof.
  unfold is_digit, in_range, digit_val.
  rewrite andb_true_iff, !N.leb_le. lia.
Qed.

Lemma extract_year_ge_2000 (col : string) (y : Z) :
  _extract_year col = Some y → 2000 ≤ y.
Proof.
  pose proof (extract_year_search col) as H.
  destruct (search_from None (chars col)) as [tok|]; [|congruence].
  destruct H as (y0 & -> & Hy). intros [= <-].
  destruct Hy as [(d1 & d2 & H1 & H2 & -> & ->)
                 |(ws & d1 & d2 & _ & H1 & H2 & _ & ->)].
  - apply digit_val_nonneg in H1, H2. unfold int_of_digits. simpl.
    change (digit_val "2") with 2. change (digit_val "0") with 0. lia.
  - apply digit_val_nonneg in H1, H2. unfold int_of_digits. simpl. lia.
Qed.

Lemma add_cell_year (ts : gmap Z Q) (h : string) (y : Z) (v : Q) :
  _extract_year h = Some y → add_cell ts (h, Some v) = <[y := v]> ts.
Proof.
  intros Hy. unfold add_cell. simpl. rewrite Hy.
  apply extract_year_ge_2000 in Hy. rewrite bool_decide_true; [done|lia].
Qed.

Lemma add_cell_skip (ts : gmap Z Q) (hc : string * option Q) :
  _extract_year hc.1 = None ∨ hc.2 = None → add_cell ts hc = ts.
Proof.
  unfold add_cell. intros [-> | ->]; [done|]. by destruct (_extract_year hc.1).
Qed.

Lemma add_cell_cases (ts : gmap Z Q) (hc : string * option Q) :
  (∃ y v, _extract_year hc.1 = Some y ∧ hc.2 = Some v ∧ add_cell ts hc = <[y := v]> ts)
  ∨ ((_extract_year hc.1 = None ∨ hc.2 = None) ∧ add_cell ts hc = ts).
Proof.
  destruct hc as [h [v|]]; simpl.
  - destruct (_extract_year h) as [y|] eqn:Hy.
    + left. exists y, v. by rewrite (add_cell_year ts h y v Hy).
    + right. split; [by left|]. apply add_cell_skip. by left.
  - right. split; [by right|]. apply add_cell_skip. by right.
Qed.

Lemma fold_add_cell_snoc (l : list (string * option Q)) (x : string * option Q)
    (ts : gmap Z Q) :
  fold_left add_cell (l ++ [x]) ts = add_cell (fold_left add_cell l ts) x.
Proof. by rewrite fold_left_app. Qed.

(** The series of a row, year by year: the number of the rightmost column of
    that year whose cell is not missing. *)
Lemma row_timeseries_lookup (hs : list string) (cells : list (option Q)) (y : Z) (v : Q) :
  row_timeseries hs cells !! y = Some v ↔ Spec.last_cell_of_year hs cells y v.
Proof.
  unfold row_timeseries, Spec.last_cell_of_year.
  generalize (zip hs cells). intros l.
  induction l as [|x l IH] using rev_ind.
  - simpl. rewrite lookup_empty. split; [done|].
    intros (i & h & Hi & _). by rewrite lookup_nil in Hi.
  - rewrite fold_add_cell_snoc.
    destruct (add_cell_cases (fold_left add_cell l ∅) x)
      as [(y' & v' & Hy' & Hv' & ->)|[Hskip ->]].
    + destruct x as [h c]. simpl in Hy', Hv'. subst c.
      destruct (decide (y' = y)) as [->|Hne].
      * rewrite lookup_insert_eq. split.
        -- intros [= ->]. exists (length l), h. split_and!.
           ++ by rewrite lookup_app_r, Nat.sub_diag by lia.
           ++ done.
           ++ intros j h' w Hj Hlook. apply lookup_lt_Some in Hlook.
              rewrite length_app in Hlook. simpl in Hlook. lia.
        -- intros (i & h0 & Hi & Hy0 & Hlast).
           destruct (decide (i = length l)) as [->|Hi'].
           ++ rewrite lookup_app_r, Nat.sub_diag in Hi by lia. by injection Hi as _ ->.
           ++ exfalso. assert (Hlt : (i < length l)%nat).
              { apply lookup_lt_Some in Hi. rewrite length_app in Hi. simpl in Hi. lia. }
              apply (Hlast (length l) h v' Hlt); [|done].
              by rewrite lookup_app_r, Nat.sub_diag by lia.
      * rewrite lookup_insert_ne by done. rewrite IH. split.
        -- intros (i & h0 & Hi & Hy0 & Hlast). exists i, h0.
           pose proof (lookup_lt_Some _ _ _ Hi) as Hlt. split_and!.
           ++ by rewrite lookup_app_l.
           ++ done.
           ++ intros j h' w Hj Hlook.
              destruct (decide (j < length l)%nat) as [Hjl|Hjl].
              ** rewrite lookup_app_l in Hlook by done. by apply (Hlast j h' w).
              ** assert (j = length l) as ->.
                 { apply lookup_lt_Some in Hlook. rewrite length_app in Hlook.
                   simpl in Hlook. lia. }
                 rewrite lookup_app_r, Nat.sub_diag in Hlook by lia.
                 injection Hlook as <- _. congruence.
        -- intros (i & h0 & Hi & Hy0 & Hlast).
           assert (Hlt : (i < length l)%nat).
           { destruct (decide (i < length l)%nat) as [|Hge]; [done|]. exfalso.
             assert (i = length l) as ->.
             { apply lookup_lt_Some in Hi. rewrite length_app in Hi. simpl in Hi. lia. }
             rewrite lookup_app_r, Nat.sub_diag in Hi by lia.
             injection Hi as -> _. congruence. }
           exists i, h0. rewrite lookup_app_l in Hi by done. split_and!; try done.
           intros j h' w Hj Hlook. apply (Hlast j h' w Hj).
           rewrite lookup_app_l; [done|]. by apply lookup_lt_Some in Hlook.
    + rewrite IH. split.
      * intros (i & h0 & Hi & Hy0 & Hlast). exists i, h0.
        pose proof (lookup_lt_Some _ _ _ Hi) as Hlt. split_and!.
        -- by rewrite lookup_app_l.
        -- done.
        -- intros j h' w Hj Hlook.
           destruct (decide (j < length l)%nat) as [Hjl|Hjl].
           ++ rewrite lookup_app_l in Hlook by done. by apply (Hlast j h' w).
           ++ assert (j = length l) as ->.
              { apply lookup_lt_Some in Hlook. rewrite length_app in Hlook.
                simpl in Hlook. lia. }
              rewrite lookup_app_r, Nat.sub_diag in Hlook by lia.
              injection Hlook as ->. simpl in Hskip.
              destruct Hskip as [Hskip|Hskip]; congruence.
      * intros (i & h0 & Hi & Hy0 & Hlast).
        assert (Hlt : (i < length l)%nat).
        { destruct (decide (i < length l)%nat) as [|Hge]; [done|]. exfalso.
          assert (i = length l) as ->.
          { apply lookup_lt_Some in Hi. rewrite length_app in Hi. simpl in Hi. lia. }
          rewrite lookup_app_r, Nat.sub_diag in Hi by lia.
          injection Hi as ->. simpl in Hskip.
          destruct Hskip as [Hskip|Hskip]; congruence. }
        exists i, h0. rewrite lookup_app_l in Hi by done. split_and!; try done.
        intros j h' w Hj Hlook. apply (Hlast j h' w Hj).
        rewrite lookup_app_l; [done|]. by apply lookup_lt_Some in Hlook.
Qed.

End Series.

Section Scan.
Import Text TableExtractor.

Lemma row_timeseries_empty (hs : list string) (cells : list (option Q)) :
  row_timeseries hs cells = ∅
  ↔ ∀ h v, (h, Some v) ∈ zip hs cells → _extract_year h = None.
Proof.
  unfold row_timeseries. generalize (zip hs cells). intros l.
  induction l as [|x l IH] using rev_ind.
  - simpl. split; [|done]. intros _ h v Hin. by apply elem_of_nil in Hin.
  - rewrite fold_add_cell_snoc.
    destruct (add_cell_cases (fold_left add_cell l ∅) x)
      as [(y & v & Hy & Hv & ->)|[Hskip ->]].
    + split.
      * intros H. by apply insert_non_empty in H.
      * intros H. exfalso. destruct x as [h c]. simpl in Hy, Hv. subst c.
        rewrite (H h v) in Hy; [done|]. apply elem_of_app. right. by left.
    + rewrite IH. split.
      * intros H h v [Hin|Hin]%elem_of_app; [by apply (H h v)|].
        apply list_elem_of_singleton in Hin. subst x. simpl in Hskip.
        by destruct Hskip.
      * intros H h v Hin. apply (H h v). apply elem_of_app. by left.
Qed.

Lemma scan_patterns_cases (patterns : list string) (row_label_lower : string)
    (timeseries : gmap Z Q) :
  scan_patterns patterns row_label_lower timeseries
  = if existsb (fun pattern => str_in pattern row_label_lower) patterns
       && bool_decide (timeseries ≠ ∅)
    then Some timeseries else None.
Proof.
  induction patterns as [|p ps IH]; [done|]. cbn [scan_patterns existsb].
  rewrite IH. destruct (str_in p row_label_lower); simpl; [|done].
  by destruct (bool_decide (timeseries ≠ ∅)); rewrite ?andb_false_r.
Qed.

(** On any frame the scan returns the series of the first row that matches
    and whose series is not empty. *)
Lemma scan_rows_skip (patterns hs : list string)
    (before rs : list (label * list (option Q))) :
  Forall (fun r => Spec.row_matches patterns r = false ∨ row_timeseries hs r.2 = ∅) before →
  scan_rows patterns hs (before ++ rs) = scan_rows patterns hs rs.
Proof.
  induction 1 as [|[lbl cells] before Hr _ IH]; [done|].
  cbn [app scan_rows]. rewrite scan_patterns_cases.
  unfold Spec.row_matches in Hr. simpl in Hr.
  destruct Hr as [-> | ->]; [done|].
  rewrite bool_decide_false by (by intros ?). by rewrite andb_false_r.
Qed.

Lemma scan_rows_hit (patterns hs : list string) (r : label * list (option Q))
    (rs : list (label * list (option Q))) :
  Spec.row_matches patterns r = true → row_timeseries hs r.2 ≠ ∅ →
  scan_rows patterns hs (r :: rs) = row_timeseries hs r.2.
Proof.
  destruct r as [lbl cells]. unfold Spec.row_matches. simpl. intros Hm Hne.
  rewrite scan_patterns_cases, Hm. by rewrite bool_decide_true.
Qed.

Lemma scan_rows_none (patterns hs : list string) (rs : list (label * list (option Q))) :
  Forall (fun r => Spec.row_matches patterns r = false ∨ row_timeseries hs r.2 = ∅) rs →
  scan_rows patterns hs rs = ∅.
Proof.
  intros H. rewrite <- (app_nil_r rs). by rewrite scan_rows_skip.
Qed.

Lemma extract_metric_scan (df : DataFrame (option Q)) (metric_name : string) :
  extract_metric_timeseries (Some df) metric_name
  = scan_rows (Spec.aliases metric_name) (headers df) (rows df).
Proof.
  unfold extract_metric_timeseries, df_empty, Spec.aliases.
  by destruct (rows df).
Qed.

(** In a processed frame a series is empty only where all are. *)
Lemma processed_series (df : DataFrame (option Q)) :
  Spec.processed df →
  (∀ r, r ∈ rows df → row_timeseries (headers df) r.2 ≠ ∅)
  ∨ (∀ r, r ∈ rows df → row_timeseries (headers df) r.2 = ∅).
Proof.
  intros [Hrows [Hyear|Hnone]].
  - left. intros r Hr Hempty. destruct (Hrows r Hr) as (h & v & Hin).
    rewrite row_timeseries_empty in Hempty. specialize (Hempty h v Hin).
    apply elem_of_zip_l in Hin. destruct (Hyear h Hin) as [y Hy]. congruence.
  - right. intros r _. apply row_timeseries_empty. intros h v Hin.
    apply Hnone. by apply elem_of_zip_l in Hin.
Qed.

End Scan.

Section Processed.
Import Text TableExtractor.
Context {A : Type}.
Variable to_numeric : A → option Q.

Lemma zip_select_cells (keep : string → bool) (hs : list string) (cells : list A) :
  zip (filter (fun col => keep col = true) hs) (select_cells keep hs cells)
  = filter (fun hc : string * A => keep hc.1 = true) (zip hs cells).
Proof.
  unfold select_cells. revert cells.
  induction hs as [|h hs IH]; intros cells; [done|].
  destruct cells as [|c cells].
  { simpl. rewrite filter_nil. simpl. by destruct (filter _ (h :: hs)). }
  cbn [zip zip_with]. destruct (keep h) eqn:Hh.
  - rewrite (filter_cons_True _ h) by done.
    rewrite (filter_cons_True _ (h, c)) by done.
    cbn [fmap list_fmap zip_with snd]. f_equal. apply IH.
  - rewrite (filter_cons_False _ h) by (simpl; congruence).
    rewrite (filter_cons_False _ (h, c)) by (simpl; congruence).
    apply IH.
Qed.

Lemma zip_fmap_cells {B C} (g : B → C) (hs : list string) (cells : list B) :
  zip hs (g <$> cells) = (fun hc : string * B => (hc.1, g hc.2)) <$> zip hs cells.
Proof.
  revert cells. induction hs as [|h hs IH]; intros [|c cells]; try done.
  cbn [fmap list_fmap zip zip_with]. simpl. f_equal. apply IH.
Qed.

Lemma process_headers (df : DataFrame A) :
  (∀ h, h ∈ headers (_process_financial_table to_numeric df) → is_Some (_extract_year h))
  ∨ (∀ h, h ∈ headers (_process_financial_table to_numeric df) → _extract_year h = None).
Proof.
  unfold _process_financial_table. cbv zeta. cbn [headers].
  destruct (filter (fun col => is_year_col col = true) (headers df)) as [|c cs] eqn:Hy.
  - right. intros h Hh. apply list_elem_of_filter in Hh as [_ Hh].
    destruct (_extract_year h) as [y|] eqn:Hyear; [|done]. exfalso.
    assert (Hin : h ∈ filter (fun col => is_year_col col = true) (headers df)).
    { apply list_elem_of_filter. split; [|done].
      apply is_year_col_extract. by rewrite Hyear. }
    rewrite Hy in Hin. by apply elem_of_nil in Hin.
  - left. intros h Hh. apply list_elem_of_filter in Hh as [Hh _].
    by apply is_year_col_extract.
Qed.

Lemma process_rows (df : DataFrame A) (r : label * list (option Q)) :
  r ∈ rows (_process_financial_table to_numeric df) →
  ∃ h v, (h, Some v) ∈ zip (headers (_process_financial_table to_numeric df)) r.2.
Proof.
  unfold _process_financial_table. cbv zeta. cbn [headers rows].
  set (keep := match filter (fun col => is_year_col col = true) (headers df) with
               | [] => fun _ : string => true
               | _ :: _ => is_year_col
               end).
  intros Hr. apply list_elem_of_fmap in Hr as ([lbl cells] & -> & Hr).
  apply list_elem_of_filter in Hr as [Hnum Hr]. cbn [fst snd] in *.
  apply list_elem_of_fmap in Hr as ([lbl0 cells0] & [= -> ->] & _).
  cbn [fst snd] in *.
  apply existsb_exists in Hnum as (c & Hc & Hsome).
  apply bool_decide_eq_true in Hsome as [v ->].
  rewrite zip_fmap_cells, zip_select_cells.
  apply list_elem_of_In in Hc.
  apply list_elem_of_fmap in Hc as (c0 & Hv & Hc0).
  unfold select_cells in Hc0.
  apply list_elem_of_fmap in Hc0 as ([h c1] & -> & Hin). simpl in Hv.
  exists h, v. apply list_elem_of_fmap. exists (h, c1). simpl. by rewrite Hv.
Qed.

(** Every frame that [_process_financial_table] returns is processed. *)
Lemma process_processed (df : DataFrame A) :
  Spec.processed (_process_financial_table to_numeric df).
Proof. split; [apply process_rows|apply process_headers]. Qed.

End Processed.

(** C1: every frame returned by [_process_financial_table] is processed, and
    on a processed frame [extract_metric_timeseries] takes the first row, top
    to bottom, whose lowercased label contains an alias of the metric, and
    returns the series of that row alone, whatever the rows below it are; the
    series gives a year the number of the (rightmost) column of that year
    whose cell is not missing, and nothing for a missing cell; the result is
    empty when no row matches, and when the selected row has no number under
    a year column. *)
Theorem extract_metric_first_matching_row :
  (∀ (A : Type) (to_numeric : A → option Q) (raw : TableExtractor.DataFrame A),
     Spec.processed (TableExtractor._process_financial_table to_numeric raw))
  ∧ (∀ (df : TableExtractor.DataFrame (option Q)) (metric_name : string) before r after,
       Spec.processed df →
       TableExtractor.rows df = before ++ r :: after →
       Forall (fun r' => Spec.row_matches (Spec.aliases metric_name) r' = false) before →
       Spec.row_matches (Spec.aliases metric_name) r = true →
       TableExtractor.extract_metric_timeseries (Some df) metric_name
       = TableExtractor.row_timeseries (TableExtractor.headers df) r.2)
  ∧ (∀ (df : TableExtractor.DataFrame (option Q)) (metric_name : string),
       Forall (fun r => Spec.row_matches (Spec.aliases metric_name) r = false)
              (TableExtractor.rows df) →
       TableExtractor.extract_metric_timeseries (Some df) metric_name = ∅)
  ∧ (∀ hs cells y v,
       TableExtractor.row_timeseries hs cells !! y = Some v
       ↔ Spec.last_cell_of_year hs cells y v)
  ∧ (∀ hs cells,
       TableExtractor.row_timeseries hs cells = ∅
       ↔ ∀ h v, (h, Some v) ∈ zip hs cells → TableExtractor._extract_year h = None)
  ∧ (∀ metric_name, TableExtractor.extract_metric_timeseries None metric_name = ∅).
Proof.
  split_and!.
  - intros A to_numeric raw. apply process_processed.
  - intros df metric_name before r after Hproc Hrows Hbefore Hr.
    rewrite extract_metric_scan, Hrows.
    rewrite scan_rows_skip by (eapply Forall_impl; [exact Hbefore|]; by left).
    destruct (processed_series df Hproc) as [Hfull|Hempty].
    + apply scan_rows_hit; [done|]. apply Hfull. rewrite Hrows.
      apply elem_of_app. right. by left.
    + rewrite (Hempty r) by (rewrite Hrows; apply elem_of_app; right; by left).
      apply scan_rows_none. apply Forall_forall. intros r' Hr'. right.
      apply Hempty. rewrite Hrows. apply elem_of_app. by right.
  - intros df metric_name Hnone. rewrite extract_metric_scan.
    apply scan_rows_none. eapply Forall_impl; [exact Hnone|]. by left.
  - apply row_timeseries_lookup.
  - apply row_timeseries_empty.
  - reflexivity.
Qed.

Lemma extract_metric_witness :
  TableExtractor.extract_metric_timeseries
    (Some (TableExtractor._process_financial_table id
       (TableExtractor.mkDataFrame "Particulars" ["FY 2021"; "Notes"; "FY 2022"; "FY 2023"]
          [ (TableExtractor.LStr "Statement of Profit and Loss", [None; None; None; None]);
            (TableExtractor.LStr " Total Revenue ", [Some 800%Q; Some 7%Q; None; Some 1000%Q]);
            (TableExtractor.LStr "EBITDA", [Some 150%Q; None; Some 180%Q; Some 200%Q]);
            (TableExtractor.LStr "Revenue from exports", [Some 80%Q; None; Some 90%Q; Some 100%Q]) ])))
    "revenue"
  = TableExtractor.row_timeseries ["FY 2021"; "FY 2022"; "FY 2023"]
      [Some 800%Q; None; Some 1000%Q].
Proof.
  destruct extract_metric_first_matching_row as (Hproc & Hfirst & _).
  refine (Hfirst (TableExtractor._process_financial_table id _) "revenue" []
            (TableExtractor.LStr "Total Revenue", [Some 800%Q; None; Some 1000%Q])
            [ (TableExtractor.LStr "EBITDA", [Some 150%Q; Some 180%Q; Some 200%Q]);
              (TableExtractor.LStr "Revenue from exports", [Some 80%Q; Some 90%Q; Some 100%Q]) ]
            _ _ _ _).
  - apply Hproc.
  - reflexivity.
  - constructor.
  - reflexivity.
Defined.

Example extract_metric_ex :
  TableExtractor.extract_metric_timeseries
    (Some (TableExtractor.mkDataFrame "Particulars" ["FY 2021"; "FY 2022"; "FY 2023"]
       [ (TableExtractor.LStr "Revenue", [Some 800%Q; Some 900%Q; Some 1000%Q]);
         (TableExtractor.LStr "EBITDA", [Some 150%Q; Some 180%Q; Some 200%Q]);
         (TableExtractor.LStr "PAT", [Some 80%Q; Some 100%Q; Some 120%Q]) ]))
    "revenue"
  = <[2021 := 800%Q]> (<[2022 := 900%Q]> (<[2023 := 1000%Q]> ∅))
  ∧ TableExtractor.extract_metric_timeseries
      (Some (TableExtractor.mkDataFrame "Particulars" ["FY 2021"; "FY 2022"]
         [ (TableExtractor.LStr "Revenue", [Some 800%Q; None]) ]))
      "revenue"
    = <[2021 := 800%Q]> ∅
  ∧ TableExtractor.extract_metric_timeseries
      (Some (TableExtractor.mkDataFrame "Particulars" ["FY2021"; "Q1"]
         [ (TableExtractor.LStr "Revenue", [Some 800%Q; Some 900%Q]) ]))
      "revenue"
    = ∅.
Proof. repeat split; vm_compute; reflexivity. Qed.

(** Outside the processed frames the scan goes on past a matching row whose
    series is empty: here the first "revenue" row holds no number and the
    row below it is returned. *)
Example extract_metric_unprocessed_ex :
  TableExtractor.extract_metric_timeseries
    (Some (TableExtractor.mkDataFrame "Particulars" ["FY 2021"; "FY 2022"]
       [ (TableExtractor.LStr "Revenue", [None; None]);
         (TableExtractor.LStr "Revenue from operations", [Some 800%Q; Some 900%Q]) ]))
    "revenue"
  = <[2021 := 800%Q]> (<[2022 := 900%Q]> ∅).
Proof. vm_compute. reflexivity. Qed.

(** * Further properties of the engine *)

(** ** Rounding and the range of the scores *)

Section Rounding.
Import Scorer.

Lemma lt_false (x y : Q) : lt x y = false ↔ (y <= x)%Q.
Proof. unfold lt. rewrite negb_false_iff. apply Qle_bool_iff. Qed.

Lemma gt_false (x y : Q) : gt x y = false ↔ (x <= y)%Q.
Proof. unfold gt. rewrite negb_false_iff. apply Qle_bool_iff. Qed.

(** [round1] picks a tenth [n / 10] next to its argument. *)
Lemma round1_cases (x : Q) :
  ∃ n : Z,
    round1 x = (inject_Z n / 10)%Q
    ∧ (inject_Z n - (1 # 2) <= x * 10)%Q ∧ (x * 10 <= inject_Z n + (1 # 2))%Q
    ∧ Qfloor (x * 10) ≤ n
    ∧ (n = Qfloor (x * 10)
       ∨ n = Qfloor (x * 10) + 1 ∧ (inject_Z (Qfloor (x * 10)) + (1 # 2) <= x * 10)%Q).
Proof.
  unfold round1. cbv zeta.
  set (t := (x * 10)%Q). set (f := Qfloor t).
  pose proof (Qfloor_le t) as Hlo. pose proof (Qlt_floor t) as Hhi.
  fold f in Hlo, Hhi. rewrite inject_Z_plus in Hhi.
  change (inject_Z 1) with 1%Q in Hhi.
  destruct (lt (t - inject_Z f) (1 # 2)) eqn:H1;
    [apply lt_spec in H1 | apply lt_false in H1].
  { exists f. split_and!; [done|lra|lra|lia|by left]. }
  destruct (gt (t - inject_Z f) (1 # 2)) eqn:H2;
    [apply gt_spec in H2 | apply gt_false in H2].
  { exists (f + 1). rewrite inject_Z_plus. change (inject_Z 1) with 1%Q.
    split_and!; [done|lra|lra|lia|right; split; [done|lra]]. }
  destruct (Z.even f).
  - exists f. split_and!; [done|lra|lra|lia|by left].
  - exists (f + 1). rewrite inject_Z_plus. change (inject_Z 1) with 1%Q.
    split_and!; [done|lra|lra|lia|right; split; [done|lra]].
Qed.

Lemma round1_between (x : Q) (a b : Z) :
  (inject_Z a / 10 <= x)%Q → (x <= inject_Z b / 10)%Q →
  (inject_Z a / 10 <= round1 x)%Q ∧ (round1 x <= inject_Z b / 10)%Q.
Proof.
  intros Ha Hb.
  destruct (round1_cases x) as (n & -> & _ & _ & Hfn & Hn).
  unfold Qdiv in *. change (/ 10)%Q with (1 # 10)%Q in *.
  assert (Hat : (inject_Z a <= x * 10)%Q) by lra.
  assert (Hbt : (x * 10 <= inject_Z b)%Q) by lra.
  pose proof (Qfloor_resp_le _ _ Hat) as Haf. rewrite Qfloor_Z in Haf.
  pose proof (Qfloor_resp_le _ _ Hbt) as Hbf. rewrite Qfloor_Z in Hbf.
  assert (Hnb : n ≤ b).
  { destruct Hn as [->|[-> Hhalf]]; [done|].
    destruct (Z.eq_dec (Qfloor (x * 10)) b) as [Heq|]; [|lia].
    rewrite Heq in Hhalf. lra. }
  assert (Han : a ≤ n) by lia.
  rewrite Zle_Qle in Han, Hnb. lra.
Qed.

End Rounding.

(** [round(x, 1)] moves its argument by at most a twentieth, and keeps it
    between any two tenths that enclose it. *)
Theorem round1_accuracy (x : Q) :
  (Scorer.round1 x - (1 # 20) <= x)%Q ∧ (x <= Scorer.round1 x + (1 # 20))%Q
  ∧ ∀ a b : Z, (inject_Z a / 10 <= x)%Q → (x <= inject_Z b / 10)%Q →
               (inject_Z a / 10 <= Scorer.round1 x)%Q
               ∧ (Scorer.round1 x <= inject_Z b / 10)%Q.
Proof.
  split_and!.
  - destruct (round1_cases x) as (n & -> & H1 & H2 & _).
    unfold Qdiv. change (/ 10)%Q with (1 # 10)%Q. lra.
  - destruct (round1_cases x) as (n & -> & H1 & H2 & _).
    unfold Qdiv. change (/ 10)%Q with (1 # 10)%Q. lra.
  - apply round1_between.
Qed.

Lemma round1_accuracy_witness :
  (inject_Z 594 / 10 <= Scorer.round1 (5945 # 100))%Q
  ∧ (Scorer.round1 (5945 # 100) <= inject_Z 595 / 10)%Q.
Proof.
  apply (round1_accuracy (5945 # 100)); apply Qle_bool_iff; reflexivity.
Defined.

Lemma score_financials_bounds (fd : Scorer.FinancialData) :
  (40 <= Scorer._score_financials fd)%Q ∧ (Scorer._score_financials fd <= 90)%Q.
Proof.
  destruct fd as [bm gm rt].
  unfold Scorer._score_financials;
    cbn [Scorer.basic_metrics Scorer.growth_metrics Scorer.ratios].
  generalize (mjoin (default ∅ gm !! "revenue_cagr_3y")).
  generalize (default [] (default ∅ bm !! "ebitda_margin")).
  generalize (default [] (default ∅ rt !! "debt_to_equity")).
  intros dd md c. cbv zeta.
  destruct (Scorer.truthy c); destruct md; destruct dd.
  all: repeat match goal with
       | |- context [if Scorer.gt ?x ?y then _ else _] => destruct (Scorer.gt x y)
       | |- context [if Scorer.lt ?x ?y then _ else _] => destruct (Scorer.lt x y)
       end.
  all: split; apply Qle_bool_iff; vm_compute; reflexivity.
Qed.

(** The financial score stays between 40 and 90 on every input, so that the
    final clamp to [0, 100] never cuts; both ends are reached. *)
Theorem score_financials_range (fd : Scorer.FinancialData) :
  (40 <= Scorer._score_financials fd)%Q ∧ (Scorer._score_financials fd <= 90)%Q
  ∧ Scorer._score_financials
      (Scorer.mkFinancialData None None (Some {["debt_to_equity" := [(2023, 3%Q)]]}))
    = 40%Q
  ∧ Scorer._score_financials
      (Scorer.mkFinancialData
         (Some {["ebitda_margin" := [(2023, 25%Q)]]})
         (Some {["revenue_cagr_3y" := Some 30%Q]})
         (Some {["debt_to_equity" := [(2023, 0.2%Q)]]}))
    = 90%Q.
Proof.
  destruct (score_financials_bounds fd) as [Hlo Hhi].
  split_and!; [exact Hlo|exact Hhi|vm_compute; reflexivity..].
Qed.

Section RiskRange.
Import RiskAnalyzer.

Lemma severity_weight_range (r : Risk) :
  1 ≤ Spec.severity_weight r ≤ 3.
Proof.
  unfold Spec.severity_weight.
  destruct (severity r) as [s|]; [|lia].
  destruct (decide (s = "High")) as [->|]; [lia|].
  destruct (decide (s = "Medium")) as [->|]; [lia|].
  repeat case_match; lia.
Qed.

Lemma total_weight_range (l : list Risk) :
  Z.of_nat (length l) ≤ Spec.total_weight l ≤ 3 * Z.of_nat (length l).
Proof.
  unfold Spec.total_weight.
  induction l as [|r l IH]; cbn [fmap list_fmap foldr length]; [lia|].
  pose proof (severity_weight_range r). rewrite Nat2Z.inj_succ. lia.
Qed.

Lemma aggregate_score_range (l : list Risk) :
  l ≠ [] →
  (100 # 3 <= Spec.aggregate_score l)%Q ∧ (Spec.aggregate_score l <= 100)%Q.
Proof.
  intros Hne. unfold Spec.aggregate_score, Spec.average_weight.
  destruct l as [|r l]; [done|].
  pose proof (total_weight_range (r :: l)) as [Hlo Hhi].
  set (n := Z.of_nat (length (r :: l))) in *.
  set (w := Spec.total_weight (r :: l)) in *.
  assert (Hn : 0 < n) by (subst n; simpl; lia).
  assert (Hq : (0 < inject_Z n)%Q) by (unfold Qlt; simpl; lia).
  assert (Hlo' : (1 <= inject_Z w / inject_Z n)%Q).
  { apply Qle_shift_div_l; [done|]. rewrite Qmult_1_l, <- Zle_Qle. done. }
  assert (Hhi' : (inject_Z w / inject_Z n <= 3)%Q).
  { apply Qle_shift_div_r; [done|].
    change 3%Q with (inject_Z 3). rewrite <- inject_Z_mult, <- Zle_Qle. done. }
  generalize dependent (inject_Z w / inject_Z n)%Q. intros a Ha1 Ha2.
  unfold Qdiv. change (/ 3)%Q with (1 # 3)%Q.
  split.
  - apply Q.min_glb; lra.
  - apply Q.le_min_r.
Qed.

End RiskRange.

(** The aggregate risk score is 0 when the severity analysis holds no record
    and lies between 33 and 100 as soon as it holds one. The lower bound is
    the whole number below the least value, a third of 100, so that it does
    not depend on how the division by 3 is rounded. *)
Theorem get_risk_score_range (sa : list (string * RiskAnalyzer.CategoryAnalysis)) :
  (Spec.all_risks sa = [] → RiskAnalyzer.get_risk_score sa = 0%Q)
  ∧ (Spec.all_risks sa ≠ [] →
     (33 <= RiskAnalyzer.get_risk_score sa)%Q
     ∧ (RiskAnalyzer.get_risk_score sa <= 100)%Q)
  ∧ (0 <= RiskAnalyzer.get_risk_score sa)%Q ∧ (RiskAnalyzer.get_risk_score sa <= 100)%Q.
Proof.
  rewrite get_risk_score_aggregate.
  destruct (Spec.all_risks sa) as [|r l] eqn:Hl.
  - split_and!; [done|done|simpl; lra|simpl; lra].
  - destruct (aggregate_score_range (r :: l)) as [H1 H2]; [done|].
    split_and!; [done|intros _; split; lra|lra|lra].
Qed.

Lemma get_risk_score_range_witness :
  (33 <= RiskAnalyzer.get_risk_score
     [ ("other", RiskAnalyzer.mkCategoryAnalysis
                   [RiskAnalyzer.mkRisk "Weather" "Monsoon" (Some "other") (Some "Low")] 1 ∅) ])%Q
  ∧ (RiskAnalyzer.get_risk_score
     [ ("other", RiskAnalyzer.mkCategoryAnalysis
                   [RiskAnalyzer.mkRisk "Weather" "Monsoon" (Some "other") (Some "Low")] 1 ∅) ]
     <= 100)%Q.
Proof.
  destruct (get_risk_score_range
              [ ("other", RiskAnalyzer.mkCategoryAnalysis
                   [RiskAnalyzer.mkRisk "Weather" "Monsoon" (Some "other") (Some "Low")] 1 ∅) ])
    as (_ & Hrange & _).
  apply Hrange. discriminate.
Defined.

(** ** Component scores and the overall score *)

Section Components.
Import Scorer.

Lemma score_risk_None (ra : gmap string value) :
  _score_risk ra = None
  ↔ ∃ v, ra !! "risk_score" = Some v ∧ ∀ q, v ≠ VNum q.
Proof.
  unfold _score_risk. destruct (bool_decide_reflect (ra = ∅)) as [->|Hne].
  - rewrite lookup_empty. split; [done|]. by intros (v & ? & _).
  - destruct (ra !! "risk_score") as [[q| |]|]; simpl.
    + split; [done|]. intros (v & [= <-] & Hv). by destruct (Hv q).
    + split; [|done]. intros _. eexists. split; [done|]. done.
    + split; [|done]. intros _. eexists. split; [done|]. done.
    + split; [done|]. by intros (v & ? & _).
Qed.

Lemma score_risk_usable (ra : gmap string value) :
  Spec.risk_score_usable ra →
  ∃ risk, _score_risk ra = Some risk ∧ (0 <= risk)%Q ∧ (risk <= 100)%Q.
Proof.
  unfold Spec.risk_score_usable, _score_risk.
  destruct (bool_decide (ra = ∅)).
  { intros _. exists 50%Q. split; [done|]. split; apply Qle_bool_iff; reflexivity. }
  destruct (ra !! "risk_score") as [[r| |]|]; simpl; try done.
  - intros [H1 H2]. exists (100 - r)%Q. split; [done|]. lra.
  - intros _. exists (100 - 50)%Q. split; [done|].
    split; apply Qle_bool_iff; reflexivity.
Qed.

Lemma overall_formula (scores : gmap string Q) :
  calculate_overall_score scores
  = round1 (0 + default 50 (scores !! "business_score") * 0.25
              + default 50 (scores !! "financial_score") * 0.30
              + default 50 (scores !! "industry_score") * 0.20
              + default 50 (scores !! "risk_score") * 0.15
              + default 50 (scores !! "valuation_score") * 0.10)%Q.
Proof. reflexivity. Qed.


End Components.

(** [calculate_scores] fails when the risk analysis has a [risk_score] that
    is no number; whenever it returns, it gives the five component scores and
    nothing else, and each of them lies between 0 and 100 when the risk score
    is missing or is itself between 0 and 100. *)
Theorem calculate_scores_components (analysis : Scorer.Analysis) :
  ((∃ v, default ∅ (Scorer.risks analysis) !! "risk_score" = Some v
         ∧ ∀ q, v ≠ Scorer.VNum q) →
   Scorer.calculate_scores analysis = None)
  ∧ ∀ scores, Scorer.calculate_scores analysis = Some scores →
      dom scores = {[ "business_score"; "financial_score"; "industry_score";
                      "risk_score"; "valuation_score" ]}
      ∧ (Spec.risk_score_usable (default ∅ (Scorer.risks analysis)) →
         Spec.scores_in_range scores).
Proof.
  unfold Scorer.calculate_scores. cbv zeta.
  set (ra := default ∅ (Scorer.risks analysis)).
  set (fin := Scorer._score_financials _).
  split.
  - rewrite <- score_risk_None. intros Hnone. by rewrite Hnone.
  - intros scores Hs.
    destruct (Scorer._score_risk ra) as [risk|] eqn:Hrisk; simpl in Hs; [|done].
    injection Hs as <-. split.
    + rewrite !dom_insert_L, dom_empty_L. set_solver.
    + intros Huse c v Hc.
      destruct (score_risk_usable ra Huse) as (risk' & Hr' & Hr1 & Hr2).
      rewrite Hrisk in Hr'. injection Hr' as <-.
      pose proof (score_financials_bounds
                    (default (Scorer.mkFinancialData None None None)
                             (Scorer.financials analysis))) as [Hf1 Hf2].
      fold fin in Hf1, Hf2.
      repeat (rewrite lookup_insert in Hc; case_decide;
              [injection Hc as <-;
               first [split; apply Qle_bool_iff; reflexivity | lra]|]).
      by rewrite lookup_empty in Hc.
Qed.

Lemma calculate_scores_components_witness :
  Spec.scores_in_range
    (<["valuation_score" := Scorer._score_valuation]>
     (<["risk_score" := (100 - 40)%Q]>
      (<["industry_score" := Scorer._score_industry]>
       (<["financial_score" :=
            Scorer._score_financials (Scorer.mkFinancialData None None None)]>
        (<["business_score" := Scorer._score_business]> ∅))))).
Proof.
  refine (proj2 (proj2 (calculate_scores_components
            (Scorer.mkAnalysis None (Some {["risk_score" := Scorer.VNum 40]}))) _ _) _).
  - reflexivity.
  - split; apply Qle_bool_iff; reflexivity.
Defined.



(** With the component scores that [calculate_scores] computes, the business,
    industry and valuation scores being fixed, the overall score lies between
    48.5 and 78.5 whenever the risk score is missing or between 0 and 100. *)
Theorem pipeline_overall_range (analysis : Scorer.Analysis) (scores : gmap string Q) :
  Scorer.calculate_scores analysis = Some scores →
  Spec.risk_score_usable (default ∅ (Scorer.risks analysis)) →
  (485 # 10 <= Scorer.calculate_overall_score scores)%Q
  ∧ (Scorer.calculate_overall_score scores <= 785 # 10)%Q.
Proof.
  unfold Scorer.calculate_scores. cbv zeta.
  set (ra := default ∅ (Scorer.risks analysis)).
  pose proof (score_financials_bounds
                (default (Scorer.mkFinancialData None None None)
                         (Scorer.financials analysis))) as [Hf1 Hf2].
  set (fin := Scorer._score_financials _) in *.
  intros Hs Huse.
  destruct (score_risk_usable ra Huse) as (risk & Hrisk & Hr1 & Hr2).
  rewrite Hrisk in Hs. simpl in Hs. injection Hs as <-.
  rewrite overall_formula.
  rewrite !lookup_insert. repeat (case_decide; try done). simpl.
  unfold Scorer._score_business, Scorer._score_industry, Scorer._score_valuation.
  set (x := (0 + 70 * 0.25 + fin * 0.30 + 65 * 0.20 + risk * 0.15 + 60 * 0.10)%Q).
  destruct (round1_between x 485 785) as [Hlo Hhi].
  - unfold Qdiv. change (/ 10)%Q with (1 # 10)%Q.
    change (inject_Z 485) with 485%Q. subst x. lra.
  - unfold Qdiv. change (/ 10)%Q with (1 # 10)%Q.
    change (inject_Z 785) with 785%Q. subst x. lra.
  - unfold Qdiv in Hlo, Hhi. change (/ 10)%Q with (1 # 10)%Q in Hlo, Hhi.
    change (inject_Z 485) with 485%Q in Hlo.
    change (inject_Z 785) with 785%Q in Hhi. lra.
Qed.

Lemma pipeline_overall_range_witness :
  ∃ scores,
    Scorer.calculate_scores
      (Scorer.mkAnalysis None (Some {["risk_score" := Scorer.VNum 100]})) = Some scores
    ∧ (485 # 10 <= Scorer.calculate_overall_score scores)%Q
    ∧ (Scorer.calculate_overall_score scores <= 785 # 10)%Q.
Proof.
  eexists. split; [reflexivity|].
  apply (pipeline_overall_range
           (Scorer.mkAnalysis None (Some {["risk_score" := Scorer.VNum 100]}))).
  - reflexivity.
  - split; apply Qle_bool_iff; reflexivity.
Defined.

(** ** How the risk score reaches the recommendation *)

(** The orchestrator stores [get_risk_score] under [risk_score]; the risk
    component of the recommendation is then 100 minus it: 100 when no risk
    record was assessed, and between 0 and 67 as soon as there is one (67 is
    the whole number above the greatest value, two thirds of 100, so that the
    bound does not depend on how the division by 3 is rounded). *)
Theorem risk_component_of_analysis
    (risk_analysis : gmap string Scorer.value)
    (sa : list (string * RiskAnalyzer.CategoryAnalysis)) :
  let stored := <["risk_score" := Scorer.VNum (RiskAnalyzer.get_risk_score sa)]> risk_analysis in
  Scorer._score_risk stored = Some (100 - RiskAnalyzer.get_risk_score sa)%Q
  ∧ (Spec.all_risks sa = [] → Scorer._score_risk stored = Some (100 - 0)%Q)
  ∧ (Spec.all_risks sa ≠ [] →
     (0 <= 100 - RiskAnalyzer.get_risk_score sa)%Q
     ∧ (100 - RiskAnalyzer.get_risk_score sa <= 67)%Q).
Proof.
  intros stored.
  assert (Hscore : Scorer._score_risk stored
                   = Some (100 - RiskAnalyzer.get_risk_score sa)%Q).
  { unfold Scorer._score_risk, stored.
    rewrite bool_decide_false by apply insert_non_empty.
    by rewrite lookup_insert_eq. }
  split_and!.
  - exact Hscore.
  - intros Hnone. rewrite Hscore, get_risk_score_aggregate, Hnone. reflexivity.
  - intros Hsome. rewrite get_risk_score_aggregate.
    destruct (aggregate_score_range (Spec.all_risks sa) Hsome) as [H1 H2]. lra.
Qed.

Lemma risk_component_of_analysis_witness :
  (0 <= 100 - RiskAnalyzer.get_risk_score
           [ ("other", RiskAnalyzer.mkCategoryAnalysis
                [RiskAnalyzer.mkRisk "Weather" "Monsoon" (Some "other") (Some "Low")] 1 ∅) ])%Q
  ∧ (100 - RiskAnalyzer.get_risk_score
           [ ("other", RiskAnalyzer.mkCategoryAnalysis
                [RiskAnalyzer.mkRisk "Weather" "Monsoon" (Some "other") (Some "Low")] 1 ∅) ]
     <= 67)%Q.
Proof.
  destruct (risk_component_of_analysis ∅
              [ ("other", RiskAnalyzer.mkCategoryAnalysis
                   [RiskAnalyzer.mkRisk "Weather" "Monsoon" (Some "other") (Some "Low")] 1 ∅) ])
    as (_ & _ & Hrange).
  apply Hrange. discriminate.
Defined.

(** ** Suitability, strengths and concerns *)

(** [determine_suitability] fails exactly when the mapping has no
    [risk_score]; otherwise its label follows the stance of the overall score,
    whatever stance is passed: "Not suitable" with Avoid, "Aggressive" with
    Aggressive - Speculative, "Moderate" with Neutral, and with
    Conservative - Positive the conservative label only if the risk score is
    at least 70, the moderate one below that. *)
Theorem suitability_follows_stance (scores : gmap string Q) (stance : string) :
  (Scorer.determine_suitability scores stance = None ↔ scores !! "risk_score" = None)
  ∧ ∀ risk, scores !! "risk_score" = Some risk →
      ∃ label,
        Scorer.determine_suitability scores stance = Some label
        ∧ (label = "Not suitable for most retail investors"
           ↔ Scorer.determine_stance (Scorer.calculate_overall_score scores) = "Avoid")
        ∧ (label = "Aggressive investors with high risk tolerance"
           ↔ Scorer.determine_stance (Scorer.calculate_overall_score scores)
             = "Aggressive - Speculative")
        ∧ (label = "Conservative investors seeking quality with lower risk"
           ↔ Scorer.determine_stance (Scorer.calculate_overall_score scores)
             = "Conservative - Positive" ∧ (70 <= risk)%Q)
        ∧ (label = "Moderate investors comfortable with balanced risk-reward"
           ↔ Scorer.determine_stance (Scorer.calculate_overall_score scores) = "Neutral"
             ∨ (Scorer.determine_stance (Scorer.calculate_overall_score scores)
                = "Conservative - Positive" ∧ (risk < 70)%Q)).
Proof.
  unfold Scorer.determine_suitability. cbv zeta.
  generalize (Scorer.calculate_overall_score scores). intros o.
  split.
  - destruct (scores !! "risk_score"); cbn [mbind option_bind]; done.
  - intros risk ->. cbn [mbind option_bind]. eexists. split; [reflexivity|].
    rewrite determine_stance_cases.
    destruct (Scorer.ge o 75) eqn:H75;
      [apply ge_spec in H75 | apply ge_false in H75];
    (destruct (Scorer.ge o 60) eqn:H60;
      [apply ge_spec in H60 | apply ge_false in H60]);
    (destruct (Scorer.ge o 50) eqn:H50;
      [apply ge_spec in H50 | apply ge_false in H50]);
    (destruct (Scorer.ge risk 70) eqn:H70;
      [apply ge_spec in H70 | apply ge_false in H70]);
    try (exfalso; lra); simpl.
    all: split_and!; split; try done; try discriminate.
    all: try (intros [? ?]; first [discriminate | lra]).
    all: try (intros [?|[? ?]]; first [discriminate | lra]).
    all: try (intros _; by left).
    all: try (intros _; by right).
Qed.

Lemma suitability_follows_stance_witness :
  ∃ label,
    Scorer.determine_suitability
      {["risk_score" := 40%Q; "financial_score" := 90%Q]} "Neutral" = Some label
    ∧ (label = "Not suitable for most retail investors"
       ↔ Scorer.determine_stance
           (Scorer.calculate_overall_score
              {["risk_score" := 40%Q; "financial_score" := 90%Q]}) = "Avoid").
Proof.
  destruct (proj2 (suitability_follows_stance
                     {["risk_score" := 40%Q; "financial_score" := 90%Q]} "Neutral")
                  40%Q) as (label & Hl & Ha & _).
  - reflexivity.
  - exists label. by split.
Defined.

Section KeyLists.
Import Scorer.

Lemma append_if_cases (b : bool) (x : string) (l : list string) :
  append_if b x l = if b then l ++ [x] else l.
Proof. reflexivity. Qed.

End KeyLists.

(** [extract_key_strengths] fails exactly when one of the three scores it
    reads is missing; otherwise the list has between one and three distinct
    entries, so that the cut at four never drops any, and the placeholder is
    listed only on its own. *)
Theorem key_strengths_shape (analysis : Scorer.Analysis) (scores : gmap string Q) :
  (Scorer.extract_key_strengths analysis scores = None
   ↔ scores !! "financial_score" = None ∨ scores !! "business_score" = None
     ∨ scores !! "risk_score" = None)
  ∧ ∀ strengths, Scorer.extract_key_strengths analysis scores = Some strengths →
      (1 ≤ length strengths ≤ 3)%nat
      ∧ NoDup strengths
      ∧ ("Moderate fundamentals across parameters" ∈ strengths
         ↔ strengths = ["Moderate fundamentals across parameters"]).
Proof.
  unfold Scorer.extract_key_strengths. cbv zeta.
  destruct (scores !! "financial_score") as [f|]; cbn [mbind option_bind];
    [|split; [split; [auto|done]|done]].
  destruct (scores !! "business_score") as [b|]; cbn [mbind option_bind];
    [|split; [split; [auto|done]|done]].
  destruct (scores !! "risk_score") as [r|]; cbn [mbind option_bind];
    [|split; [split; [auto|done]|done]].
  split.
  { split; [done|]. intros [?|[?|?]]; done. }
  intros strengths.
  rewrite !append_if_cases.
  destruct (Scorer.ge f 75), (Scorer.ge b 75), (Scorer.ge r 75);
    intros [= <-]; cbn [app take length].
  all: split; [lia|].
  all: split; [apply (bool_decide_unpack _); vm_compute; exact I|].
  all: split; [intros H; apply list_elem_of_In in H; cbn [In] in H;
               first [reflexivity | exfalso; intuition discriminate]
              |intros H; first [discriminate H | by left]].
Qed.

Lemma key_strengths_shape_witness :
  ∃ strengths,
    Scorer.extract_key_strengths (Scorer.mkAnalysis None None)
      {["financial_score" := 80%Q; "business_score" := 70%Q; "risk_score" := 100%Q]}
    = Some strengths
    ∧ (1 ≤ length strengths ≤ 3)%nat.
Proof.
  eexists. split; [reflexivity|].
  apply (key_strengths_shape (Scorer.mkAnalysis None None)
           {["financial_score" := 80%Q; "business_score" := 70%Q; "risk_score" := 100%Q]}).
  reflexivity.
Defined.

(** [extract_key_concerns], when it returns, gives between one and four
    distinct entries, and the placeholder only on its own; it fails when one
    of the three scores it reads is missing. *)
Theorem key_concerns_shape (other_truthy : bool) (other_len : option Z)
    (analysis : Scorer.Analysis) (scores : gmap string Q) :
  (scores !! "financial_score" = None ∨ scores !! "risk_score" = None
   ∨ scores !! "valuation_score" = None →
   Scorer.extract_key_concerns other_truthy other_len analysis scores = None)
  ∧ ∀ concerns,
      Scorer.extract_key_concerns other_truthy other_len analysis scores = Some concerns →
      (1 ≤ length concerns ≤ 4)%nat
      ∧ NoDup concerns
      ∧ ("Standard IPO investment risks apply" ∈ concerns
         ↔ concerns = ["Standard IPO investment risks apply"]).
Proof.
  unfold Scorer.extract_key_concerns. cbv zeta.
  destruct (scores !! "financial_score") as [f|]; cbn [mbind option_bind];
    [|split; [done|done]].
  destruct (scores !! "risk_score") as [r|]; cbn [mbind option_bind];
    [|split; [done|done]].
  destruct (scores !! "valuation_score") as [v|]; cbn [mbind option_bind];
    [|split; [done|done]].
  split.
  { intros [?|[?|?]]; done. }
  intros concerns.
  generalize (match Scorer.risks analysis with
              | Some risk_analysis =>
                  Scorer.long_summary other_truthy other_len
                    (default (Scorer.VStr "") (risk_analysis !! "summary"))
              | None => Some false
              end).
  intros [long|]; cbn [mbind option_bind]; [|done].
  rewrite !append_if_cases.
  destruct (Scorer.lt f 50), (Scorer.lt r 50), (Scorer.lt v 40), long;
    intros [= <-]; cbn [app take length].
  all: split; [lia|].
  all: split; [apply (bool_decide_unpack _); vm_compute; exact I|].
  all: split; [intros H; apply list_elem_of_In in H; cbn [In] in H;
               first [reflexivity | exfalso; intuition discriminate]
              |intros H; first [discriminate H | by left]].
Qed.

Lemma key_concerns_shape_witness :
  Scorer.extract_key_concerns false None (Scorer.mkAnalysis None None)
    {["financial_score" := 80%Q]} = None.
Proof.
  apply (key_concerns_shape false None (Scorer.mkAnalysis None None)
           {["financial_score" := 80%Q]}).
  right. left. reflexivity.
Defined.

(** ** Years and series on any frame *)

Section AnyFrame.
Import Text TableExtractor.

Lemma digit_val_le_9 (c : ascii) : is_digit c = true → digit_val c ≤ 9.
Proof.
  unfold is_digit, in_range, digit_val.
  rewrite andb_true_iff, !N.leb_le. lia.
Qed.

Lemma extract_year_le_2099 (col : string) (y : Z) :
  _extract_year col = Some y → y ≤ 2099.
Proof.
  pose proof (extract_year_search col) as H.
  destruct (search_from None (chars col)) as [tok|]; [|congruence].
  destruct H as (y0 & -> & Hy). intros [= <-].
  destruct Hy as [(d1 & d2 & H1 & H2 & -> & ->)
                 |(ws & d1 & d2 & _ & H1 & H2 & _ & ->)].
  - apply digit_val_le_9 in H1, H2. unfold int_of_digits. simpl.
    change (digit_val "2") with 2. change (digit_val "0") with 0. lia.
  - apply digit_val_le_9 in H1, H2. unfold int_of_digits. simpl. lia.
Qed.

(** A number of a row's series stands in one of its cells, under a year. *)
Lemma row_timeseries_cell (hs : list string) (cells : list (option Q)) (y : Z) (v : Q) :
  row_timeseries hs cells !! y = Some v →
  2000 ≤ y ≤ 2099 ∧ Some v ∈ cells.
Proof.
  intros (i & h & Hi & Hy & _)%row_timeseries_lookup. split.
  - split; [by apply (extract_year_ge_2000 h)|by apply (extract_year_le_2099 h)].
  - apply list_elem_of_lookup_2 in Hi. by apply elem_of_zip_r in Hi.
Qed.

(** The scan in full: nothing, or the series of the first row that matches
    and has a series that is not empty. *)
Lemma scan_rows_result (patterns hs : list string) (rs : list (label * list (option Q))) :
  (scan_rows patterns hs rs = ∅
   ∧ Forall (fun r => Spec.row_matches patterns r = false ∨ row_timeseries hs r.2 = ∅) rs)
  ∨ ∃ before r after,
      rs = before ++ r :: after
      ∧ Forall (fun r' => Spec.row_matches patterns r' = false
                          ∨ row_timeseries hs r'.2 = ∅) before
      ∧ Spec.row_matches patterns r = true
      ∧ row_timeseries hs r.2 ≠ ∅
      ∧ scan_rows patterns hs rs = row_timeseries hs r.2.
Proof.
  induction rs as [|r rs IH].
  - left. split; [done|constructor].
  - destruct (Spec.row_matches patterns r) eqn:Hm.
    + destruct (decide (row_timeseries hs r.2 = ∅)) as [He|Hne].
      * assert (Hskip : scan_rows patterns hs (r :: rs) = scan_rows patterns hs rs).
        { apply (scan_rows_skip patterns hs [r] rs). constructor; [by right|constructor]. }
        destruct IH as [[Hs Hall]|(before & r0 & after & -> & Hb & Hm0 & Hne0 & Hs)].
        -- left. rewrite Hskip. split; [done|]. constructor; [by right|done].
        -- right. exists (r :: before), r0, after. rewrite Hskip.
           split_and!; try done. constructor; [by right|done].
      * right. exists [], r, rs. split_and!; try done.
        by apply scan_rows_hit.
    + assert (Hskip : scan_rows patterns hs (r :: rs) = scan_rows patterns hs rs).
      { apply (scan_rows_skip patterns hs [r] rs). constructor; [by left|constructor]. }
      destruct IH as [[Hs Hall]|(before & r0 & after & -> & Hb & Hm0 & Hne0 & Hs)].
      * left. rewrite Hskip. split; [done|]. constructor; [by left|done].
      * right. exists (r :: before), r0, after. rewrite Hskip.
        split_and!; try done. constructor; [by left|done].
Qed.

End AnyFrame.

(** A year read off a column label always lies between 2000 and 2099: "FY 98"
    is read as 2098. *)
Theorem extract_year_range (col : string) (y : Z) :
  TableExtractor._extract_year col = Some y → 2000 ≤ y ≤ 2099.
Proof.
  intros H. split; [by apply (extract_year_ge_2000 col)|by apply (extract_year_le_2099 col)].
Qed.

Lemma extract_year_range_witness : 2000 ≤ 2098 ≤ 2099.
Proof. apply (extract_year_range "FY 98" 2098). vm_compute. reflexivity. Defined.

(** On a frame whose column names are distinct (a cell is read by the name
    of its column) and whose value cells are numbers or missing, whether
    [_process_financial_table] returned it or not, [extract_metric_timeseries]
    returns nothing or the whole series of one row: the first row, top to
    bottom, that matches an alias and has a number under a year column. No
    number is made up: every value of the result stands in a cell of that
    row, under a year between 2000 and 2099. *)
Theorem extract_metric_any_frame (df : TableExtractor.DataFrame (option Q))
    (metric_name : string) :
  NoDup (TableExtractor.columns df) →
  let result := TableExtractor.extract_metric_timeseries (Some df) metric_name in
  let skipped r :=
    Spec.row_matches (Spec.aliases metric_name) r = false
    ∨ TableExtractor.row_timeseries (TableExtractor.headers df) r.2 = ∅ in
  ((result = ∅ ∧ Forall skipped (TableExtractor.rows df))
   ∨ ∃ before r after,
       TableExtractor.rows df = before ++ r :: after
       ∧ Forall skipped before
       ∧ Spec.row_matches (Spec.aliases metric_name) r = true
       ∧ result ≠ ∅
       ∧ result = TableExtractor.row_timeseries (TableExtractor.headers df) r.2)
  ∧ ∀ y v, result !! y = Some v →
      2000 ≤ y ≤ 2099
      ∧ ∃ r, r ∈ TableExtractor.rows df
             ∧ Spec.row_matches (Spec.aliases metric_name) r = true
             ∧ Some v ∈ r.2.
Proof.
  intros _ result skipped. subst result. rewrite extract_metric_scan.
  destruct (scan_rows_result (Spec.aliases metric_name) (TableExtractor.headers df)
              (TableExtractor.rows df))
    as [[Hs Hall]|(before & r & after & Hrows & Hb & Hm & Hne & Hs)].
  - split; [by left|]. intros y v. rewrite Hs, lookup_empty. done.
  - split.
    + right. exists before, r, after. rewrite Hs. by split_and!.
    + intros y v. rewrite Hs. intros [Hy Hv]%row_timeseries_cell.
      split; [done|]. exists r. split_and!; try done.
      rewrite Hrows. apply elem_of_app. right. by left.
Qed.

Lemma extract_metric_any_frame_witness :
  2000 ≤ 2021 ≤ 2099.
Proof.
  refine (proj1 (proj2 (extract_metric_any_frame
            (TableExtractor.mkDataFrame "Particulars" ["FY 2021"; "FY 2022"]
               [ (TableExtractor.LStr "Revenue", [None; None]);
                 (TableExtractor.LStr "Revenue from operations", [Some 800%Q; Some 900%Q]) ])
            "revenue" _) 2021 800%Q _)).
  - apply (bool_decide_unpack _). vm_compute. exact I.
  - vm_compute. reflexivity.
Defined.

(** ** More on the parsed risk list *)

Section ParseMore.
Import Text RiskAnalyzer.

Lemma split_chars_nonempty (sep : ascii) (l : list ascii) : split_chars sep l ≠ [].
Proof.
  destruct l as [|c l]; simpl; [done|].
  destruct (Ascii.eqb c sep); [done|]. by destruct (split_chars sep l).
Qed.

Lemma split_chars_app (sep : ascii) (l1 l2 : list ascii) :
  split_chars sep (l1 ++ sep :: l2) = split_chars sep l1 ++ split_chars sep l2.
Proof.
  induction l1 as [|c l1 IH]; cbn [app split_chars].
  - by rewrite Ascii.eqb_refl.
  - destruct (Ascii.eqb c sep); [by rewrite IH|].
    rewrite IH. pose proof (split_chars_nonempty sep l1).
    by destruct (split_chars sep l1).
Qed.

Lemma split_app (sep : ascii) (a b : string) :
  split sep (a +:+ String sep b) = split sep a ++ split sep b.
Proof.
  unfold split. rewrite chars_app.
  change (chars (String sep b)) with (sep :: chars b).
  by rewrite split_chars_app, fmap_app.
Qed.

Lemma parse_response_omap (response : string) :
  _parse_risk_response response = omap parse_line (split "010" response).
Proof. unfold _parse_risk_response. by rewrite parse_loop. Qed.

Lemma parse_line_trimmed (raw : string) (r : Risk) :
  parse_line raw = Some r →
  Spec.ends_clear (mem_char (chars Spec.numbering)) (chars (title r))
  ∧ Spec.ends_clear is_space (chars (description r)).
Proof.
  assert (Ht : ∀ s, Spec.ends_clear (mem_char (chars Spec.numbering))
                      (chars (strip_set Spec.numbering s))).
  { intros s. unfold strip_set. rewrite chars_text.
    by destruct (strip_by_spec (mem_char (chars Spec.numbering)) (chars s))
      as (? & ? & _ & _ & _ & H). }
  assert (Hd : ∀ s, Spec.ends_clear is_space (chars (strip s))).
  { intros s. unfold strip. rewrite chars_text.
    by destruct (strip_by_spec is_space (chars s)) as (? & ? & _ & _ & _ & H). }
  unfold parse_line. cbv zeta.
  destruct (bool_decide (strip raw = "")); [done|].
  destruct (first_isdigit (strip raw) || startswith (strip raw) "-"); [|done].
  unfold split1. destruct (cut_chars ":" (chars (strip raw))) as [[a b]|].
  - intros [= <-]. cbn [title description]. split; [apply Ht|apply Hd].
  - intros [= <-]. cbn [title description]. split; [apply Ht|]. by split.
Qed.

End ParseMore.

(** [_parse_risk_response] works line by line: the records of two texts
    joined by a line break are the records of the first followed by those of
    the second, and there are never more records than lines. *)
Theorem parse_risk_response_by_line (a b : string) :
  RiskAnalyzer._parse_risk_response (a +:+ String "010" b)
  = RiskAnalyzer._parse_risk_response a ++ RiskAnalyzer._parse_risk_response b
  ∧ (length (RiskAnalyzer._parse_risk_response a) ≤ length (Text.split "010" a))%nat
  ∧ RiskAnalyzer._parse_risk_response "" = [].
Proof.
  rewrite !parse_response_omap. split_and!.
  - by rewrite split_app, omap_app.
  - generalize (Text.split "010" a). intros l.
    induction l as [|x l IH]; [done|]. cbn [omap list_omap length].
    destruct (RiskAnalyzer.parse_line x); cbn [length]; lia.
  - reflexivity.
Qed.

(** Every record that [_parse_risk_response] returns has a title that neither
    starts nor ends with a digit, a full stop, a hyphen, a closing bracket or
    a blank, and a description that neither starts nor ends with white
    space. *)
Theorem parse_risk_response_trimmed (response : string) (r : RiskAnalyzer.Risk) :
  r ∈ RiskAnalyzer._parse_risk_response response →
  Spec.ends_clear (Text.mem_char (Text.chars Spec.numbering))
                  (Text.chars (RiskAnalyzer.title r))
  ∧ Spec.ends_clear Text.is_space (Text.chars (RiskAnalyzer.description r)).
Proof.
  rewrite parse_response_omap.
  intros (raw & _ & Hraw)%list_elem_of_omap. by apply (parse_line_trimmed raw).
Qed.

Lemma parse_risk_response_trimmed_witness :
  Spec.ends_clear (Text.mem_char (Text.chars Spec.numbering))
                  (Text.chars "Supplier dependence (China")
  ∧ Spec.ends_clear Text.is_space (Text.chars "Single source.").
Proof.
  apply (parse_risk_response_trimmed
           "  2) Supplier dependence (China): Single source.  "
           (RiskAnalyzer.mkRisk "Supplier dependence (China" "Single source." None None)).
  vm_compute. left.
Defined.

(** ** Classifying and assessing the risks *)

Section ClassifyRisks.
Import Text RiskAnalyzer.

Lemma classify_in_keys (r : Risk) : _classify_single_risk r ∈ Spec.category_keys.
Proof.
  unfold _classify_single_risk, Spec.category_keys.
  destruct (decide (Forall (fun ck => count_in ck.2 (risk_text r) = 0) risk_categories))
    as [Hzero|Hsome].
  - rewrite classify_with_other by done. apply elem_of_app. right. by left.
  - destruct (classify_with_elem _ _ Hsome) as (kws & Hin & _).
    apply elem_of_app. left.
    by apply (list_elem_of_fmap_2 fst) in Hin.
Qed.

Lemma category_keys_NoDup : NoDup Spec.category_keys.
Proof. apply (bool_decide_unpack _). vm_compute. exact I. Qed.

Lemma dict_append_keys (keys : list string) (g : string → list Risk)
    (c : string) (x : Risk) :
  NoDup keys → c ∈ keys →
  dict_append c x ((fun k => (k, g k)) <$> keys)
  = Some ((fun k => (k, if decide (k = c) then g k ++ [x] else g k)) <$> keys).
Proof.
  induction keys as [|k keys IH]; intros Hnd Hc; [by apply elem_of_nil in Hc|].
  apply NoDup_cons in Hnd as [Hk Hnd]. cbn [fmap list_fmap dict_append].
  destruct (bool_decide_reflect (k = c)) as [->|Hne].
  - rewrite decide_True by done. do 2 f_equal.
    apply list_fmap_ext. intros i k' Hk'. apply list_elem_of_lookup_2 in Hk'.
    rewrite decide_False; [done|]. by intros ->.
  - apply elem_of_cons in Hc as [->|Hc]; [done|].
    rewrite IH by done. simpl. by rewrite decide_False.
Qed.

Lemma classify_loop_keys (keys : list string) (risks : list Risk)
    (g : string → list Risk) :
  NoDup keys → (∀ r, _classify_single_risk r ∈ keys) →
  classify_loop risks ((fun k => (k, g k)) <$> keys)
  = Some ((fun k => (k, g k ++ Spec.classified_as k risks)) <$> keys).
Proof.
  intros Hnd Hkeys. revert g.
  induction risks as [|r risks IH]; intros g; cbn [classify_loop].
  - f_equal. apply list_fmap_ext. intros i k _. by rewrite app_nil_r.
  - cbv zeta. rewrite dict_append_keys by done.
    rewrite (IH (fun k => if decide (k = _classify_single_risk r)
                          then g k ++ [set_category r (_classify_single_risk r)]
                          else g k)).
    f_equal. apply list_fmap_ext. intros i k _. f_equal.
    unfold Spec.classified_as. rewrite filter_cons.
    destruct (decide (k = _classify_single_risk r)) as [->|Hne].
    + rewrite decide_True by done. by rewrite <- app_assoc.
    + by rewrite decide_False by done.
Qed.

Lemma concat_insert_one (keys : list string) (f : string → list Risk)
    (c : string) (x : Risk) :
  NoDup keys → c ∈ keys →
  concat ((fun k => if decide (k = c) then x :: f k else f k) <$> keys)
  ≡ₚ x :: concat (f <$> keys).
Proof.
  induction keys as [|k keys IH]; intros Hnd Hc; [by apply elem_of_nil in Hc|].
  apply NoDup_cons in Hnd as [Hk Hnd]. cbn [fmap list_fmap concat].
  destruct (decide (k = c)) as [->|Hne].
  - cbn [app].
    replace ((fun k => if decide (k = c) then x :: f k else f k) <$> keys)
      with (f <$> keys); [done|].
    apply list_fmap_ext. intros i k' Hk'. apply list_elem_of_lookup_2 in Hk'.
    rewrite decide_False; [done|]. by intros ->.
  - apply elem_of_cons in Hc as [->|Hc]; [done|].
    rewrite IH by done. by rewrite Permutation_middle.
Qed.

Lemma classified_as_all (keys : list string) (risks : list Risk) :
  NoDup keys → (∀ r, _classify_single_risk r ∈ keys) →
  concat ((fun k => Spec.classified_as k risks) <$> keys) ≡ₚ Spec.classified <$> risks.
Proof.
  intros Hnd Hkeys. induction risks as [|r risks IH].
  - cbn [fmap list_fmap]. clear. induction keys as [|k keys IHk]; [done|].
    cbn [fmap list_fmap concat]. exact IHk.
  - cbn [fmap list_fmap]. rewrite <- IH.
    rewrite <- (concat_insert_one keys (fun k => Spec.classified_as k risks)
                  (_classify_single_risk r) (Spec.classified r)) by done.
    replace ((fun k => Spec.classified_as k (r :: risks)) <$> keys)
      with ((fun k => if decide (k = _classify_single_risk r)
                      then Spec.classified r :: Spec.classified_as k risks
                      else Spec.classified_as k risks) <$> keys); [done|].
    apply list_fmap_ext. intros i k _. unfold Spec.classified_as.
    rewrite filter_cons.
    destruct (decide (k = _classify_single_risk r)) as [->|Hne].
    + by rewrite decide_True by done.
    + by rewrite decide_False by done.
Qed.

End ClassifyRisks.

(** [classify_risks] never meets a category that is no key: it returns, for
    the eight categories and "other" in this order, the risks that fall into
    each, in their order and with their category set; together the lists
    hold every risk exactly once. *)
Theorem classify_risks_partition (risks : list RiskAnalyzer.Risk) :
  RiskAnalyzer.classify_risks risks
  = Some ((fun c => (c, Spec.classified_as c risks)) <$> Spec.category_keys)
  ∧ concat ((fun c => Spec.classified_as c risks) <$> Spec.category_keys)
    ≡ₚ Spec.classified <$> risks
  ∧ (∀ c r, r ∈ Spec.classified_as c risks → RiskAnalyzer.category r = Some c)
  ∧ Spec.category_keys
    = [ "business_risk"; "financial_risk"; "operational_risk"; "regulatory_risk";
        "legal_risk"; "market_risk"; "promoter_risk"; "customer_concentration_risk";
        "other" ].
Proof.
  split_and!.
  - unfold RiskAnalyzer.classify_risks.
    change RiskAnalyzer.no_risks_classified
      with ((fun k => (k, @nil RiskAnalyzer.Risk)) <$> Spec.category_keys).
    rewrite (classify_loop_keys Spec.category_keys risks (fun _ => []));
      [done|apply category_keys_NoDup|apply classify_in_keys].
  - apply classified_as_all; [apply category_keys_NoDup|apply classify_in_keys].
  - intros c r Hr. unfold Spec.classified_as in Hr.
    apply list_elem_of_fmap in Hr as (r0 & -> & Hr0).
    apply list_elem_of_filter in Hr0 as [<- _]. reflexivity.
  - reflexivity.
Qed.

Lemma classify_risks_partition_witness :
  RiskAnalyzer.category
    (RiskAnalyzer.mkRisk "Debt" "High debt and weak liquidity" (Some "financial_risk") None)
  = Some "financial_risk".
Proof.
  apply (classify_risks_partition
           [ RiskAnalyzer.mkRisk "Weather" "Monsoon" None None;
             RiskAnalyzer.mkRisk "Debt" "High debt and weak liquidity" None None ]).
  vm_compute. left.
Defined.

Section Assess.
Import Text RiskAnalyzer.

Lemma count_severity_length (s : string) (l : list Risk) :
  count_severity s l = Z.of_nat (length (filter (fun r => severity r = Some s) l)).
Proof. unfold count_severity. rewrite sum_ones. lia. Qed.

Lemma assess_severity_values (r : Risk) :
  _assess_risk_severity r = "High" ∨ _assess_risk_severity r = "Medium"
  ∨ _assess_risk_severity r = "Low".
Proof. unfold _assess_risk_severity. cbv zeta. repeat case_match; auto. Qed.

Lemma count_severity_total (l : list Risk) :
  count_severity "High" (Spec.assessed <$> l)
  + count_severity "Medium" (Spec.assessed <$> l)
  + count_severity "Low" (Spec.assessed <$> l)
  = Z.of_nat (length (Spec.assessed <$> l)).
Proof.
  rewrite !count_severity_length.
  induction l as [|r l IH]; [done|].
  cbn [fmap list_fmap length]. rewrite !filter_cons.
  pose proof (assess_severity_values r) as Hv.
  assert (Hs : severity (Spec.assessed r) = Some (_assess_risk_severity r))
    by reflexivity.
  generalize dependent (Spec.assessed r). intros x Hs.
  repeat case_decide; cbn [length]; rewrite ?Nat2Z.inj_succ;
    first [lia
          |exfalso; rewrite Hs in *;
           destruct Hv as [E|[E|E]]; rewrite E in *; congruence].
Qed.

Lemma assess_severity_all (classified : list (string * list Risk)) :
  Spec.all_risks (assess_severity classified)
  = Spec.assessed <$> concat (snd <$> classified).
Proof.
  unfold Spec.all_risks.
  induction classified as [|[c l] classified IH]; [done|].
  cbn [assess_severity fmap list_fmap concat snd].
  destruct l as [|r l]; [exact IH|].
  cbn [fmap list_fmap concat snd]. rewrite IH, fmap_app. reflexivity.
Qed.

Lemma total_weight_perm (l1 l2 : list Risk) :
  l1 ≡ₚ l2 → Spec.total_weight l1 = Spec.total_weight l2.
Proof.
  unfold Spec.total_weight.
  induction 1; cbn [fmap list_fmap foldr]; lia.
Qed.

Lemma total_weight_assessed (l : list Risk) :
  Spec.total_weight (Spec.assessed <$> (Spec.classified <$> l))
  = Spec.total_weight (Spec.assessed <$> l).
Proof.
  unfold Spec.total_weight.
  induction l as [|r l IH]; [done|].
  cbn [fmap list_fmap foldr]. rewrite IH. f_equal.
Qed.

End Assess.

(** On a classification whose categories are distinct, as the keys of a
    dictionary are, [assess_severity] leaves out the categories without risks
    and keeps the others in their order; the entry of a category holds the
    risks of that very category, in their order and with their severity set,
    their number, and a breakdown by severity that adds up to this number;
    every severity is High, Medium or Low. *)
Theorem assess_severity_entries (classified : list (string * list RiskAnalyzer.Risk)) :
  NoDup (fst <$> classified) →
  (fun entry : string * RiskAnalyzer.CategoryAnalysis =>
     (entry.1, RiskAnalyzer.risks entry.2))
  <$> RiskAnalyzer.assess_severity classified
  = (fun entry : string * list RiskAnalyzer.Risk =>
       (entry.1, Spec.assessed <$> entry.2))
    <$> filter (fun entry => entry.2 ≠ []) classified
  ∧ Forall (fun entry : string * RiskAnalyzer.CategoryAnalysis =>
              RiskAnalyzer.risks entry.2 ≠ []
              ∧ RiskAnalyzer.count entry.2 = Z.of_nat (length (RiskAnalyzer.risks entry.2))
              ∧ (∃ h m l,
                   RiskAnalyzer.severity_breakdown entry.2 !! "high" = Some h
                   ∧ RiskAnalyzer.severity_breakdown entry.2 !! "medium" = Some m
                   ∧ RiskAnalyzer.severity_breakdown entry.2 !! "low" = Some l
                   ∧ h + m + l = RiskAnalyzer.count entry.2)
              ∧ Forall (fun r => RiskAnalyzer.severity r = Some "High"
                                 ∨ RiskAnalyzer.severity r = Some "Medium"
                                 ∨ RiskAnalyzer.severity r = Some "Low")
                       (RiskAnalyzer.risks entry.2))
           (RiskAnalyzer.assess_severity classified).
Proof.
  intros _. split.
  - induction classified as [|[c l] classified IH]; [done|].
    cbn [RiskAnalyzer.assess_severity]. rewrite filter_cons.
    destruct l as [|r l].
    + by rewrite decide_False by (simpl; auto).
    + rewrite decide_True by done. cbn [fmap list_fmap fst snd].
      f_equal. exact IH.
  - induction classified as [|[c l] classified IH]; [constructor|].
    cbn [RiskAnalyzer.assess_severity].
    destruct l as [|r l]; [exact IH|]. constructor; [|exact IH].
    cbn [snd]. unfold RiskAnalyzer.assess_category. cbv zeta.
    cbn [RiskAnalyzer.risks RiskAnalyzer.count RiskAnalyzer.severity_breakdown].
    change (fun risk => RiskAnalyzer.set_severity risk (RiskAnalyzer._assess_risk_severity risk))
      with Spec.assessed.
    split_and!.
    + done.
    + done.
    + eexists _, _, _. split_and!.
      * rewrite lookup_insert_ne by done. rewrite lookup_insert_ne by done.
        apply lookup_insert_eq.
      * rewrite lookup_insert_ne by done. apply lookup_insert_eq.
      * apply lookup_insert_eq.
      * apply count_severity_total.
    + apply Forall_fmap, Forall_forall. intros x _. unfold compose.
      unfold Spec.assessed. cbn [RiskAnalyzer.set_severity RiskAnalyzer.severity].
      destruct (assess_severity_values x) as [E|[E|E]]; rewrite E; auto.
Qed.

Lemma assess_severity_entries_witness :
  (fun entry : string * RiskAnalyzer.CategoryAnalysis =>
     (entry.1, RiskAnalyzer.risks entry.2))
  <$> RiskAnalyzer.assess_severity
        [ ("business_risk", []);
          ("legal_risk",
           [RiskAnalyzer.mkRisk "Litigation" "Pending cases may have a material adverse effect"
              (Some "legal_risk") None]);
          ("other", [RiskAnalyzer.mkRisk "Weather" "Monsoon" (Some "other") None]) ]
  = [ ("legal_risk",
       [RiskAnalyzer.mkRisk "Litigation" "Pending cases may have a material adverse effect"
          (Some "legal_risk") (Some "High")]);
      ("other", [RiskAnalyzer.mkRisk "Weather" "Monsoon" (Some "other") (Some "Low")]) ].
Proof.
  rewrite (proj1 (assess_severity_entries
    [ ("business_risk", []);
      ("legal_risk",
       [RiskAnalyzer.mkRisk "Litigation" "Pending cases may have a material adverse effect"
          (Some "legal_risk") None]);
      ("other", [RiskAnalyzer.mkRisk "Weather" "Monsoon" (Some "other") None]) ]
    ltac:(apply (bool_decide_unpack _); vm_compute; exact I))).
  vm_compute. reflexivity.
Defined.

(** The risk score of the whole chain - classify, assess, score - does not
    depend on the categories: it is the aggregate of the severities assessed
    on the title and description of the risks. *)
Theorem risk_score_of_classified (risks : list RiskAnalyzer.Risk)
    (classified : list (string * list RiskAnalyzer.Risk)) :
  RiskAnalyzer.classify_risks risks = Some classified →
  RiskAnalyzer.get_risk_score (RiskAnalyzer.assess_severity classified)
  = Spec.aggregate_score (Spec.assessed <$> risks)
  ∧ length (Spec.all_risks (RiskAnalyzer.assess_severity classified)) = length risks.
Proof.
  intros Hc.
  assert (Hperm : concat (snd <$> classified) ≡ₚ Spec.classified <$> risks).
  { unfold RiskAnalyzer.classify_risks in Hc.
    change RiskAnalyzer.no_risks_classified
      with ((fun k => (k, @nil RiskAnalyzer.Risk)) <$> Spec.category_keys) in Hc.
    rewrite (classify_loop_keys Spec.category_keys risks (fun _ => [])) in Hc;
      [|apply category_keys_NoDup|apply classify_in_keys].
    injection Hc as <-.
    rewrite <- (classified_as_all Spec.category_keys risks);
      [|apply category_keys_NoDup|apply classify_in_keys].
    reflexivity. }
  assert (Hlen : length (Spec.all_risks (RiskAnalyzer.assess_severity classified))
                 = length risks).
  { rewrite assess_severity_all, length_fmap, Hperm. by rewrite length_fmap. }
  split; [|exact Hlen].
  rewrite get_risk_score_aggregate.
  assert (Hw : Spec.total_weight (Spec.all_risks (RiskAnalyzer.assess_severity classified))
               = Spec.total_weight (Spec.assessed <$> risks)).
  { rewrite assess_severity_all.
    rewrite (total_weight_perm _ (Spec.assessed <$> (Spec.classified <$> risks)))
      by (by apply fmap_Permutation).
    apply total_weight_assessed. }
  unfold Spec.aggregate_score, Spec.average_weight.
  rewrite Hw, Hlen, length_fmap.
  destruct (Spec.all_risks (RiskAnalyzer.assess_severity classified)) as [|x l];
    destruct risks as [|r risks]; try done.
Qed.

Lemma risk_score_of_classified_witness :
  RiskAnalyzer.get_risk_score
    (RiskAnalyzer.assess_severity
       ((fun c => (c, Spec.classified_as c
                        [ RiskAnalyzer.mkRisk "Litigation" "Material failure" None None;
                          RiskAnalyzer.mkRisk "Weather" "Monsoon" None None ]))
        <$> Spec.category_keys))
  = Spec.aggregate_score
      (Spec.assessed <$> [ RiskAnalyzer.mkRisk "Litigation" "Material failure" None None;
                           RiskAnalyzer.mkRisk "Weather" "Monsoon" None None ]).
Proof.
  apply (risk_score_of_classified
           [ RiskAnalyzer.mkRisk "Litigation" "Material failure" None None;
             RiskAnalyzer.mkRisk "Weather" "Monsoon" None None ]).
  vm_compute. reflexivity.
Defined.

(** ** The risk summary *)

Section SummaryFacts.
Import Text RiskAnalyzer.




End SummaryFacts.



(** ** Deduplication of retrieved chunks *)

Section Dedup.
Import BusinessAnalyzer.

Lemma dedup_fold (chunks : list Chunk) (seen : gset (option Z)) (unique : list Chunk) :
  (fold_left dedup_step chunks (seen, unique)).2
  = unique ++ Spec.first_chunks seen chunks.
Proof.
  revert seen unique. induction chunks as [|c chunks IH]; intros seen unique;
    cbn [fold_left Spec.first_chunks].
  - by rewrite app_nil_r.
  - unfold dedup_step at 2. cbn [fst snd].
    destruct (decide (global_chunk_id c ∈ seen)) as [Hin|Hnin].
    + rewrite bool_decide_false by (by intros ?). apply IH.
    + rewrite bool_decide_true by done. rewrite IH. by rewrite <- app_assoc.
Qed.

Lemma first_chunks_ids (seen : gset (option Z)) (chunks : list Chunk) :
  NoDup (global_chunk_id <$> Spec.first_chunks seen chunks)
  ∧ (∀ c, c ∈ Spec.first_chunks seen chunks → (global_chunk_id c ∉ seen) ∧ c ∈ chunks)
  ∧ (∀ c, c ∈ chunks →
          global_chunk_id c ∈ seen
          ∨ global_chunk_id c ∈ global_chunk_id <$> Spec.first_chunks seen chunks).
Proof.
  revert seen. induction chunks as [|c chunks IH]; intros seen; cbn [Spec.first_chunks].
  - split_and!; [constructor|by intros ? ?%elem_of_nil|by intros ? ?%elem_of_nil].
  - destruct (decide (global_chunk_id c ∈ seen)) as [Hin|Hnin].
    + destruct (IH seen) as (Hnd & Hsub & Hcov). split_and!; [done| |].
      * intros x Hx. destruct (Hsub x Hx). split; [done|by right].
      * intros x [->|Hx]%elem_of_cons; [by left|by apply Hcov].
    + destruct (IH ({[global_chunk_id c]} ∪ seen)) as (Hnd & Hsub & Hcov).
      split_and!.
      * cbn [fmap list_fmap]. apply NoDup_cons. split; [|done].
        intros (x & Hid & Hx)%list_elem_of_fmap.
        destruct (Hsub x Hx) as [Hnot _]. apply Hnot. rewrite <- Hid.
        apply elem_of_union. left. by apply elem_of_singleton.
      * intros x [->|Hx]%elem_of_cons; [split; [done|by left]|].
        destruct (Hsub x Hx) as [Hnot ?]. split; [|by right].
        intros ?. apply Hnot, elem_of_union. by right.
      * intros x [->|Hx]%elem_of_cons.
        -- right. cbn [fmap list_fmap]. by left.
        -- destruct (Hcov x Hx) as [Hs|Hk].
           ++ apply elem_of_union in Hs as [Hs|Hs].
              ** right. apply elem_of_singleton in Hs. rewrite Hs.
                 cbn [fmap list_fmap]. by left.
              ** by left.
           ++ right. cbn [fmap list_fmap]. by right.
Qed.

Lemma first_chunks_sublist (seen : gset (option Z)) (chunks : list Chunk) :
  Spec.first_chunks seen chunks `sublist_of` chunks.
Proof.
  revert seen. induction chunks as [|c chunks IH]; intros seen; cbn [Spec.first_chunks].
  - constructor.
  - destruct (decide (global_chunk_id c ∈ seen)).
    + by apply sublist_cons.
    + by apply sublist_skip.
Qed.

Lemma first_chunks_fixed (seen : gset (option Z)) (chunks : list Chunk) :
  NoDup (global_chunk_id <$> chunks) →
  (∀ c, c ∈ chunks → global_chunk_id c ∉ seen) →
  Spec.first_chunks seen chunks = chunks.
Proof.
  revert seen. induction chunks as [|c chunks IH]; intros seen Hnd Hseen; [done|].
  cbn [Spec.first_chunks]. cbn [fmap list_fmap] in Hnd.
  apply NoDup_cons in Hnd as [Hc Hnd].
  rewrite decide_False by (apply Hseen; by left). f_equal.
  apply IH; [done|]. intros x Hx [Hs|Hs]%elem_of_union.
  - apply elem_of_singleton in Hs. apply Hc. rewrite <- Hs.
    by apply list_elem_of_fmap_2.
  - apply (Hseen x); [by right|done].
Qed.

End Dedup.

(** [_deduplicate_chunks] keeps, in their order, chunks with pairwise
    different identifiers, one for every identifier of the input (a chunk
    without identifier counting as one more identifier); a list without
    repeated identifier is returned as it is, so that deduplicating twice
    changes nothing more. *)
Theorem deduplicate_chunks_unique (chunks : list BusinessAnalyzer.Chunk) :
  NoDup (BusinessAnalyzer.global_chunk_id <$> BusinessAnalyzer._deduplicate_chunks chunks)
  ∧ BusinessAnalyzer._deduplicate_chunks chunks `sublist_of` chunks
  ∧ (∀ c, c ∈ chunks →
          BusinessAnalyzer.global_chunk_id c
          ∈ BusinessAnalyzer.global_chunk_id <$> BusinessAnalyzer._deduplicate_chunks chunks)
  ∧ (NoDup (BusinessAnalyzer.global_chunk_id <$> chunks) →
     BusinessAnalyzer._deduplicate_chunks chunks = chunks)
  ∧ BusinessAnalyzer._deduplicate_chunks (BusinessAnalyzer._deduplicate_chunks chunks)
    = BusinessAnalyzer._deduplicate_chunks chunks.
Proof.
  assert (Hd : ∀ l, BusinessAnalyzer._deduplicate_chunks l = Spec.first_chunks ∅ l).
  { intros l. unfold BusinessAnalyzer._deduplicate_chunks. by rewrite dedup_fold. }
  rewrite !Hd.
  destruct (first_chunks_ids ∅ chunks) as (Hnd & Hsub & Hcov).
  split_and!.
  - exact Hnd.
  - apply first_chunks_sublist.
  - intros c Hc. destruct (Hcov c Hc) as [Hs|Hk]; [set_solver|done].
  - intros H. apply first_chunks_fixed; [done|]. intros c _. set_solver.
  - apply first_chunks_fixed; [done|]. intros c _. set_solver.
Qed.

Lemma deduplicate_chunks_unique_witness :
  BusinessAnalyzer._deduplicate_chunks
    [ BusinessAnalyzer.mkChunk (Some 3) "a"; BusinessAnalyzer.mkChunk None "b";
      BusinessAnalyzer.mkChunk (Some 7) "c" ]
  = [ BusinessAnalyzer.mkChunk (Some 3) "a"; BusinessAnalyzer.mkChunk None "b";
      BusinessAnalyzer.mkChunk (Some 7) "c" ].
Proof.
  destruct (deduplicate_chunks_unique
              [ BusinessAnalyzer.mkChunk (Some 3) "a"; BusinessAnalyzer.mkChunk None "b";
                BusinessAnalyzer.mkChunk (Some 7) "c" ]) as (_ & _ & _ & Hfixed & _).
  apply Hfixed. apply (bool_decide_unpack _). vm_compute. exact I.
Defined.

Example deduplicate_chunks_ex :
  BusinessAnalyzer._deduplicate_chunks
    [ BusinessAnalyzer.mkChunk (Some 3) "a"; BusinessAnalyzer.mkChunk None "b";
      BusinessAnalyzer.mkChunk (Some 3) "a again"; BusinessAnalyzer.mkChunk None "c";
      BusinessAnalyzer.mkChunk (Some 7) "d" ]
  = [ BusinessAnalyzer.mkChunk (Some 3) "a"; BusinessAnalyzer.mkChunk None "b";
      BusinessAnalyzer.mkChunk (Some 7) "d" ].
Proof. vm_compute. reflexivity. Qed.

(** ** The financial statements and the financial data *)

Section FinancialStatements.
Import Text TableExtractor.
Context {A : Type}.
Variable to_numeric : A → option Q.

Lemma identify_values (df : DataFrame A) (t : string) :
  _identify_statement_type df = Some t → t ∈ Spec.statement_types ∧ t ≠ "".
Proof.
  unfold _identify_statement_type, Spec.statement_types. cbv zeta.
  repeat case_match; intros [= <-]; (split; [|done]).
  - by left.
  - right. by left.
  - right. right. by left.
Qed.

Lemma first_of_type_skip (t : string) (table : Table A) (tables : list (Table A)) :
  Spec.frame_of_type t table = None →
  Spec.first_of_type t (table :: tables) = Spec.first_of_type t tables.
Proof. unfold Spec.first_of_type. cbn [omap list_omap]. by intros ->. Qed.

Lemma first_of_type_here (t : string) (table : Table A) (tables : list (Table A))
    (df : DataFrame A) :
  Spec.frame_of_type t table = Some df →
  Spec.first_of_type t (table :: tables) = Some df.
Proof. unfold Spec.first_of_type. cbn [omap list_omap]. by intros ->. Qed.

(** The loop from any [statements] that has the three keys: it fails exactly
    on a table that lacks a key, and otherwise a key holds the statement kept
    from before, or the first financial frame of that type, processed. *)
Lemma add_statements_lookup (tables : list (Table A)) (statements : Statements) :
  (∀ t, t ∈ Spec.statement_types → is_Some (statements !! t)) →
  match add_statements to_numeric tables statements with
  | None => Exists Spec.lacks_key tables
  | Some result =>
      Forall (fun table => ¬ Spec.lacks_key table) tables
      ∧ ∀ t, result !! t
             = match statements !! t with
               | Some None =>
                   Some (_process_financial_table to_numeric <$> Spec.first_of_type t tables)
               | other => other
               end
  end.
Proof.
  revert statements. induction tables as [|tb tables IH]; intros st Hkeys.
  - cbn [add_statements]. split; [constructor|].
    intros t. by destruct (st !! t) as [[d|]|].
  - cbn [add_statements]. unfold add_statement.
    destruct (type tb) as [ty|] eqn:Hty; cbn [mbind option_bind].
    2:{ apply Exists_cons_hd. by left. }
    destruct (bool_decide_reflect (ty ≠ "financial")) as [Hnf|Hf].
    { specialize (IH st Hkeys).
      destruct (add_statements to_numeric tables st) as [res|].
      - destruct IH as [Hall Hres]. split.
        + constructor; [|done]. intros [?|[? _]]; congruence.
        + intros t. rewrite Hres, first_of_type_skip; [done|].
          unfold Spec.frame_of_type. rewrite Hty.
          destruct (data tb); [|done].
          rewrite bool_decide_false; [done|]. by intros [? _].
      - by apply Exists_cons_tl. }
    apply dec_stable in Hf. subst ty.
    destruct (data tb) as [df|] eqn:Hdf; cbn [mbind option_bind].
    2:{ apply Exists_cons_hd. by right. }
    assert (Hok : ¬ Spec.lacks_key tb) by (intros [?|[_ ?]]; congruence).
    destruct (_identify_statement_type df) as [ty|] eqn:Hid.
    2:{ specialize (IH st Hkeys).
        destruct (add_statements to_numeric tables st) as [res|].
        - destruct IH as [Hall Hres]. split; [by constructor|].
          intros t. rewrite Hres, first_of_type_skip; [done|].
          unfold Spec.frame_of_type. rewrite Hty, Hdf.
          rewrite bool_decide_false; [done|]. intros [_ ?]. congruence.
        - by apply Exists_cons_tl. }
    destruct (identify_values _ _ Hid) as [Hin Hne].
    rewrite bool_decide_false by done.
    destruct (Hkeys ty Hin) as [x Hx]. rewrite Hx.
    destruct x as [d|].
    + specialize (IH st Hkeys).
      destruct (add_statements to_numeric tables st) as [res|].
      * destruct IH as [Hall Hres]. split; [by constructor|].
        intros t. rewrite Hres.
        destruct (decide (t = ty)) as [->|Hneq]; [by rewrite Hx|].
        rewrite first_of_type_skip; [done|].
        unfold Spec.frame_of_type. rewrite Hty, Hdf.
        rewrite bool_decide_false; [done|]. intros [_ ?]. congruence.
      * by apply Exists_cons_tl.
    + specialize (IH (<[ty := Some (_process_financial_table to_numeric df)]> st)).
      destruct (add_statements to_numeric tables
                  (<[ty := Some (_process_financial_table to_numeric df)]> st)) as [res|].
      * destruct IH as [Hall Hres].
        { intros t Ht. destruct (decide (t = ty)) as [->|Hneq].
          - rewrite lookup_insert_eq. eauto.
          - rewrite lookup_insert_ne by done. by apply Hkeys. }
        split; [by constructor|]. intros t. rewrite Hres.
        destruct (decide (t = ty)) as [->|Hneq].
        -- rewrite lookup_insert_eq, Hx.
           rewrite (first_of_type_here ty tb tables df); [done|].
           unfold Spec.frame_of_type. rewrite Hty, Hdf.
           by rewrite bool_decide_true.
        -- rewrite lookup_insert_ne by done.
           rewrite first_of_type_skip; [done|].
           unfold Spec.frame_of_type. rewrite Hty, Hdf.
           rewrite bool_decide_false; [done|]. intros [_ ?]. congruence.
      * apply Exists_cons_tl. apply IH.
        intros t Ht. destruct (decide (t = ty)) as [->|Hneq].
        -- rewrite lookup_insert_eq. eauto.
        -- rewrite lookup_insert_ne by done. by apply Hkeys.
Qed.

Lemma no_statements_keys (t : string) :
  t ∈ Spec.statement_types → no_statements !! t = Some None.
Proof.
  unfold Spec.statement_types. intros Ht.
  repeat (apply elem_of_cons in Ht as [->|Ht]; [reflexivity|]).
  by apply elem_of_nil in Ht.
Qed.

End FinancialStatements.

(** On tables whose frames have distinct column names and a label column
    with some text, [extract_financial_statements] raises [KeyError] exactly
    when a table lacks the key [type], or is of type "financial" and lacks
    the key [data]. Otherwise it returns the three statement types and
    nothing else, each with the first table of type "financial" that is
    identified as that statement, processed, or with [None] when there is
    none; later tables of the same statement type and tables of other types
    are ignored. *)
Theorem extract_financial_statements_first {A} (to_numeric : A → option Q)
    (tables : list (TableExtractor.Table A)) :
  Spec.frames_well_formed tables →
  (TableExtractor.extract_financial_statements to_numeric tables = None
   ↔ Exists Spec.lacks_key tables)
  ∧ ∀ statements,
      TableExtractor.extract_financial_statements to_numeric tables = Some statements →
      dom statements = {[ "profit_loss"; "balance_sheet"; "cash_flow" ]}
      ∧ ∀ t, t ∈ Spec.statement_types →
          statements !! t
          = Some (TableExtractor._process_financial_table to_numeric
                  <$> Spec.first_of_type t tables).
Proof.
  intros _. unfold TableExtractor.extract_financial_statements.
  pose proof (add_statements_lookup to_numeric tables TableExtractor.no_statements) as H.
  destruct (TableExtractor.add_statements to_numeric tables TableExtractor.no_statements)
    as [res|].
  - destruct H as [Hall Hlook].
    { intros t Ht. rewrite no_statements_keys by done. by eexists. }
    split.
    + split; [done|]. intros Hex. exfalso.
      apply Exists_exists in Hex as (tb & Hin & Hbad).
      rewrite Forall_forall in Hall. by apply (Hall tb).
    + intros statements [= <-]. split.
      * apply set_eq. intros t. rewrite elem_of_dom, Hlook.
        unfold TableExtractor.no_statements.
        rewrite !elem_of_union, !elem_of_singleton.
        destruct (decide (t = "cash_flow")) as [->|H1]; [split; [auto|by eexists]|].
        destruct (decide (t = "balance_sheet")) as [->|H2]; [split; [auto|by eexists]|].
        destruct (decide (t = "profit_loss")) as [->|H3]; [split; [auto|by eexists]|].
        rewrite !lookup_insert_ne, lookup_empty by done.
        split; [by intros [? ?]|]. intros [[?|?]|?]; done.
      * intros t Ht. rewrite Hlook. by rewrite no_statements_keys.
  - split; [|done]. split; [intros _|done]. apply H.
    intros t Ht. rewrite no_statements_keys by done. by eexists.
Qed.

Lemma extract_financial_statements_witness :
  ∃ statements,
    TableExtractor.extract_financial_statements id
      [ TableExtractor.mkTable (Some "text") None;
        TableExtractor.mkTable (Some "financial")
          (Some (TableExtractor.mkDataFrame "Particulars" ["FY 2023"]
                   [(TableExtractor.LStr "Revenue", [Some 1000%Q])]));
        TableExtractor.mkTable (Some "financial")
          (Some (TableExtractor.mkDataFrame "Particulars" ["FY 2023"]
                   [(TableExtractor.LStr "Net profit", [Some 120%Q])])) ]
    = Some statements
    ∧ statements !! "profit_loss"
      = Some (Some (TableExtractor.mkDataFrame "Particulars" ["FY 2023"]
                      [(TableExtractor.LStr "Revenue", [Some 1000%Q])]))
    ∧ statements !! "balance_sheet" = Some None.
Proof.
  destruct (extract_financial_statements_first id
    [ TableExtractor.mkTable (Some "text") None;
      TableExtractor.mkTable (Some "financial")
        (Some (TableExtractor.mkDataFrame "Particulars" ["FY 2023"]
                 [(TableExtractor.LStr "Revenue", [Some 1000%Q])]));
      TableExtractor.mkTable (Some "financial")
        (Some (TableExtractor.mkDataFrame "Particulars" ["FY 2023"]
                 [(TableExtractor.LStr "Net profit", [Some 120%Q])])) ])
    as [_ Hsome].
  - intros table df Hin Hdf.
    repeat (apply elem_of_cons in Hin as [->|Hin]; [try discriminate Hdf|]).
    + injection Hdf as <-. split.
      * apply (bool_decide_unpack _). vm_compute. exact I.
      * exists "Revenue". by left.
    + injection Hdf as <-. split.
      * apply (bool_decide_unpack _). vm_compute. exact I.
      * exists "Net profit". by left.
    + by apply elem_of_nil in Hin.
  - destruct (TableExtractor.extract_financial_statements id _) as [statements|] eqn:Hs;
      [|vm_compute in Hs; discriminate Hs].
    exists statements. destruct (Hsome statements eq_refl) as [_ Hlook].
    split_and!; [done|..].
    + rewrite (Hlook "profit_loss") by (by left). reflexivity.
    + rewrite (Hlook "balance_sheet") by (right; by left). reflexivity.
Defined.

Lemma add_metrics_cons (df : TableExtractor.DataFrame (option Q)) (metric : string)
    (metrics : list string) (financial_data : gmap string (gmap Z Q)) :
  TableExtractor.add_metrics df (metric :: metrics) financial_data
  = TableExtractor.add_metrics df metrics
      (<[metric := TableExtractor.extract_metric_timeseries (Some df) metric]> financial_data).
Proof. reflexivity. Qed.

Lemma add_metrics_nil (df : TableExtractor.DataFrame (option Q))
    (financial_data : gmap string (gmap Z Q)) :
  TableExtractor.add_metrics df [] financial_data = financial_data.
Proof. reflexivity. Qed.

Ltac lookup_inserts :=
  repeat first
    [ rewrite lookup_insert_eq
    | rewrite lookup_insert_ne by (first [done | congruence]) ];
  rewrite ?lookup_empty.

Ltac each_of H :=
  repeat (apply elem_of_cons in H as [->|H]); [..|by apply elem_of_nil in H].

Ltac none_of H :=
  repeat (apply not_elem_of_cons in H as [? H]).

(** The entries of the financial data, when [statements] has its three keys. *)
Lemma financial_data_entries (statements : TableExtractor.Statements)
    (pl bs cf : option (TableExtractor.DataFrame (option Q))) :
  statements !! "profit_loss" = Some pl →
  statements !! "balance_sheet" = Some bs →
  statements !! "cash_flow" = Some cf →
  ∃ financial_data,
    TableExtractor.build_financial_data_dict statements = Some financial_data
    ∧ (∀ m, m ∈ ["revenue"; "ebitda"; "ebit"; "pat"] →
         financial_data !! m
         = (df ← pl; Some (TableExtractor.extract_metric_timeseries (Some df) m)))
    ∧ (∀ m, m ∈ ["total_assets"; "total_liabilities"; "equity"; "total_debt"; "cash"] →
         financial_data !! m
         = (df ← bs; Some (TableExtractor.extract_metric_timeseries (Some df) m)))
    ∧ (∀ m, m ∈ ["operating_cash_flow"; "investing_cash_flow"; "financing_cash_flow"] →
         financial_data !! m = (_ ← cf; Some ∅))
    ∧ (∀ m, m ∈ ["current_assets"; "current_liabilities"] → financial_data !! m = Some ∅)
    ∧ (∀ m, m ∉ ["revenue"; "ebitda"; "ebit"; "pat";
                 "total_assets"; "total_liabilities"; "equity"; "total_debt"; "cash";
                 "operating_cash_flow"; "investing_cash_flow"; "financing_cash_flow";
                 "current_assets"; "current_liabilities"] →
         financial_data !! m = None).
Proof.
  intros Hpl Hbs Hcf. unfold TableExtractor.build_financial_data_dict.
  rewrite Hpl, Hbs, Hcf. cbn [mbind option_bind]. cbv zeta.
  eexists. split; [reflexivity|].
  destruct pl as [pl|], bs as [bs|], cf as [cf|];
    rewrite ?add_metrics_cons, ?add_metrics_nil;
    (split_and!; intros m Hm;
     [ each_of Hm; cbn [mbind option_bind]; lookup_inserts; reflexivity ..
     | none_of Hm; lookup_inserts; reflexivity ]).
Qed.

(** [build_financial_data_dict] raises [KeyError] exactly when [statements]
    lacks one of the three statement types; otherwise each metric of a
    statement that is present is the series [extract_metric_timeseries] reads
    from that statement's frame, the metrics of a statement that is [None]
    are left out of the result rather than set to an empty series, the three
    cash-flow entries are empty when there is a cash-flow statement,
    [current_assets] and [current_liabilities] are always empty, and there
    is no other key. *)
Theorem build_financial_data_dict_entries (statements : TableExtractor.Statements) :
  (TableExtractor.build_financial_data_dict statements = None
   ↔ ∃ t, t ∈ Spec.statement_types ∧ statements !! t = None)
  ∧ ∀ financial_data,
      TableExtractor.build_financial_data_dict statements = Some financial_data →
      ∃ pl bs cf,
        statements !! "profit_loss" = Some pl
        ∧ statements !! "balance_sheet" = Some bs
        ∧ statements !! "cash_flow" = Some cf
        ∧ (∀ m, m ∈ ["revenue"; "ebitda"; "ebit"; "pat"] →
             financial_data !! m
             = (df ← pl; Some (TableExtractor.extract_metric_timeseries (Some df) m)))
        ∧ (∀ m, m ∈ ["total_assets"; "total_liabilities"; "equity"; "total_debt"; "cash"] →
             financial_data !! m
             = (df ← bs; Some (TableExtractor.extract_metric_timeseries (Some df) m)))
        ∧ (∀ m, m ∈ ["operating_cash_flow"; "investing_cash_flow"; "financing_cash_flow"] →
             financial_data !! m = (_ ← cf; Some ∅))
        ∧ (∀ m, m ∈ ["current_assets"; "current_liabilities"] →
             financial_data !! m = Some ∅)
        ∧ (∀ m, m ∉ ["revenue"; "ebitda"; "ebit"; "pat";
                     "total_assets"; "total_liabilities"; "equity"; "total_debt"; "cash";
                     "operating_cash_flow"; "investing_cash_flow"; "financing_cash_flow";
                     "current_assets"; "current_liabilities"] →
             financial_data !! m = None).
Proof.
  destruct (statements !! "profit_loss") as [pl|] eqn:Hpl.
  2:{ split.
      - split; [|by unfold TableExtractor.build_financial_data_dict; rewrite Hpl].
        intros _. exists "profit_loss". split; [by left|done].
      - unfold TableExtractor.build_financial_data_dict. rewrite Hpl. done. }
  destruct (statements !! "balance_sheet") as [bs|] eqn:Hbs.
  2:{ split.
      - split; [|by unfold TableExtractor.build_financial_data_dict; rewrite Hpl, Hbs].
        intros _. exists "balance_sheet". split; [right; by left|done].
      - unfold TableExtractor.build_financial_data_dict. rewrite Hpl, Hbs. done. }
  destruct (statements !! "cash_flow") as [cf|] eqn:Hcf.
  2:{ split.
      - split; [|by unfold TableExtractor.build_financial_data_dict; rewrite Hpl, Hbs, Hcf].
        intros _. exists "cash_flow". split; [right; right; by left|done].
      - unfold TableExtractor.build_financial_data_dict. rewrite Hpl, Hbs, Hcf. done. }
  destruct (financial_data_entries statements pl bs cf Hpl Hbs Hcf) as (fd & Hfd & Hrest).
  split.
  - rewrite Hfd. split; [done|]. intros (t & Ht & Hnone).
    unfold Spec.statement_types in Ht. each_of Ht; congruence.
  - intros fd' Hfd'. rewrite Hfd in Hfd'. injection Hfd' as <-.
    destruct Hrest as (H1 & H2 & H3 & H4 & H5).
    exists pl, bs, cf. by split_and!.
Qed.

Lemma build_financial_data_dict_witness :
  TableExtractor.build_financial_data_dict
    (<["profit_loss" := None]> (<["cash_flow" := None]> ∅)) = None.
Proof.
  apply (proj1 (build_financial_data_dict_entries
                  (<["profit_loss" := None]> (<["cash_flow" := None]> ∅)))).
  exists "balance_sheet". split; [right; by left|].
  rewrite !lookup_insert_ne by done. apply lookup_empty.
Defined.

(** The financial analysis of the orchestrator, tables to financial data. On
    tables that have the keys the loop reads, with frames of distinct column
    names and a label column with some text, the two steps return a result
    without a [KeyError], and each series of the result is read from the
    first financial table identified as its statement, after processing; the
    metrics of a statement that no table provides are absent. *)
Theorem financial_data_of_tables {A} (to_numeric : A → option Q)
    (tables : list (TableExtractor.Table A)) :
  Spec.frames_well_formed tables →
  Forall (fun table => ¬ Spec.lacks_key table) tables →
  let frame t :=
    TableExtractor._process_financial_table to_numeric <$> Spec.first_of_type t tables in
  ∃ statements financial_data,
    TableExtractor.extract_financial_statements to_numeric tables = Some statements
    ∧ TableExtractor.build_financial_data_dict statements = Some financial_data
    ∧ (∀ m, m ∈ ["revenue"; "ebitda"; "ebit"; "pat"] →
         financial_data !! m
         = (df ← frame "profit_loss";
            Some (TableExtractor.extract_metric_timeseries (Some df) m)))
    ∧ (∀ m, m ∈ ["total_assets"; "total_liabilities"; "equity"; "total_debt"; "cash"] →
         financial_data !! m
         = (df ← frame "balance_sheet";
            Some (TableExtractor.extract_metric_timeseries (Some df) m)))
    ∧ (∀ m, m ∈ ["operating_cash_flow"; "investing_cash_flow"; "financing_cash_flow"] →
         financial_data !! m = (_ ← frame "cash_flow"; Some ∅)).
Proof.
  intros _ Hkeys frame. unfold TableExtractor.extract_financial_statements.
  pose proof (add_statements_lookup to_numeric tables TableExtractor.no_statements) as H.
  destruct (TableExtractor.add_statements to_numeric tables TableExtractor.no_statements)
    as [statements|].
  2:{ exfalso. apply Exists_exists in H as (tb & Hin & Hbad).
      - rewrite Forall_forall in Hkeys. by apply (Hkeys tb).
      - intros t Ht. rewrite no_statements_keys by done. by eexists. }
  destruct H as [_ Hlook].
  { intros t Ht. rewrite no_statements_keys by done. by eexists. }
  destruct (financial_data_entries statements
              (frame "profit_loss") (frame "balance_sheet") (frame "cash_flow"))
    as (fd & Hfd & Hpl & Hbs & Hcf & _).
  1-3: rewrite Hlook; reflexivity.
  exists statements, fd. by split_and!.
Qed.

Lemma financial_data_of_tables_witness :
  ∃ statements financial_data,
    TableExtractor.extract_financial_statements id
      [ TableExtractor.mkTable (Some "financial")
          (Some (TableExtractor.mkDataFrame "Particulars" ["FY 2023"; "FY 2022"]
                   [(TableExtractor.LStr "Revenue from operations",
                     [Some 1000%Q; Some 900%Q])])) ]
    = Some statements
    ∧ TableExtractor.build_financial_data_dict statements = Some financial_data
    ∧ financial_data !! "revenue" = Some (<[2022 := 900%Q]> (<[2023 := 1000%Q]> ∅))
    ∧ financial_data !! "cash" = None.
Proof.
  destruct (financial_data_of_tables id
    [ TableExtractor.mkTable (Some "financial")
        (Some (TableExtractor.mkDataFrame "Particulars" ["FY 2023"; "FY 2022"]
                 [(TableExtractor.LStr "Revenue from operations",
                   [Some 1000%Q; Some 900%Q])])) ])
    as (statements & fd & Hs & Hfd & Hpl & Hbs & _).
  - intros table df Hin Hdf.
    apply list_elem_of_singleton in Hin as ->. injection Hdf as <-. split.
    + apply (bool_decide_unpack _). vm_compute. exact I.
    + exists "Revenue from operations". by left.
  - constructor; [|constructor]. intros [?|[_ ?]]; discriminate.
  - exists statements, fd. split_and!; [exact Hs|exact Hfd|..].
    + rewrite (Hpl "revenue") by (by left). vm_compute. reflexivity.
    + rewrite (Hbs "cash") by (do 4 right; by left). vm_compute. reflexivity.
Defined.

(** ** Processing a table twice *)

Section ProcessTwice.
Import Text TableExtractor.

Lemma strip_by_idem (p : ascii → bool) (l : list ascii) :
  strip_by p (strip_by p l) = strip_by p l.
Proof.
  destruct (strip_by_spec p l) as (_ & _ & _ & _ & _ & Hhead & Hlast).
  set (m := strip_by p l) in *. unfold strip_by, rstrip_by.
  assert (Hl : lstrip_by p m = m).
  { destruct m as [|c m']; [done|]. simpl. by rewrite (Hhead c). }
  rewrite Hl.
  assert (Hr : lstrip_by p (rev m) = rev m).
  { destruct (rev m) as [|c k] eqn:Hrev; [done|]. simpl.
    rewrite (Hlast c); [done|].
    rewrite <- (rev_involutive m), last_rev, Hrev. done. }
  rewrite Hr. apply rev_involutive.
Qed.

Lemma strip_idem (s : string) : strip (strip s) = strip s.
Proof. unfold strip. by rewrite chars_text, strip_by_idem. Qed.

Lemma strip_label_idem (v : label) : strip_label (strip_label v) = strip_label v.
Proof. destruct v; simpl; [|done..]. by rewrite strip_idem. Qed.

Lemma filter_all {B} (P : B → Prop) `{∀ x, Decision (P x)} (l : list B) :
  Forall P l → filter P l = l.
Proof.
  induction 1 as [|x l Hx _ IH]; [done|].
  rewrite filter_cons_True by done. by rewrite IH.
Qed.

(** Selecting again among the columns kept leaves the cells as they are. *)
Lemma select_cells_again {B C} (g : B → C) (keep keep' : string → bool)
    (hs : list string) (cells : list B) :
  (∀ h, h ∈ filter (fun col => keep col = true) hs → keep' h = true) →
  select_cells keep' (filter (fun col => keep col = true) hs)
    (g <$> select_cells keep hs cells)
  = g <$> select_cells keep hs cells.
Proof.
  intros Hkeep. unfold select_cells at 1.
  rewrite zip_fmap_cells, zip_select_cells.
  rewrite filter_all.
  - rewrite <- list_fmap_compose. unfold select_cells.
    rewrite <- list_fmap_compose. reflexivity.
  - apply Forall_forall. intros hc Hhc.
    apply list_elem_of_fmap in Hhc as ([h c] & -> & Hin).
    apply list_elem_of_filter in Hin as [Hk Hin]. simpl in *.
    apply Hkeep, list_elem_of_filter. split; [done|].
    by apply elem_of_zip_l in Hin.
Qed.

(** The columns kept are kept again. *)
Lemma keep_again (hs : list string) :
  let keep : string → bool :=
    match filter (fun col => is_year_col col = true) hs with
    | [] => fun _ => true | _ => is_year_col end in
  let hs' := filter (fun col => keep col = true) hs in
  let keep' : string → bool :=
    match filter (fun col => is_year_col col = true) hs' with
    | [] => fun _ => true | _ => is_year_col end in
  ∀ h, h ∈ hs' → keep' h = true.
Proof.
  intros keep hs' keep' h Hh.
  destruct (filter (fun col => is_year_col col = true) hs) as [|y ys] eqn:Hyc.
  - assert (Hhs : hs' = hs).
    { subst hs' keep. apply filter_all, Forall_forall. done. }
    subst keep'. rewrite Hhs, Hyc. done.
  - assert (Hhs : hs' = y :: ys) by (subst hs' keep; exact Hyc).
    assert (Hall : Forall (fun col => is_year_col col = true) (y :: ys)).
    { rewrite <- Hyc. apply Forall_forall. intros x Hx.
      by apply list_elem_of_filter in Hx as [? _]. }
    subst keep'. rewrite Hhs in *. rewrite (filter_all _ (y :: ys)) by done.
    rewrite Forall_forall in Hall. by apply Hall.
Qed.

End ProcessTwice.

(** [_process_financial_table] is idempotent on a frame whose column names
    are distinct (the columns are selected by name): processing a frame it
    has returned, whose cells are numbers already so that the conversion
    leaves them as they are, keeps the same columns, the same rows and the
    same labels. *)
Theorem process_financial_table_idempotent {A} (to_numeric : A → option Q)
    (df : TableExtractor.DataFrame A) :
  NoDup (TableExtractor.columns df) →
  TableExtractor._process_financial_table id
    (TableExtractor._process_financial_table to_numeric df)
  = TableExtractor._process_financial_table to_numeric df.
Proof.
  intros _.
  pose proof (keep_again (TableExtractor.headers df)) as Hkeep. cbv zeta in Hkeep.
  unfold TableExtractor._process_financial_table at 1. cbv zeta.
  set (out := TableExtractor._process_financial_table to_numeric df).
  assert (Hhs : TableExtractor.headers out
                = filter (fun col =>
                    match filter (fun col => TableExtractor.is_year_col col = true)
                                 (TableExtractor.headers df) with
                    | [] => fun _ => true | _ => TableExtractor.is_year_col end col = true)
                    (TableExtractor.headers df)) by reflexivity.
  rewrite Hhs in *.
  set (keep := match filter (fun col => TableExtractor.is_year_col col = true)
                            (TableExtractor.headers df) with
               | [] => fun _ => true | _ => TableExtractor.is_year_col end) in *.
  set (hs' := filter (fun col => keep col = true) (TableExtractor.headers df)) in *.
  set (keep' := match filter (fun col => TableExtractor.is_year_col col = true) hs' with
                | [] => fun _ => true | _ => TableExtractor.is_year_col end) in *.
  assert (Hrows : TableExtractor.rows out
    = (fun r : TableExtractor.label * list (option Q) =>
         (TableExtractor.strip_label r.1, r.2))
      <$> filter (fun r : TableExtractor.label * list (option Q) =>
                    existsb (fun v : option Q => bool_decide (is_Some v)) r.2 = true)
            ((fun r : TableExtractor.label * list A =>
                (r.1, to_numeric <$> TableExtractor.select_cells keep
                                       (TableExtractor.headers df) r.2))
             <$> TableExtractor.rows df)) by reflexivity.
  assert (Hsame : (fun r : TableExtractor.label * list (option Q) =>
                     (r.1, id <$> TableExtractor.select_cells keep' hs' r.2))
                  <$> TableExtractor.rows out
                  = TableExtractor.rows out).
  { rewrite <- (list_fmap_id (TableExtractor.rows out)) at 2.
    apply list_fmap_ext. intros i r Hr.
    apply list_elem_of_lookup_2 in Hr. rewrite Hrows in Hr.
    apply list_elem_of_fmap in Hr as (r1 & -> & Hr1).
    apply list_elem_of_filter in Hr1 as [_ Hr1].
    apply list_elem_of_fmap in Hr1 as (r0 & -> & _). simpl.
    rewrite list_fmap_id. unfold hs'.
    by rewrite (select_cells_again to_numeric keep keep') by exact Hkeep. }
  rewrite Hsame.
  assert (Hkept : filter (fun r : TableExtractor.label * list (option Q) =>
                            existsb (fun v : option Q => bool_decide (is_Some v)) r.2 = true)
                         (TableExtractor.rows out)
                  = TableExtractor.rows out).
  { apply filter_all, Forall_forall. intros r Hr.
    rewrite Hrows in Hr.
    apply list_elem_of_fmap in Hr as (r1 & -> & Hr1).
    by apply list_elem_of_filter in Hr1 as [? _]. }
  rewrite Hkept.
  assert (Hstrip : (fun r : TableExtractor.label * list (option Q) =>
                      (TableExtractor.strip_label r.1, r.2))
                   <$> TableExtractor.rows out
                   = TableExtractor.rows out).
  { rewrite Hrows, <- list_fmap_compose. apply list_fmap_ext. intros i r _.
    simpl. by rewrite strip_label_idem. }
  rewrite Hstrip.
  rewrite (filter_all _ hs') by (apply Forall_forall; intros h Hh;
                                 by apply Hkeep).
  rewrite <- Hhs. by destruct out.
Qed.

Lemma process_financial_table_idempotent_witness :
  TableExtractor._process_financial_table id
    (TableExtractor._process_financial_table id
       (TableExtractor.mkDataFrame "Particulars" ["Note"; "FY 2023"; "FY 2022"]
          [ (TableExtractor.LStr "  Revenue from operations ",
             [None; Some 1000%Q; Some 900%Q]);
            (TableExtractor.LStr "Segment", [Some 4%Q; None; None]) ]))
  = TableExtractor.mkDataFrame "Particulars" ["FY 2023"; "FY 2022"]
      [ (TableExtractor.LStr "Revenue from operations", [Some 1000%Q; Some 900%Q]) ].
Proof.
  rewrite (process_financial_table_idempotent id).
  - vm_compute. reflexivity.
  - apply (bool_decide_unpack _). vm_compute. exact I.
Defined.
